(** * dobslit_senai_a3: the Grover circuit builder and its result formatter

    A shallow embedding of [src/dobslit_senai_a3/__init__.py]:
    the function [organize_qiskit_result] and the class [GroverAlgorithm].

    Python values are modelled as follows.
    - [int] is [Z]; [str] is [string]; a [list] is a [list].
    - A [dict] is an association list in insertion order whose keys are
      pairwise distinct ([pydict]).
    - A raised exception is the [Raise] branch of [result].
    - The object [self] of [GroverAlgorithm] is a record threaded through a
      state-and-exception monad ([GroverAlgorithm.M]).
    - The circuit ([qiskit.QuantumCircuit]) is the list of registers added
      to it and the list of instructions placed on it.  Its methods raise
      CircuitError as the library does: for a bit that is not on the
      circuit, a qubit given twice to one gate, an empty list of qubits or
      of controls, and a register whose name the circuit already holds
      ([Circuit.fresh_names_only]; the test of added registers is a
      parameter, [Circuit.RegisterPolicy], of the statements that do not
      depend on it).
    - The table ([pandas.DataFrame]) is a list of rows with column names
      and row labels.

    The file has two parts: the definitions, then the proofs. *)

From Stdlib Require Import String Ascii List ZArith Bool Lia Permutation Sorted FinFun.
Import ListNotations.
Local Open Scope string_scope.
Local Open Scope list_scope.
Local Open Scope Z_scope.

(** ** Exceptions and results *)

Inductive exn : Type :=
| IndexError
| KeyError
| ValueError
| TypeError
| NotImplementedError
| CircuitError.

Inductive result (A : Type) : Type :=
| Ok (a : A)
| Raise (e : exn).

Arguments Ok {A} a.
Arguments Raise {A} e.

Definition bind {A B : Type} (r : result A) (k : A -> result B) : result B :=
  match r with
  | Ok a => k a
  | Raise e => Raise e
  end.

Declare Scope res_scope.
Delimit Scope res_scope with res.
Notation "x <- e ;; k" := (bind e (fun x => k))
  (at level 61, e at next level, right associativity) : res_scope.

(** [for a in l: s = body a s], stopping at the first exception. *)
Fixpoint for_each {A S : Type} (l : list A) (body : A -> S -> result S) (s : S)
  : result S :=
  match l with
  | [] => Ok s
  | a :: t =>
      match body a s with
      | Ok s' => for_each t body s'
      | Raise e => Raise e
      end
  end.

(** ** Python built-ins used by the source *)

Definition len {A : Type} (l : list A) : Z := Z.of_nat (length l).

(** [range(n)]: empty when [n <= 0]. *)
Definition range (n : Z) : list Z := map Z.of_nat (seq 0 (Z.to_nat n)).

(** [l[i]] with Python's negative indices; out of range raises IndexError. *)
Definition getitem {A : Type} (l : list A) (i : Z) : result A :=
  let j := if i <? 0 then i + len l else i in
  if (j <? 0) || (len l <=? j) then Raise IndexError
  else match nth_error l (Z.to_nat j) with
       | Some a => Ok a
       | None => Raise IndexError
       end.

(** [s.split(' ')]: cuts at every single space; never returns the empty list. *)
Fixpoint split_space (s : string) : list string :=
  match s with
  | EmptyString => [EmptyString]
  | String c r =>
      if Ascii.eqb c " "%char then EmptyString :: split_space r
      else match split_space r with
           | w :: ws => String c w :: ws
           | [] => [String c EmptyString]
           end
  end.

(** Insertion-ordered dictionaries with string keys. *)
Definition pydict (V : Type) : Type := list (string * V).

Definition dict_keys {V : Type} (d : pydict V) : list string := map fst d.

(** [d[k]]: KeyError when [k] is not a key. *)
Fixpoint dict_getitem {V : Type} (d : pydict V) (k : string) : result V :=
  match d with
  | [] => Raise KeyError
  | (k', v) :: t => if String.eqb k' k then Ok v else dict_getitem t k
  end.

(** [d[k] = v]: an existing key keeps its position, a new key goes last. *)
Fixpoint dict_setitem {V : Type} (d : pydict V) (k : string) (v : V) : pydict V :=
  match d with
  | [] => [(k, v)]
  | (k', v') :: t =>
      if String.eqb k' k then (k', v) :: t else (k', v') :: dict_setitem t k v
  end.

(** [{key: [] for key in keys}]. *)
Definition dict_of_empty_lists {V : Type} (keys : list string) : pydict (list V) :=
  fold_left (fun d k => dict_setitem d k []) keys [].

(** ** The table returned by the formatter

    A cell holds a register's bit-string or a frequency.  A [DataFrame] is
    kept row by row together with its column names and its row labels. *)

Inductive value : Type :=
| VStr (s : string)
| VInt (z : Z).

Record DataFrame : Type := mkDataFrame {
  df_columns : list string;
  df_index : list Z;
  df_rows : list (list value)
}.

(** The first [n] rows of a dict of columns: row [r] holds entry [r] of every
    column. *)
Definition rows_of (d : pydict (list value)) (n : nat) : list (list value) :=
  map (fun r => map (fun kv => nth r (snd kv) (VInt 0)) d) (seq 0 n).

(** [pd.DataFrame(d)] for a dict of columns: the columns must have one common
    length (pandas raises ValueError otherwise); row [r] holds entry [r] of
    every column and is labelled [r]. *)
Definition DataFrame_of_dict (d : pydict (list value)) : result DataFrame :=
  match map (fun kv => length (snd kv)) d with
  | [] => Ok (mkDataFrame [] [] [])
  | n :: rest =>
      if forallb (Nat.eqb n) rest
      then Ok (mkDataFrame (dict_keys d) (range (Z.of_nat n)) (rows_of d n))
      else Raise ValueError
  end.

Fixpoint index_of (c : string) (cols : list string) : option nat :=
  match cols with
  | [] => None
  | c' :: t => if String.eqb c' c then Some O
               else option_map S (index_of c t)
  end.

(** The sort key of a row: the integer in column [j]. *)
Definition int_at (j : nat) (row : list value) : result Z :=
  match nth_error row j with
  | Some (VInt z) => Ok z
  | Some (VStr _) => Raise TypeError
  | None => Raise IndexError
  end.

(** Insertion of a keyed row into a list sorted by decreasing key, after the
    rows of equal key that are already there. *)
Fixpoint insert_desc {R : Type} (x : Z * R) (l : list (Z * R)) : list (Z * R) :=
  match l with
  | [] => [x]
  | y :: t => if fst y <? fst x then x :: y :: t else y :: insert_desc x t
  end.

Definition sort_desc {R : Type} (l : list (Z * R)) : list (Z * R) :=
  fold_left (fun acc x => insert_desc x acc) l [].

(** [df.sort_values(by, ascending=False)]: rows, with their labels, by
    decreasing value of column [by]; comparing a string with an integer
    raises TypeError.  Rows of equal value are kept in their order here; no
    statement below depends on the order of such rows. *)
Definition sort_values_desc (by_ : string) (df : DataFrame) : result DataFrame :=
  match index_of by_ (df_columns df) with
  | None => Raise KeyError
  | Some j =>
      (keyed <- for_each (combine (df_index df) (df_rows df))
                 (fun lr acc => (k <- int_at j (snd lr) ;; Ok (acc ++ [(k, lr)]))%res)
                 [] ;;
       let sorted := map snd (sort_desc keyed) in
       Ok (mkDataFrame (df_columns df) (map fst sorted) (map snd sorted)))%res
  end.

(** [df.reset_index(drop=True)]: fresh labels 0, 1, 2, ... *)
Definition reset_index (df : DataFrame) : DataFrame :=
  mkDataFrame (df_columns df) (range (len (df_rows df))) (df_rows df).

(** ** organize_qiskit_result (source lines 9-38) *)

(** Line 30, the body of the loop of line 29. *)
Definition copy_step (reg_bit_string : list string)
  (i : Z) (reg_data_list : list string) : result (list string) :=
  (b <- getitem reg_bit_string i ;;
   Ok (reg_data_list ++ [b]))%res.

(** Line 34, the body of the loop of line 33. *)
Definition append_step (registers_names reg_data_list : list string)
  (i : Z) (out_dict : pydict (list value)) : result (pydict (list value)) :=
  (name <- getitem registers_names i ;;
   column <- dict_getitem out_dict name ;;
   b <- getitem reg_data_list (-1 - i) ;;
   Ok (dict_setitem out_dict name (column ++ [VStr b])))%res.

(** Lines 24-36, the body of the loop over the keys. *)
Definition organize_key (result_counts : pydict Z) (registers_names : list string)
  (full_bit_string : string) (out_dict : pydict (list value))
  : result (pydict (list value)) :=
  (freq <- dict_getitem result_counts full_bit_string ;;
   let reg_bit_string := split_space full_bit_string in
   reg_data_list <-
     for_each (range (len reg_bit_string)) (copy_step reg_bit_string) [] ;;
   out_dict <-
     for_each (range (len reg_bit_string))
       (append_step registers_names reg_data_list) out_dict ;;
   column <- dict_getitem out_dict "$freq" ;;
   Ok (dict_setitem out_dict "$freq" (column ++ [VInt freq])))%res.

Definition organize_qiskit_result
  (result_counts : pydict Z) (registers_names : list string) : result DataFrame :=
  (let out_dict : pydict (list value) :=
     dict_of_empty_lists (registers_names ++ ["$freq"]) in
   out_dict <-
     for_each (dict_keys result_counts)
       (organize_key result_counts registers_names) out_dict ;;
   df <- DataFrame_of_dict out_dict ;;
   df <- sort_values_desc "$freq" df ;;
   Ok (reset_index df))%res.

(** ** The circuit object (qiskit.QuantumCircuit)

    The circuit is kept as what the source hands to it: the registers added
    and the instructions placed, in order.  A qubit [reg[i]] is the pair of
    its register and its position.  A method of the circuit returns the
    circuit with the new instructions, or raises CircuitError. *)

Inductive RegisterKind : Type := Quantum | Classical.

Record Register : Type := mkRegister {
  reg_kind : RegisterKind;
  reg_size : nat;
  reg_name : string
}.

Definition QuantumRegister (size : nat) (name : string) : Register :=
  mkRegister Quantum size name.

Definition ClassicalRegister (size : nat) (name : string) : Register :=
  mkRegister Classical size name.

Definition RegisterKind_eqb (a b : RegisterKind) : bool :=
  match a, b with
  | Quantum, Quantum | Classical, Classical => true
  | _, _ => false
  end.

(** The comparison behind [qbit != target_qubit] (line 126).  A register is
    told apart by its kind, size and name; two registers that [create_qubit]
    builds for different labels differ in their names, so on them this is
    the comparison of the register objects themselves. *)
Definition Register_eqb (a b : Register) : bool :=
  RegisterKind_eqb (reg_kind a) (reg_kind b)
  && Nat.eqb (reg_size a) (reg_size b)
  && String.eqb (reg_name a) (reg_name b).

Definition Bit : Type := (Register * nat)%type.

(** [reg[i]] *)
Definition getbit (reg : Register) (i : nat) : Bit := (reg, i).

Definition Bit_eqb (a b : Bit) : bool :=
  Register_eqb (fst a) (fst b) && Nat.eqb (snd a) (snd b).

Inductive Instruction : Type :=
| HGate (q : Bit)
| XGate (q : Bit)
| ZGate (q : Bit)
| CZGate (ctrl target : Bit)
| MCXGate (ctrls : list Bit) (target : Bit)
| Barrier
| Measure (q c : Bit).

Module Circuit.

Record t : Type := mk {
  regs : list Register;
  data : list Instruction
}.

(** [qiskit.QuantumCircuit()] *)
Definition empty : t := mk [] [].

Definition append (c : t) (gates : list Instruction) : t :=
  mk (regs c) (data c ++ gates).

(** The circuit holds [reg]: a register of this kind, size and name was
    added to it. *)
Definition has_register (c : t) (reg : Register) : bool :=
  existsb (Register_eqb reg) (regs c).

(** [q] is a qubit of the circuit: a bit of a quantum register it holds. *)
Definition has_qubit (c : t) (q : Bit) : bool :=
  RegisterKind_eqb (reg_kind (fst q)) Quantum
  && has_register c (fst q)
  && (snd q <? reg_size (fst q))%nat.

(** [b] is a classical bit of the circuit. *)
Definition has_clbit (c : t) (b : Bit) : bool :=
  RegisterKind_eqb (reg_kind (fst b)) Classical
  && has_register c (fst b)
  && (snd b <? reg_size (fst b))%nat.

(** No qubit is listed twice. *)
Fixpoint distinct (qs : list Bit) : bool :=
  match qs with
  | [] => true
  | q :: rest => negb (existsb (Bit_eqb q) rest) && distinct rest
  end.

(** The library's test of the qubits one gate acts on: each is a qubit of
    the circuit and no two are the same. *)
Definition check_qargs (c : t) (qargs : list Bit) : bool :=
  forallb (has_qubit c) qargs && distinct qargs.

(** Placing one gate on [qargs]: CircuitError when the test fails. *)
Definition gate (c : t) (g : Instruction) (qargs : list Bit) : result t :=
  if check_qargs c qargs then Ok (append c [g]) else Raise CircuitError.

Definition h (c : t) (q : Bit) : result t := gate c (HGate q) [q].
Definition x (c : t) (q : Bit) : result t := gate c (XGate q) [q].
Definition z (c : t) (q : Bit) : result t := gate c (ZGate q) [q].
Definition cz (c : t) (ctrl target : Bit) : result t :=
  gate c (CZGate ctrl target) [ctrl; target].

(** [circ.mcx(ctrls, target)]: CircuitError without a control, and when the
    controls and the target are not pairwise distinct qubits of the circuit. *)
Definition mcx (c : t) (ctrls : list Bit) (target : Bit) : result t :=
  match ctrls with
  | [] => Raise CircuitError
  | _ :: _ => gate c (MCXGate ctrls target) (ctrls ++ [target])
  end.

Definition barrier (c : t) : result t := Ok (append c [Barrier]).

(** [circ.x(qs)] with a list of qubits: one X per listed qubit, in order;
    CircuitError on the empty list and when a listed qubit is not on the
    circuit. *)
Definition x_each (c : t) (qs : list Bit) : result t :=
  match qs with
  | [] => Raise CircuitError
  | _ :: _ =>
      if forallb (has_qubit c) qs then Ok (append c (map XGate qs))
      else Raise CircuitError
  end.

(** The bits of a register, in order. *)
Definition reg_bits (reg : Register) : list Bit :=
  map (getbit reg) (seq 0 (reg_size reg)).

(** [circ.measure(qreg, creg)] with two registers: the qubits of [qreg] are
    measured into the bits of [creg] position by position when the two have
    the same size; a single qubit is measured into every bit of [creg];
    CircuitError for any other sizes, and when a bit is not on the circuit. *)
Definition measure (c : t) (qreg creg : Register) : result t :=
  let qs := reg_bits qreg in
  let cs := reg_bits creg in
  if forallb (has_qubit c) qs && forallb (has_clbit c) cs then
    if (length qs =? length cs)%nat
    then Ok (append c (map (fun qc => Measure (fst qc) (snd qc)) (combine qs cs)))
    else match qs, cs with
         | [q], _ :: _ => Ok (append c (map (Measure q) cs))
         | _, _ => Raise CircuitError
         end
  else Raise CircuitError.

(** The library's test of a register that is added to the circuit. *)
Class RegisterPolicy : Type := accepts : t -> Register -> bool.

(** [circ.add_register(reg)]: CircuitError when the library refuses [reg]. *)
Definition add_register {P : RegisterPolicy} (c : t) (reg : Register) : result t :=
  if accepts c reg then Ok (mk (regs c ++ [reg]) (data c))
  else Raise CircuitError.

(** The library's test: it refuses a register whose name the circuit
    already holds. *)
Definition fresh_names_only : RegisterPolicy :=
  fun c reg => negb (existsb (fun r => String.eqb (reg_name r) (reg_name reg)) (regs c)).

(** Modelled from the spec: a circuit that takes every register, as section
    9 of the spec has it when it lets two qubits of one label "silently
    produce name clashes".  The library does not behave so; this test is
    here for the statements that hold whatever the test is. *)
Definition accept_all : RegisterPolicy := fun _ _ => true.

End Circuit.

(** ** class GroverAlgorithm (source lines 41-148) *)

Module GroverAlgorithm.

(** The attributes of [self]. *)
Record instance : Type := mkInstance {
  circ : Circuit.t;
  phase_ancilla : Register;
  qubits : list Register;
  clbits : list Register;
  names : list string
}.

(** A method body: it reads and updates [self], or raises. *)
Definition M (A : Type) : Type := instance -> result (A * instance).

Definition ret {A : Type} (a : A) : M A := fun self => Ok (a, self).

Definition raise {A : Type} (e : exn) : M A := fun _ => Raise e.

Definition bindM {A B : Type} (m : M A) (k : A -> M B) : M B :=
  fun self =>
    match m self with
    | Ok (a, self') => k a self'
    | Raise e => Raise e
    end.

Declare Scope method_scope.
Delimit Scope method_scope with method.
Notation "x <- e ;; k" := (bindM e (fun x => k))
  (at level 61, e at next level, right associativity) : method_scope.
Notation "e ;; k" := (bindM e (fun _ => k))
  (at level 61, right associativity) : method_scope.
Local Open Scope method_scope.

(** [self.attr] *)
Definition attr {A : Type} (f : instance -> A) : M A := fun self => Ok (f self, self).

(** [self.circ.method(...)]: the circuit's method places its instructions,
    or its error comes out of the calling method. *)
Definition on_circ (f : Circuit.t -> result Circuit.t) : M unit :=
  fun self =>
    (c <- f (circ self) ;;
     Ok (tt, mkInstance c (phase_ancilla self) (qubits self)
               (clbits self) (names self)))%res.

(** [reg[0]]: IndexError on a register without bits. *)
Definition item0 (reg : Register) : M Bit :=
  fun self =>
    if (reg_size reg =? 0)%nat then Raise IndexError else Ok (getbit reg 0, self).

(** [[qbit[0] for qbit in regs]] *)
Fixpoint items0 (regs : list Register) : M (list Bit) :=
  match regs with
  | [] => ret []
  | qbit :: rest => q <- item0 qbit ;; qs <- items0 rest ;; ret (q :: qs)
  end.

(** [for a in l: body(a)] *)
Fixpoint for_in {A : Type} (l : list A) (body : A -> M unit) : M unit :=
  match l with
  | [] => ret tt
  | a :: t => body a ;; for_in t body
  end.

(** Lines 55-64. *)
Definition create_qubit {P : Circuit.RegisterPolicy} (label : string) : M Register :=
  let one_qubit_reg := QuantumRegister 1 ("q_" ++ label)%string in
  let one_bit_reg := ClassicalRegister 1 ("c_" ++ label)%string in
  fun self =>
    (c <- Circuit.add_register (circ self) one_qubit_reg ;;
     c <- Circuit.add_register c one_bit_reg ;;
     Ok (one_qubit_reg,
         mkInstance c (phase_ancilla self)
           (qubits self ++ [one_qubit_reg])
           (clbits self ++ [one_bit_reg])
           (names self ++ [label])))%res.

(** Lines 69-91: the single-gate helpers. *)
Definition h (target_qubit : Register) : M unit :=
  q <- item0 target_qubit ;; on_circ (fun c => Circuit.h c q).

Definition z (target_qubit : Register) : M unit :=
  q <- item0 target_qubit ;; on_circ (fun c => Circuit.z c q).

Definition cz (ctrl_qubit target_qubit : Register) : M unit :=
  ctrl <- item0 ctrl_qubit ;;
  target <- item0 target_qubit ;;
  on_circ (fun c => Circuit.cz c ctrl target).

Definition mcx (ctrl_qubits : list Register) (target_qubit : Register) : M unit :=
  ctrls <- items0 ctrl_qubits ;;
  target <- item0 target_qubit ;;
  on_circ (fun c => Circuit.mcx c ctrls target).

Definition x (target_qubit : Register) : M unit :=
  q <- item0 target_qubit ;; on_circ (fun c => Circuit.x c q).

Definition logic_not (target_qubit : Register) : M unit :=
  q <- item0 target_qubit ;; on_circ (fun c => Circuit.x c q).

(** Lines 93-95. *)
Definition logic_and (operand_qubits : list Register) (target_qubit : Register) : M unit :=
  operands <- items0 operand_qubits ;;
  target <- item0 target_qubit ;;
  on_circ (fun c => Circuit.mcx c operands target).

(** Lines 97-103. *)
Definition logic_or (operand_qubits : list Register) (target_qubit : Register) : M unit :=
  operand_qubits <- items0 operand_qubits ;;
  on_circ (fun c => Circuit.x_each c operand_qubits) ;;
  (target <- item0 target_qubit ;;
   on_circ (fun c => Circuit.mcx c operand_qubits target)) ;;
  on_circ (fun c => Circuit.x_each c operand_qubits) ;;
  (target <- item0 target_qubit ;; on_circ (fun c => Circuit.x c target)).

(** A subclass of [GroverAlgorithm]: for each of the three hooks, the body
    it defines, or [None] when it leaves the base class's method in place. *)
Record Subclass : Type := mkSubclass {
  def_prepare : option (M unit);
  def_build_search_space : option (M unit);
  def_revert_search_space : option (M unit)
}.

(** The base class itself. *)
Definition base : Subclass := mkSubclass None None None.

(** Lines 66-67, 105-111, with method lookup through the subclass. *)
Definition prepare (cls : Subclass) : M unit :=
  match def_prepare cls with
  | Some body => body
  | None => raise NotImplementedError
  end.

Definition build_search_space (cls : Subclass) : M unit :=
  match def_build_search_space cls with
  | Some body => body
  | None => raise NotImplementedError
  end.

Definition revert_search_space (cls : Subclass) : M unit :=
  match def_revert_search_space cls with
  | Some body => body
  | None => raise NotImplementedError
  end.

(** Lines 42-53: the constructor; it returns the new instance. *)
Definition __init__ {P : Circuit.RegisterPolicy} (cls : Subclass) : result instance :=
  (let circ := Circuit.empty in
   let phase_ancilla := QuantumRegister 1 "phase_ancilla" in
   circ <- Circuit.add_register circ phase_ancilla ;;
   circ <- Circuit.h circ (getbit phase_ancilla 0) ;;
   let self := mkInstance circ phase_ancilla [] [] [] in
   r <- prepare cls self ;;
   Ok (snd r))%res.

(** Line 126: the list bound to [non_target_qubits] when every declared
    register has a first bit. *)
Definition non_target_qubits_of (self : instance) (target_qubit : Register) : list Bit :=
  map (fun qbit => getbit qbit 0)
    (filter (fun qbit => negb (Register_eqb qbit target_qubit)) (qubits self)).

(** Lines 113-140. *)
Definition build_all (cls : Subclass) (target_qubit : Register) (n_iterations : Z) : M unit :=
  for_in (range n_iterations) (fun i =>
    on_circ Circuit.barrier ;;
    build_search_space cls ;;
    on_circ Circuit.barrier ;;
    (pa <- attr phase_ancilla ;; cz target_qubit pa) ;;
    on_circ Circuit.barrier ;;
    revert_search_space cls ;;
    on_circ Circuit.barrier ;;
    non_target_qubits <-
      (qs <- attr qubits ;;
       items0 (filter (fun qbit => negb (Register_eqb qbit target_qubit)) qs)) ;;
    (qs <- attr qubits ;; for_in qs (fun qbit => x qbit)) ;;
    (pa <- attr phase_ancilla ;; z pa) ;;
    (qs <- attr qubits ;; pa <- attr phase_ancilla ;; mcx qs pa) ;;
    (pa <- attr phase_ancilla ;; z pa) ;;
    (qs <- attr qubits ;; for_in qs (fun qbit => x qbit))) ;;
  on_circ Circuit.barrier ;;
  build_search_space cls ;;
  on_circ Circuit.barrier ;;
  ns <- attr names ;;
  for_in (range (len ns)) (fun i =>
    fun self =>
      (q <- getitem (qubits self) i ;;
       c <- getitem (clbits self) i ;;
       on_circ (fun circ => Circuit.measure circ q c) self)%res).

(** Lines 142-148.  The backend (the Aer statevector simulator run for 1024
    shots, its result and [get_counts]) is not part of the source: [backend]
    stands for the map from the circuit to the counts it returns. *)
Definition simulate (backend : Circuit.t -> result (pydict Z)) : M DataFrame :=
  fun self =>
    (counts <- backend (circ self) ;;
     df <- organize_qiskit_result counts (names self) ;;
     Ok (df, self))%res.

End GroverAlgorithm.

(** ** A sample search problem

    Three registers [a], [b], [out]; the search space marks [out] with
    [a AND b]; the inverse undoes it. *)

Module Sample.
Import GroverAlgorithm.
Local Open Scope method_scope.

Definition a := QuantumRegister 1 "q_a".
Definition b := QuantumRegister 1 "q_b".
Definition out := QuantumRegister 1 "q_out".

Definition cls {P : Circuit.RegisterPolicy} : Subclass :=
  mkSubclass
    (Some (create_qubit "a" ;; create_qubit "b" ;; create_qubit "out" ;; ret tt))
    (Some (h a ;; h b ;; logic_and [a; b] out))
    (Some (logic_and [a; b] out ;; h b ;; h a)).

(** The gates its two hooks place. *)
Definition B : list Instruction :=
  [HGate (getbit a 0); HGate (getbit b 0);
   MCXGate [getbit a 0; getbit b 0] (getbit out 0)].

Definition R : list Instruction :=
  [MCXGate [getbit a 0; getbit b 0] (getbit out 0);
   HGate (getbit b 0); HGate (getbit a 0)].

(** The instance its constructor returns. *)
Definition ready : instance :=
  mkInstance
    (Circuit.mk
       [QuantumRegister 1 "phase_ancilla";
        a; ClassicalRegister 1 "c_a";
        b; ClassicalRegister 1 "c_b";
        out; ClassicalRegister 1 "c_out"]
       [HGate (getbit (QuantumRegister 1 "phase_ancilla") 0)])
    (QuantumRegister 1 "phase_ancilla")
    [a; b; out]
    [ClassicalRegister 1 "c_a"; ClassicalRegister 1 "c_b"; ClassicalRegister 1 "c_out"]
    ["a"; "b"; "out"].

(** A subclass whose [prepare] asks for the label [a] twice and that
    defines no other hook. *)
Definition twice {P : Circuit.RegisterPolicy} : Subclass :=
  mkSubclass (Some (create_qubit "a" ;; create_qubit "a" ;; ret tt)) None None.

(** A subclass with the sample's [prepare] and [build_search_space] that
    does not define [revert_search_space]. *)
Definition forward_only {P : Circuit.RegisterPolicy} : Subclass :=
  mkSubclass
    (Some (create_qubit "a" ;; create_qubit "b" ;; create_qubit "out" ;; ret tt))
    (Some (h a ;; h b ;; logic_and [a; b] out))
    None.

End Sample.

(** ** Subclasses written with the class's own methods

    A [prepare] that creates one register pair per label, and hooks that
    are sequences of calls of the gate helpers of lines 69-103. *)

Module Subclasses.
Import GroverAlgorithm.
Local Open Scope method_scope.

(** [for label in labels: self.create_qubit(label)] *)
Definition prepare_labels {P : Circuit.RegisterPolicy} (labels : list string) : M unit :=
  for_in labels (fun label => create_qubit label ;; ret tt).

(** One call of a helper, with its arguments. *)
Inductive HelperCall : Type :=
| call_h (target_qubit : Register)
| call_z (target_qubit : Register)
| call_cz (ctrl_qubit target_qubit : Register)
| call_mcx (ctrl_qubits : list Register) (target_qubit : Register)
| call_x (target_qubit : Register)
| call_logic_not (target_qubit : Register)
| call_logic_and (operand_qubits : list Register) (target_qubit : Register)
| call_logic_or (operand_qubits : list Register) (target_qubit : Register).

Definition run_call (c : HelperCall) : M unit :=
  match c with
  | call_h q => h q
  | call_z q => z q
  | call_cz c t => cz c t
  | call_mcx cs t => mcx cs t
  | call_x q => x q
  | call_logic_not q => logic_not q
  | call_logic_and ops t => logic_and ops t
  | call_logic_or ops t => logic_or ops t
  end.

(** A hook body: the calls one after the other. *)
Definition body (calls : list HelperCall) : M unit := for_in calls run_call.

(** The subclass that creates [labels] and whose two hooks make the calls
    [build] and [revert]. *)
Definition declared {P : Circuit.RegisterPolicy}
  (labels : list string) (build revert : list HelperCall) : Subclass :=
  mkSubclass (Some (prepare_labels labels)) (Some (body build)) (Some (body revert)).

End Subclasses.

(** ** Gates read as truth tables

    The action of a gate on a computational-basis state, that is, on an
    assignment of a Boolean to every qubit: X negates its qubit, a
    multi-controlled X negates its target when all controls are true, Z and
    controlled-Z change phases only.  H and measurement have no such reading. *)

Definition BasisState : Type := Bit -> bool.

Definition flip (s : BasisState) (q : Bit) : BasisState :=
  fun q' => if Bit_eqb q' q then negb (s q') else s q'.

Definition apply_gate (g : Instruction) (s : BasisState) : option BasisState :=
  match g with
  | XGate q => Some (flip s q)
  | MCXGate ctrls target => Some (if forallb s ctrls then flip s target else s)
  | ZGate _ | CZGate _ _ | Barrier => Some s
  | HGate _ | Measure _ _ => None
  end.

Fixpoint run_gates (gates : list Instruction) (s : BasisState) : option BasisState :=
  match gates with
  | [] => Some s
  | g :: rest =>
      match apply_gate g s with
      | Some s' => run_gates rest s'
      | None => None
      end
  end.

(** ** Vocabulary of the statements *)

(** The row the formatter is to produce for one outcome: the substrings of
    the key from last to first, then the frequency. *)
Definition expected_row (kf : string * Z) : list value :=
  map VStr (rev (split_space (fst kf))) ++ [VInt (snd kf)].

(** The frequency of a row, read from its last cell. *)
Definition row_freq (row : list value) : Z :=
  match last row (VInt 0) with
  | VInt z => z
  | VStr _ => 0
  end.

(** One more cell at the end of each of the first columns of a dict of
    columns, as many columns as there are cells. *)
Fixpoint snoc_cells (d : pydict (list value)) (cells : list value)
  : pydict (list value) :=
  match d, cells with
  | (c, l) :: d', v :: cells' => (c, l ++ [v]) :: snoc_cells d' cells'
  | _, _ => d
  end.

(** Every column has [n] entries. *)
Definition column_lengths (d : pydict (list value)) (n : nat) : Prop :=
  Forall (fun kv => length (snd kv) = n) d.

(** Keyed rows in decreasing order of their keys. *)
Definition key_desc {R : Type} (a b : Z * R) : Prop := fst b <= fst a.

(** The number of entries of the last column. *)
Definition last_len (d : pydict (list value)) : nat :=
  length (snd (last d (EmptyString, []))).

(** Line 34 once the two list lookups are done. *)
Definition append_cell (name_b : string * string) (out_dict : pydict (list value))
  : result (pydict (list value)) :=
  (column <- dict_getitem out_dict (fst name_b) ;;
   Ok (dict_setitem out_dict (fst name_b) (column ++ [VStr (snd name_b)])))%res.

(** Two assignments that give every qubit the same value. *)
Definition same_values (s1 s2 : Bit -> bool) : Prop := forall b, s1 b = s2 b.

(** The sum of a list of integers. *)
Definition total (l : list Z) : Z := fold_right Z.add 0 l.

Definition is_measure (g : Instruction) : bool :=
  match g with
  | Measure _ _ => true
  | _ => false
  end.

Module GroverGates.
Import GroverAlgorithm.

(** The instance after [gates] have been placed. *)
Definition place (gates : list Instruction) (self : instance) : instance :=
  mkInstance (Circuit.append (circ self) gates) (phase_ancilla self)
    (qubits self) (clbits self) (names self).

(** The method body that succeeds, places the instructions [gates] and does
    nothing else. *)
Definition emit (gates : list Instruction) : M unit :=
  fun self => Ok (tt, place gates self).

(** On the instance [self], whatever instructions have been placed on its
    circuit since, the hook succeeds and places the fixed sequence [gates]. *)
Definition emits (self : instance) (hook : M unit) (gates : list Instruction) : Prop :=
  forall placed, hook (place placed self) = emit gates (place placed self).

Definition bits (regs : list Register) : list Bit :=
  map (fun qbit => getbit qbit 0) regs.

(** The diffusion operator over the declared registers. *)
Definition diffusion_gates (self : instance) : list Instruction :=
  map XGate (bits (qubits self))
  ++ [ZGate (getbit (phase_ancilla self) 0);
      MCXGate (bits (qubits self)) (getbit (phase_ancilla self) 0);
      ZGate (getbit (phase_ancilla self) 0)]
  ++ map XGate (bits (qubits self)).

(** One Grover iteration: encoding, marking, inverse encoding, diffusion,
    with the barriers the source places between them. *)
Definition iteration_gates (B R : list Instruction) (target_qubit : Register)
  (self : instance) : list Instruction :=
  [Barrier] ++ B
  ++ [Barrier; CZGate (getbit target_qubit 0) (getbit (phase_ancilla self) 0); Barrier]
  ++ R ++ [Barrier]
  ++ diffusion_gates self.

(** One measurement per declared register into its paired classical register. *)
Definition measurement_gates (self : instance) : list Instruction :=
  map (fun qc => Measure (getbit (fst qc) 0) (getbit (snd qc) 0))
    (combine (qubits self) (clbits self)).

(** An instance whose registers all come from [create_qubit]: the register
    lists are the ones [create_qubit] builds for the labels in [names], the
    phase ancilla is the one the constructor makes, and nothing has been
    measured yet. *)
Definition allocated_by_create_qubit (self : instance) : Prop :=
  qubits self = map (fun l => QuantumRegister 1 ("q_" ++ l)%string) (names self)
  /\ clbits self = map (fun l => ClassicalRegister 1 ("c_" ++ l)%string) (names self)
  /\ phase_ancilla self = QuantumRegister 1 "phase_ancilla"
  /\ filter is_measure (Circuit.data (circ self)) = [].

(** The instructions one helper call places. *)
Definition gates_of_call (c : Subclasses.HelperCall) : list Instruction :=
  match c with
  | Subclasses.call_h q => [HGate (getbit q 0)]
  | Subclasses.call_z q => [ZGate (getbit q 0)]
  | Subclasses.call_cz c t => [CZGate (getbit c 0) (getbit t 0)]
  | Subclasses.call_mcx cs t => [MCXGate (bits cs) (getbit t 0)]
  | Subclasses.call_x q => [XGate (getbit q 0)]
  | Subclasses.call_logic_not q => [XGate (getbit q 0)]
  | Subclasses.call_logic_and ops t => [MCXGate (bits ops) (getbit t 0)]
  | Subclasses.call_logic_or ops t =>
      map XGate (bits ops) ++ [MCXGate (bits ops) (getbit t 0)]
      ++ map XGate (bits ops) ++ [XGate (getbit t 0)]
  end.

Definition gates_of (calls : list Subclasses.HelperCall) : list Instruction :=
  flat_map gates_of_call calls.

(** A call that has a truth table and whose wires are pairwise distinct:
    no Hadamard, a target that is none of its controls, operands of
    [logic_or] without repetition. *)
Definition classical_call (c : Subclasses.HelperCall) : Prop :=
  match c with
  | Subclasses.call_h _ => False
  | Subclasses.call_mcx cs t => ~ In t cs
  | Subclasses.call_logic_and ops t => ~ In t ops
  | Subclasses.call_logic_or ops t => NoDup ops /\ ~ In t ops
  | _ => True
  end.

(** The registers and instance [create_qubit] builds for a list of labels. *)
Definition qreg_of (label : string) : Register :=
  QuantumRegister 1 ("q_" ++ label)%string.

Definition creg_of (label : string) : Register :=
  ClassicalRegister 1 ("c_" ++ label)%string.

(** An instance as the constructor and [create_qubit] leave it: the register
    lists are the ones [create_qubit] builds for the labels in [names], no
    label was used twice, and the circuit holds the phase ancilla and the
    two registers of every label. *)
Definition well_formed (self : instance) : Prop :=
  allocated_by_create_qubit self
  /\ NoDup (names self)
  /\ Circuit.has_register (circ self) (phase_ancilla self) = true
  /\ (forall l, In l (names self) ->
        Circuit.has_register (circ self) (qreg_of l) = true
        /\ Circuit.has_register (circ self) (creg_of l) = true).

(** A pair of one-bit registers of the circuit, a quantum and a classical
    one: what line 140 measures. *)
Definition measurable (c : Circuit.t) (qreg creg : Register) : Prop :=
  reg_size qreg = 1%nat /\ reg_size creg = 1%nat
  /\ Circuit.has_qubit c (getbit qreg 0) = true
  /\ Circuit.has_clbit c (getbit creg 0) = true.

(** The circuit takes the call: the first bits of the registers named in it
    are qubits of the circuit, no two of them the same, and [mcx],
    [logic_and] and [logic_or] are given at least one control. *)
Definition accepted_call (c : Circuit.t) (call : Subclasses.HelperCall) : bool :=
  match call with
  | Subclasses.call_h q | Subclasses.call_z q
  | Subclasses.call_x q | Subclasses.call_logic_not q =>
      Circuit.check_qargs c [getbit q 0]
  | Subclasses.call_cz ctrl t => Circuit.check_qargs c [getbit ctrl 0; getbit t 0]
  | Subclasses.call_mcx cs t
  | Subclasses.call_logic_and cs t
  | Subclasses.call_logic_or cs t =>
      match cs with
      | [] => false
      | _ :: _ => Circuit.check_qargs c (bits cs ++ [getbit t 0])
      end
  end.

(** A call other than [h]. *)
Definition no_hadamard (call : Subclasses.HelperCall) : bool :=
  match call with
  | Subclasses.call_h _ => false
  | _ => true
  end.

End GroverGates.

(** * Proofs *)

(** ** Equality tests *)

Lemma Register_eqb_eq (a b : Register) : Register_eqb a b = true <-> a = b.
Proof.
  unfold Register_eqb. destruct a as [ka sa na], b as [kb sb nb]; simpl.
  rewrite !andb_true_iff, Nat.eqb_eq, String.eqb_eq. split.
  - intros [[Hk Hs] Hn]. destruct ka, kb; simpl in Hk; try discriminate; subst; reflexivity.
  - intros H. injection H as -> -> ->. destruct kb; auto.
Qed.

Lemma Register_eqb_refl (a : Register) : Register_eqb a a = true.
Proof. now apply Register_eqb_eq. Qed.

Lemma Bit_eqb_eq (a b : Bit) : Bit_eqb a b = true <-> a = b.
Proof.
  unfold Bit_eqb. destruct a as [ra ia], b as [rb ib]; simpl.
  rewrite andb_true_iff, Register_eqb_eq, Nat.eqb_eq. split.
  - intros [-> ->]. reflexivity.
  - intros H. injection H as -> ->. auto.
Qed.

Lemma Bit_eqb_neq (a b : Bit) : Bit_eqb a b = false <-> a <> b.
Proof.
  rewrite <- Bit_eqb_eq. destruct (Bit_eqb a b); split; congruence.
Qed.

Lemma getbit_inj (a b : Register) (i : nat) : getbit a i = getbit b i -> a = b.
Proof. unfold getbit. congruence. Qed.

(** ** The checks of the circuit library *)

Section CircuitChecks.
Import GroverAlgorithm GroverGates.

Lemma existsb_Bit_eqb (q : Bit) (qs : list Bit) :
  existsb (Bit_eqb q) qs = true <-> In q qs.
Proof.
  rewrite existsb_exists. split.
  - intros [y [Hin E]]. apply Bit_eqb_eq in E. now subst.
  - intros Hin. exists q. split; [assumption|now apply Bit_eqb_eq].
Qed.

Lemma distinct_NoDup (qs : list Bit) : Circuit.distinct qs = true <-> NoDup qs.
Proof.
  induction qs as [|q qs IH]; simpl.
  - split; [constructor|reflexivity].
  - rewrite andb_true_iff, negb_true_iff, IH. split.
    + intros [Hq Hnd]. constructor; [|assumption].
      intros Hin. apply existsb_Bit_eqb in Hin. congruence.
    + intros Hnd. inversion Hnd as [|? ? Hq Hnd']; subst. split; [|assumption].
      destruct (existsb (Bit_eqb q) qs) eqn:E; [|reflexivity].
      apply existsb_Bit_eqb in E. contradiction.
Qed.

Lemma check_qargs_iff (c : Circuit.t) (qs : list Bit) :
  Circuit.check_qargs c qs = true
  <-> (forall q, In q qs -> Circuit.has_qubit c q = true) /\ NoDup qs.
Proof.
  unfold Circuit.check_qargs.
  now rewrite andb_true_iff, forallb_forall, distinct_NoDup.
Qed.

Lemma NoDup_snoc {A : Type} (l : list A) (a : A) :
  NoDup (l ++ [a]) <-> NoDup l /\ ~ In a l.
Proof.
  split.
  - intros H. apply NoDup_remove in H. now rewrite app_nil_r in H.
  - intros [Hnd Hn]. apply (Permutation_NoDup (l := a :: l)).
    + apply Permutation_cons_append.
    + now constructor.
Qed.

(** The registers of a gate all have a first bit. *)
Lemma has_qubit_size (c : Circuit.t) (reg : Register) :
  Circuit.has_qubit c (getbit reg 0) = true -> reg_size reg <> 0%nat.
Proof.
  unfold Circuit.has_qubit. simpl. rewrite !andb_true_iff, Nat.ltb_lt. lia.
Qed.

Lemma item0_Ok (reg : Register) (self : instance) :
  reg_size reg <> 0%nat -> item0 reg self = Ok (getbit reg 0, self).
Proof.
  intros H. unfold item0. destruct (Nat.eqb_spec (reg_size reg) 0); [contradiction|reflexivity].
Qed.

Lemma item0_cases (reg : Register) (self : instance) :
  item0 reg self = Ok (getbit reg 0, self) \/ item0 reg self = Raise IndexError.
Proof. unfold item0. destruct (reg_size reg =? 0)%nat; auto. Qed.

Lemma items0_Ok (regs : list Register) (self : instance) :
  (forall r, In r regs -> reg_size r <> 0%nat) ->
  items0 regs self = Ok (bits regs, self).
Proof.
  induction regs as [|r regs IH]; intros H; simpl; [reflexivity|].
  unfold bindM. rewrite item0_Ok by (apply H; now left).
  rewrite IH by (intros; apply H; now right). reflexivity.
Qed.

Lemma items0_cases (regs : list Register) (self : instance) :
  items0 regs self = Ok (bits regs, self) \/ items0 regs self = Raise IndexError.
Proof.
  induction regs as [|r regs IH]; simpl; [now left|].
  unfold bindM. destruct (item0_cases r self) as [-> | ->]; [|now right].
  destruct IH as [-> | ->]; [now left|now right].
Qed.

End CircuitChecks.

(** ** Truth tables of the logic helpers *)

Section TruthTables.
Import GroverAlgorithm GroverGates.

Lemma run_gates_app (g1 g2 : list Instruction) (s : BasisState) :
  run_gates (g1 ++ g2) s =
  match run_gates g1 s with
  | Some s' => run_gates g2 s'
  | None => None
  end.
Proof.
  revert s. induction g1 as [|g g1 IH]; intros s; simpl; [reflexivity|].
  destruct (apply_gate g s); auto.
Qed.

Lemma run_gates_X (qs : list Bit) (s : BasisState) :
  run_gates (map XGate qs) s = Some (fold_left flip qs s).
Proof.
  revert s. induction qs as [|q qs IH]; intros s; simpl; auto.
Qed.

Lemma flip_all_outside (qs : list Bit) (s : BasisState) (b : Bit) :
  ~ In b qs -> fold_left flip qs s b = s b.
Proof.
  revert s. induction qs as [|q qs IH]; intros s Hn; simpl; [reflexivity|].
  rewrite IH by (intro; apply Hn; now right).
  unfold flip. destruct (Bit_eqb b q) eqn:E; [|reflexivity].
  apply Bit_eqb_eq in E. subst. exfalso. apply Hn. now left.
Qed.

Lemma flip_all_inside (qs : list Bit) (s : BasisState) (b : Bit) :
  NoDup qs -> In b qs -> fold_left flip qs s b = negb (s b).
Proof.
  revert s. induction qs as [|q qs IH]; intros s Hnd Hin; simpl; [destruct Hin|].
  inversion Hnd as [|? ? Hq Hnd']; subst.
  destruct Hin as [->|Hin].
  - rewrite flip_all_outside by assumption.
    unfold flip. now rewrite (proj2 (Bit_eqb_eq b b) eq_refl).
  - rewrite IH by assumption. unfold flip.
    destruct (Bit_eqb b q) eqn:E; [|reflexivity].
    apply Bit_eqb_eq in E. subst. contradiction.
Qed.

Lemma NoDup_bits (regs : list Register) : NoDup regs -> NoDup (bits regs).
Proof.
  intros H. unfold bits. apply Injective_map_NoDup; [|assumption].
  intros a b. apply getbit_inj.
Qed.

Lemma In_bits (regs : list Register) (r : Register) :
  In (getbit r 0) (bits regs) <-> In r regs.
Proof.
  unfold bits. rewrite in_map_iff. split.
  - intros [r' [E Hin]]. apply getbit_inj in E. now subst.
  - intros Hin. now exists r.
Qed.

Lemma forallb_flipped (qs : list Bit) (s s1 : BasisState) :
  (forall b, In b qs -> s1 b = negb (s b)) ->
  forallb s1 qs = negb (existsb s qs).
Proof.
  induction qs as [|q qs IH]; intros H; simpl; [reflexivity|].
  rewrite H by now left. rewrite IH by (intros; apply H; now right).
  now rewrite negb_orb.
Qed.

Lemma existsb_bits (regs : list Register) (s : BasisState) :
  existsb s (bits regs) = existsb (fun q => s (getbit q 0)) regs.
Proof. unfold bits. induction regs; simpl; congruence. Qed.

Lemma forallb_bits (regs : list Register) (s : BasisState) :
  forallb s (bits regs) = forallb (fun q => s (getbit q 0)) regs.
Proof. unfold bits. induction regs; simpl; congruence. Qed.

End TruthTables.

(** ** Placing gates on the circuit *)

Section PlacedGates.
Import GroverAlgorithm GroverGates.

Lemma emit_place (gates : list Instruction) (self : instance) :
  emit gates self = Ok (tt, place gates self).
Proof. reflexivity. Qed.

Lemma place_nil (self : instance) : place [] self = self.
Proof.
  destruct self as [[rs d] pa qs cs ns]. unfold place, Circuit.append; simpl.
  now rewrite app_nil_r.
Qed.

Lemma place_place (g1 g2 : list Instruction) (self : instance) :
  place g2 (place g1 self) = place (g1 ++ g2) self.
Proof.
  unfold place, Circuit.append; simpl. now rewrite app_assoc.
Qed.

(** Two bodies that place gates, one after the other. *)
Lemma emit_seq (m : M unit) (k : unit -> M unit) (g1 g2 : list Instruction)
  (self : instance) :
  m self = emit g1 self ->
  k tt (place g1 self) = emit g2 (place g1 self) ->
  bindM m k self = emit (g1 ++ g2) self.
Proof.
  intros Hm Hk. unfold bindM. rewrite Hm, emit_place, Hk, !emit_place, place_place.
  reflexivity.
Qed.

Lemma emits_here (self : instance) (hook : M unit) (gates : list Instruction) :
  emits self hook gates -> hook self = emit gates self.
Proof. intros H. specialize (H []). now rewrite place_nil in H. Qed.

Lemma gate_checked (c : Circuit.t) (g : Instruction) (qargs : list Bit) :
  Circuit.check_qargs c qargs = true ->
  Circuit.gate c g qargs = Ok (Circuit.append c [g]).
Proof. intros H. unfold Circuit.gate. now rewrite H. Qed.

Lemma gate_refused (c : Circuit.t) (g : Instruction) (qargs : list Bit) :
  Circuit.check_qargs c qargs = false ->
  Circuit.gate c g qargs = Raise CircuitError.
Proof. intros H. unfold Circuit.gate. now rewrite H. Qed.

Lemma checked_first (c : Circuit.t) (q : Register) (qs : list Bit) :
  Circuit.check_qargs c qs = true -> In (getbit q 0) qs -> reg_size q <> 0%nat.
Proof.
  intros Hc Hin. apply check_qargs_iff in Hc. apply (has_qubit_size c).
  now apply (proj1 Hc).
Qed.

Lemma h_emits (q : Register) (self : instance) :
  Circuit.check_qargs (circ self) [getbit q 0] = true ->
  h q self = emit [HGate (getbit q 0)] self.
Proof.
  intros H. unfold h, bindM.
  rewrite item0_Ok by (apply (checked_first _ _ _ H); now left).
  unfold on_circ, Circuit.h. now rewrite gate_checked.
Qed.

Lemma z_emits (q : Register) (self : instance) :
  Circuit.check_qargs (circ self) [getbit q 0] = true ->
  z q self = emit [ZGate (getbit q 0)] self.
Proof.
  intros H. unfold z, bindM.
  rewrite item0_Ok by (apply (checked_first _ _ _ H); now left).
  unfold on_circ, Circuit.z. now rewrite gate_checked.
Qed.

Lemma x_emits (q : Register) (self : instance) :
  Circuit.check_qargs (circ self) [getbit q 0] = true ->
  x q self = emit [XGate (getbit q 0)] self.
Proof.
  intros H. unfold x, bindM.
  rewrite item0_Ok by (apply (checked_first _ _ _ H); now left).
  unfold on_circ, Circuit.x. now rewrite gate_checked.
Qed.

Lemma cz_emits (ctrl target : Register) (self : instance) :
  Circuit.check_qargs (circ self) [getbit ctrl 0; getbit target 0] = true ->
  cz ctrl target self = emit [CZGate (getbit ctrl 0) (getbit target 0)] self.
Proof.
  intros H. unfold cz, bindM.
  rewrite item0_Ok by (apply (checked_first _ _ _ H); now left).
  rewrite item0_Ok by (apply (checked_first _ _ _ H); right; now left).
  unfold on_circ, Circuit.cz. now rewrite gate_checked.
Qed.

Lemma checked_controls (c : Circuit.t) (ctrls : list Register) (target : Register) :
  Circuit.check_qargs c (bits ctrls ++ [getbit target 0]) = true ->
  (forall r, In r ctrls -> reg_size r <> 0%nat) /\ reg_size target <> 0%nat.
Proof.
  intros H. split.
  - intros r Hr. apply (checked_first _ _ _ H). apply in_or_app. left. now apply In_bits.
  - apply (checked_first _ _ _ H). apply in_or_app. right. now left.
Qed.

Lemma mcx_emits (ctrls : list Register) (target : Register) (self : instance) :
  ctrls <> [] ->
  Circuit.check_qargs (circ self) (bits ctrls ++ [getbit target 0]) = true ->
  mcx ctrls target self = emit [MCXGate (bits ctrls) (getbit target 0)] self.
Proof.
  intros Hne H. destruct (checked_controls _ _ _ H) as [Hcs Ht].
  unfold mcx, bindM. rewrite items0_Ok by assumption. rewrite item0_Ok by assumption.
  unfold on_circ, Circuit.mcx.
  destruct ctrls as [|r ctrls]; [contradiction|].
  change (bits (r :: ctrls)) with (getbit r 0 :: bits ctrls) in *.
  now rewrite gate_checked.
Qed.

Lemma logic_and_emits (operands : list Register) (target : Register) (self : instance) :
  operands <> [] ->
  Circuit.check_qargs (circ self) (bits operands ++ [getbit target 0]) = true ->
  logic_and operands target self = emit [MCXGate (bits operands) (getbit target 0)] self.
Proof. apply mcx_emits. Qed.

Lemma x_each_checked (c : Circuit.t) (qs : list Bit) :
  qs <> [] -> (forall q, In q qs -> Circuit.has_qubit c q = true) ->
  Circuit.x_each c qs = Ok (Circuit.append c (map XGate qs)).
Proof.
  intros Hne H. unfold Circuit.x_each. destruct qs as [|q qs]; [contradiction|].
  now rewrite (proj2 (forallb_forall _ _) H).
Qed.

Lemma logic_or_emits (operands : list Register) (target : Register) (self : instance) :
  operands <> [] ->
  Circuit.check_qargs (circ self) (bits operands ++ [getbit target 0]) = true ->
  logic_or operands target self
  = emit (map XGate (bits operands) ++ [MCXGate (bits operands) (getbit target 0)]
          ++ map XGate (bits operands) ++ [XGate (getbit target 0)]) self.
Proof.
  intros Hne H. destruct (checked_controls _ _ _ H) as [Hcs Ht].
  pose proof (proj1 (check_qargs_iff _ _) H) as [Hall Hnd].
  assert (Hbits : bits operands <> []).
  { destruct operands; [contradiction|discriminate]. }
  assert (Hx : forall self',
            Circuit.regs (circ self') = Circuit.regs (circ self) ->
            on_circ (fun c => Circuit.x_each c (bits operands)) self'
            = emit (map XGate (bits operands)) self').
  { intros self' E. unfold on_circ. rewrite x_each_checked; [reflexivity|assumption|].
    intros q Hq. unfold Circuit.has_qubit, Circuit.has_register. rewrite E.
    apply Hall. apply in_or_app. now left. }
  unfold logic_or. unfold bindM at 1. rewrite items0_Ok by assumption.
  apply emit_seq; [now apply Hx|].
  apply emit_seq.
  { unfold bindM. rewrite item0_Ok by assumption. unfold on_circ, Circuit.mcx.
    destruct (bits operands) as [|q qs] eqn:E; [contradiction|].
    now rewrite gate_checked. }
  rewrite place_place.
  apply emit_seq; [now apply Hx|].
  rewrite place_place. unfold bindM. rewrite item0_Ok by assumption.
  unfold on_circ, Circuit.x. rewrite gate_checked; [reflexivity|].
  apply check_qargs_iff. split.
  - intros q [<-|[]]. apply (Hall (getbit target 0)). apply in_or_app. right. now left.
  - repeat constructor. intros [].
Qed.

End PlacedGates.

Section TruthTableTheorems.
Import GroverAlgorithm GroverGates.

(** The circuit's test of the qubits of [logic_and], [logic_or] and [mcx]. *)
Lemma operands_checked (operands : list Register) (target : Register)
  (self : instance) :
  NoDup operands ->
  ~ In target operands ->
  (forall q, In q (target :: operands) ->
     Circuit.has_qubit (circ self) (getbit q 0) = true) ->
  Circuit.check_qargs (circ self) (bits operands ++ [getbit target 0]) = true.
Proof.
  intros Hnd Hnot Hon. apply check_qargs_iff. split.
  - intros q Hq. apply in_app_or in Hq. destruct Hq as [Hq|[<-|[]]].
    + unfold bits in Hq. apply in_map_iff in Hq. destruct Hq as [r [<- Hr]].
      apply Hon. now right.
    + apply Hon. now left.
  - apply NoDup_snoc. split; [now apply NoDup_bits|now rewrite In_bits].
Qed.



End TruthTableTheorems.

(** ** The circuit assembled by build_all *)

Section GateLoops.
Import GroverAlgorithm GroverGates.

Lemma for_in_x (qs : list Register) (self : instance) :
  (forall q, In q qs -> Circuit.check_qargs (circ self) [getbit q 0] = true) ->
  for_in qs (fun qbit => x qbit) self = emit (map XGate (bits qs)) self.
Proof.
  revert self. induction qs as [|q qs IH]; intros self H; simpl.
  - now rewrite emit_place, place_nil.
  - apply (emit_seq _ _ [XGate (getbit q 0)]).
    + apply x_emits. apply H. now left.
    + apply IH. intros q' Hq'. exact (H q' (or_intror Hq')).
Qed.

Lemma getitem_nat {A : Type} (l : list A) (i : nat) (a : A) :
  nth_error l i = Some a -> getitem l (Z.of_nat i) = Ok a.
Proof.
  intros H. assert (Hlt : (i < length l)%nat) by (apply nth_error_Some; congruence).
  unfold getitem, len. cbv zeta.
  destruct (Z.ltb_spec (Z.of_nat i) 0) as [Hneg|Hpos]; [lia|].
  destruct (Z.ltb_spec (Z.of_nat i) 0) as [Hneg|_]; [lia|].
  destruct (Z.leb_spec (Z.of_nat (length l)) (Z.of_nat i)) as [Hge|_]; [lia|].
  simpl orb. cbv iota. now rewrite Nat2Z.id, H.
Qed.

Lemma getitem_out_of_range {A : Type} (l : list A) (i : nat) :
  (length l <= i)%nat -> getitem l (Z.of_nat i) = Raise IndexError.
Proof.
  intros H. unfold getitem, len. cbv zeta.
  destruct (Z.ltb_spec (Z.of_nat i) 0) as [Hneg|Hpos]; [lia|].
  destruct (Z.ltb_spec (Z.of_nat i) 0) as [Hneg|_]; [lia|].
  destruct (Z.leb_spec (Z.of_nat (length l)) (Z.of_nat i)) as [_|Hlt]; [|lia].
  reflexivity.
Qed.

Lemma skipn_nth_cons {A : Type} (l : list A) (a : nat) (x : A) :
  nth_error l a = Some x -> skipn a l = x :: skipn (S a) l.
Proof.
  revert a. induction l as [|y l IH]; intros [|a] E; simpl in *; try discriminate.
  - congruence.
  - now apply IH.
Qed.

Lemma nth_error_combine {A B : Type} (l : list A) (l' : list B) (i : nat) (a : A) (b : B) :
  nth_error l i = Some a -> nth_error l' i = Some b ->
  nth_error (combine l l') i = Some (a, b).
Proof.
  revert l' i. induction l as [|x l IH]; intros [|y l'] [|i] Ha Hb;
    simpl in *; try discriminate.
  - congruence.
  - now apply IH.
Qed.

(** Line 140 on a pair of one-bit registers of the circuit. *)
Lemma measure_one (c : Circuit.t) (qreg creg : Register) :
  measurable c qreg creg ->
  Circuit.measure c qreg creg
  = Ok (Circuit.append c [Measure (getbit qreg 0) (getbit creg 0)]).
Proof.
  intros (Hq & Hc & Hhq & Hhc). unfold Circuit.measure, Circuit.reg_bits.
  rewrite Hq, Hc. simpl. now rewrite Hhq, Hhc.
Qed.

(** The measurement loop, from position [a] on. *)
Lemma measure_loop (k a : nat) (self : instance) :
  (a + k <= length (qubits self))%nat ->
  (a + k <= length (clbits self))%nat ->
  (forall q c, In (q, c) (combine (qubits self) (clbits self)) ->
     measurable (circ self) q c) ->
  for_in (map Z.of_nat (seq a k))
    (fun i self =>
       (q <- getitem (qubits self) i ;;
        c <- getitem (clbits self) i ;;
        on_circ (fun circ => Circuit.measure circ q c) self)%res) self
  = emit (map (fun qc => Measure (getbit (fst qc) 0) (getbit (snd qc) 0))
            (combine (firstn k (skipn a (qubits self)))
                     (firstn k (skipn a (clbits self))))) self.
Proof.
  revert a self. induction k as [|k IH]; intros a self Hq Hc Hm.
  - simpl. now rewrite emit_place, place_nil.
  - destruct (nth_error (qubits self) a) as [q|] eqn:Eq;
      [|apply nth_error_None in Eq; lia].
    destruct (nth_error (clbits self) a) as [c|] eqn:Ec;
      [|apply nth_error_None in Ec; lia].
    rewrite (skipn_nth_cons _ _ _ Eq), (skipn_nth_cons _ _ _ Ec).
    simpl map. simpl for_in.
    apply (emit_seq _ _ [Measure (getbit q 0) (getbit c 0)]).
    + rewrite (getitem_nat _ _ _ Eq), (getitem_nat _ _ _ Ec). cbn [bind].
      unfold on_circ. rewrite measure_one; [reflexivity|].
      apply Hm. apply (nth_error_In _ a). now apply nth_error_combine.
    + apply (IH (S a) (place [Measure (getbit q 0) (getbit c 0)] self)).
      * simpl. lia.
      * simpl. lia.
      * exact Hm.
Qed.

Lemma length_range (n : Z) : length (range n) = Z.to_nat n.
Proof. unfold range. now rewrite length_map, length_seq. Qed.

(** Lines 139-140 on register lists in step with [names]. *)
Lemma measure_all (self : instance) :
  length (qubits self) = length (names self) ->
  length (clbits self) = length (names self) ->
  (forall q c, In (q, c) (combine (qubits self) (clbits self)) ->
     measurable (circ self) q c) ->
  for_in (range (len (names self)))
    (fun i self =>
       (q <- getitem (qubits self) i ;;
        c <- getitem (clbits self) i ;;
        on_circ (fun circ => Circuit.measure circ q c) self)%res) self
  = emit (measurement_gates self) self.
Proof.
  intros Hq Hc Hm. unfold range, len. rewrite Nat2Z.id.
  rewrite measure_loop by (simpl; lia || assumption).
  simpl skipn. rewrite <- Hq at 1. rewrite <- Hc. now rewrite !firstn_all.
Qed.

(** A loop whose body places the same gates at every turn. *)
Lemma for_in_const {A : Type} (body : M unit) (G : list Instruction) (self : instance) :
  emits self body G ->
  forall (l : list A) placed,
    for_in l (fun _ => body) (place placed self)
    = emit (concat (repeat G (length l))) (place placed self).
Proof.
  intros Hbody l. induction l as [|a l IH]; intros placed; simpl.
  - now rewrite emit_place, place_nil.
  - apply emit_seq; [apply Hbody|]. rewrite place_place. apply IH.
Qed.

End GateLoops.

Section BuildAll.
Import GroverAlgorithm GroverGates.

(** Reading an attribute of [self] before a call. *)
Ltac read_attr := unfold bindM, attr; cbv beta iota.

Variable cls : Subclass.
Variables B R : list Instruction.
Variable target : Register.
Variable self : instance.
Hypothesis build_emits : emits self (build_search_space cls) B.
Hypothesis revert_emits : emits self (revert_search_space cls) R.
Hypothesis gates_checked :
  Circuit.check_qargs (circ self)
    (bits (qubits self) ++ [getbit (phase_ancilla self) 0]) = true.
Hypothesis target_declared : In target (qubits self).

Lemma declared_checked (q : Register) :
  In q (qubits self) -> Circuit.check_qargs (circ self) [getbit q 0] = true.
Proof.
  intros Hq. apply check_qargs_iff in gates_checked. destruct gates_checked as [Hall _].
  apply check_qargs_iff. split.
  - intros b [<-|[]]. apply Hall. apply in_or_app. left. now apply In_bits.
  - repeat constructor. intros [].
Qed.

Lemma ancilla_checked :
  Circuit.check_qargs (circ self) [getbit (phase_ancilla self) 0] = true.
Proof.
  apply check_qargs_iff in gates_checked. destruct gates_checked as [Hall _].
  apply check_qargs_iff. split.
  - intros b [<-|[]]. apply Hall. apply in_or_app. right. now left.
  - repeat constructor. intros [].
Qed.

Lemma marking_checked :
  Circuit.check_qargs (circ self)
    [getbit target 0; getbit (phase_ancilla self) 0] = true.
Proof.
  apply check_qargs_iff in gates_checked. destruct gates_checked as [Hall Hnd].
  apply NoDup_snoc in Hnd. destruct Hnd as [Hnd Hpa].
  apply check_qargs_iff. split.
  - intros b [<-|[<-|[]]]; apply Hall; apply in_or_app.
    + left. now apply In_bits.
    + right. now left.
  - constructor; [|repeat constructor; intros []].
    intros [E|[]]. apply Hpa. rewrite E. now apply In_bits.
Qed.

Lemma bindM_value {X Y : Type} (m : M X) (k : X -> M Y) (a : X) (st : instance) :
  m st = Ok (a, st) -> bindM m k st = k a st.
Proof. intros H. unfold bindM. now rewrite H. Qed.

(** One turn of the loop of lines 115-133. *)
Lemma iteration_emits :
  emits self
    (on_circ Circuit.barrier ;;
     build_search_space cls ;;
     on_circ Circuit.barrier ;;
     (pa <- attr phase_ancilla ;; cz target pa) ;;
     on_circ Circuit.barrier ;;
     revert_search_space cls ;;
     on_circ Circuit.barrier ;;
     non_target_qubits <-
       (qs <- attr qubits ;;
        items0 (filter (fun qbit => negb (Register_eqb qbit target)) qs)) ;;
     (qs <- attr qubits ;; for_in qs (fun qbit => x qbit)) ;;
     (pa <- attr phase_ancilla ;; z pa) ;;
     (qs <- attr qubits ;; pa <- attr phase_ancilla ;; mcx qs pa) ;;
     (pa <- attr phase_ancilla ;; z pa) ;;
     (qs <- attr qubits ;; for_in qs (fun qbit => x qbit)))%method
    (iteration_gates B R target self).
Proof.
  intros placed.
  assert (Hne : qubits self <> []).
  { intros E. rewrite E in target_declared. destruct target_declared. }
  change (iteration_gates B R target self)
    with ([Barrier] ++ B ++ [Barrier]
          ++ [CZGate (getbit target 0) (getbit (phase_ancilla self) 0)]
          ++ [Barrier] ++ R ++ [Barrier]
          ++ map XGate (bits (qubits self))
          ++ [ZGate (getbit (phase_ancilla self) 0)]
          ++ [MCXGate (bits (qubits self)) (getbit (phase_ancilla self) 0)]
          ++ [ZGate (getbit (phase_ancilla self) 0)]
          ++ map XGate (bits (qubits self))).
  apply emit_seq; [reflexivity|]. rewrite place_place.
  apply emit_seq; [apply build_emits|]. rewrite place_place.
  apply emit_seq; [reflexivity|]. rewrite place_place.
  apply emit_seq; [read_attr; apply cz_emits; exact marking_checked|].
  rewrite place_place.
  apply emit_seq; [reflexivity|]. rewrite place_place.
  apply emit_seq; [apply revert_emits|]. rewrite place_place.
  apply emit_seq; [reflexivity|]. rewrite place_place.
  rewrite (bindM_value _ _ (non_target_qubits_of self target)).
  2:{ read_attr. unfold non_target_qubits_of. apply items0_Ok.
      intros r Hr. apply filter_In in Hr.
      exact (checked_first _ _ _ (declared_checked r (proj1 Hr)) (or_introl eq_refl)). }
  apply emit_seq; [read_attr; apply for_in_x; exact declared_checked|].
  rewrite place_place.
  apply emit_seq; [read_attr; apply z_emits; exact ancilla_checked|].
  rewrite place_place.
  apply emit_seq;
    [read_attr; apply mcx_emits; [exact Hne|exact gates_checked]|].
  rewrite place_place.
  apply emit_seq; [read_attr; apply z_emits; exact ancilla_checked|].
  rewrite place_place.
  read_attr. apply for_in_x. exact declared_checked.
Qed.

(** Lines 135-140. *)
Lemma closing_emits (placed : list Instruction) :
  length (qubits self) = length (names self) ->
  length (clbits self) = length (names self) ->
  (forall q c, In (q, c) (combine (qubits self) (clbits self)) ->
     measurable (circ self) q c) ->
  (on_circ Circuit.barrier ;;
   build_search_space cls ;;
   on_circ Circuit.barrier ;;
   ns <- attr names ;;
   for_in (range (len ns)) (fun i =>
     fun self =>
       (q <- getitem (qubits self) i ;;
        c <- getitem (clbits self) i ;;
        on_circ (fun circ => Circuit.measure circ q c) self)%res))%method
    (place placed self)
  = emit ([Barrier] ++ B ++ [Barrier] ++ measurement_gates self) (place placed self).
Proof.
  intros Hq Hc Hm.
  apply emit_seq; [reflexivity|]. rewrite place_place.
  apply emit_seq; [apply build_emits|]. rewrite place_place.
  apply emit_seq; [reflexivity|]. rewrite place_place.
  read_attr. exact (measure_all (place _ self) Hq Hc Hm).
Qed.

End BuildAll.

Section BuildAllClosedForm.
Import GroverAlgorithm GroverGates.

(** The whole of [build_all], as one list of placed instructions. *)
Lemma build_all_emits (cls : Subclass) (B R : list Instruction)
  (target : Register) (n : Z) (self : instance) :
  emits self (build_search_space cls) B ->
  emits self (revert_search_space cls) R ->
  Circuit.check_qargs (circ self)
    (bits (qubits self) ++ [getbit (phase_ancilla self) 0]) = true ->
  In target (qubits self) ->
  length (qubits self) = length (names self) ->
  length (clbits self) = length (names self) ->
  (forall q c, In (q, c) (combine (qubits self) (clbits self)) ->
     measurable (circ self) q c) ->
  build_all cls target n self
  = emit (concat (repeat (iteration_gates B R target self) (Z.to_nat n))
          ++ [Barrier] ++ B ++ [Barrier] ++ measurement_gates self) self.
Proof.
  intros HB HR Hg Ht Hq Hc Hm. unfold build_all.
  apply emit_seq.
  - rewrite <- (length_range n).
    pose proof (for_in_const (A := Z) _ _ self
                  (iteration_emits cls B R target self HB HR Hg Ht) (range n) []) as H.
    rewrite place_nil in H. exact H.
  - apply (closing_emits cls B self HB); assumption.
Qed.

(** [build_all] with no iteration needs the first hook only. *)
Lemma build_all_without_loop (cls : Subclass) (B : list Instruction)
  (target : Register) (n : Z) (self : instance) :
  n <= 0 ->
  emits self (build_search_space cls) B ->
  length (qubits self) = length (names self) ->
  length (clbits self) = length (names self) ->
  (forall q c, In (q, c) (combine (qubits self) (clbits self)) ->
     measurable (circ self) q c) ->
  build_all cls target n self
  = emit ([Barrier] ++ B ++ [Barrier] ++ measurement_gates self) self.
Proof.
  intros Hn HB Hq Hc Hm. unfold build_all, range at 1.
  replace (Z.to_nat n) with 0%nat by lia. simpl seq. simpl map. simpl for_in.
  unfold bindM at 1, ret. cbv beta iota.
  pose proof (closing_emits cls B self HB [] Hq Hc Hm) as H.
  rewrite place_nil in H. exact H.
Qed.

Lemma qreg_of_inj (l l' : string) : qreg_of l = qreg_of l' -> l = l'.
Proof. unfold qreg_of, QuantumRegister. simpl. intros E. now injection E. Qed.

Lemma allocated_lengths (self : instance) :
  allocated_by_create_qubit self ->
  length (qubits self) = length (names self)
  /\ length (clbits self) = length (names self).
Proof.
  intros (Hq & Hc & _). rewrite Hq, Hc, !length_map. auto.
Qed.

Lemma allocated_not_ancilla (self : instance) (q : Register) :
  allocated_by_create_qubit self -> In q (qubits self) -> q <> phase_ancilla self.
Proof.
  intros (Hq & _ & Hpa & _) Hin. rewrite Hq in Hin. rewrite Hpa.
  apply in_map_iff in Hin. destruct Hin as [l [<- _]]. discriminate.
Qed.

Lemma combine_map_In {A B C : Type} (f : A -> B) (g : A -> C) (l : list A) (b : B) (c : C) :
  In (b, c) (combine (map f l) (map g l)) -> exists a, In a l /\ b = f a /\ c = g a.
Proof.
  induction l as [|a l IH]; simpl; [intros []|].
  intros [E|Hin].
  - injection E as <- <-. exists a. auto.
  - destruct (IH Hin) as [a' [Ha' E]]. exists a'. auto.
Qed.

Lemma has_qubit_one (c : Circuit.t) (name : string) :
  Circuit.has_register c (QuantumRegister 1 name) = true ->
  Circuit.has_qubit c (getbit (QuantumRegister 1 name) 0) = true.
Proof.
  intros H. unfold Circuit.has_qubit, getbit. cbn [fst snd]. now rewrite H.
Qed.

Lemma has_clbit_one (c : Circuit.t) (name : string) :
  Circuit.has_register c (ClassicalRegister 1 name) = true ->
  Circuit.has_clbit c (getbit (ClassicalRegister 1 name) 0) = true.
Proof.
  intros H. unfold Circuit.has_clbit, getbit. cbn [fst snd]. now rewrite H.
Qed.

(** What a well-formed instance gives the gates of [build_all]. *)
Lemma well_formed_gates (self : instance) :
  well_formed self ->
  Circuit.check_qargs (circ self)
    (bits (qubits self) ++ [getbit (phase_ancilla self) 0]) = true.
Proof.
  intros (Halloc & Hnd & Hpa & Hreg).
  pose proof Halloc as (Hq & Hc & Hpa' & _).
  apply check_qargs_iff. split.
  - intros q Hin. apply in_app_or in Hin. destruct Hin as [Hin|[<-|[]]].
    + unfold bits in Hin. rewrite Hq, map_map in Hin. apply in_map_iff in Hin.
      destruct Hin as [l [<- Hl]]. destruct (Hreg l Hl) as [Hql _].
      now apply has_qubit_one.
    + rewrite Hpa' in *. now apply has_qubit_one.
  - apply NoDup_snoc. split.
    + apply NoDup_bits. rewrite Hq. apply Injective_map_NoDup; [|assumption].
      intros l l'. apply qreg_of_inj.
    + rewrite In_bits. intros Hin. now apply (allocated_not_ancilla self _ Halloc Hin).
Qed.

Lemma well_formed_measurable (self : instance) :
  well_formed self ->
  forall q c, In (q, c) (combine (qubits self) (clbits self)) ->
    measurable (circ self) q c.
Proof.
  intros (Halloc & Hnd & Hpa & Hreg) q c Hin.
  destruct Halloc as (Hq & Hc & _). rewrite Hq, Hc in Hin.
  apply combine_map_In in Hin. destruct Hin as [l [Hl [-> ->]]].
  destruct (Hreg l Hl) as [Hql Hcl].
  repeat split; [now apply has_qubit_one|now apply has_clbit_one].
Qed.

(** [build_all] on a well-formed instance and a declared target. *)
Lemma build_all_well_formed (cls : Subclass) (B R : list Instruction)
  (target : Register) (n : Z) (self : instance) :
  well_formed self ->
  In target (qubits self) ->
  emits self (build_search_space cls) B ->
  emits self (revert_search_space cls) R ->
  build_all cls target n self
  = emit (concat (repeat (iteration_gates B R target self) (Z.to_nat n))
          ++ [Barrier] ++ B ++ [Barrier] ++ measurement_gates self) self.
Proof.
  intros Hwf Ht HB HR.
  destruct (allocated_lengths self (proj1 Hwf)) as [Hq Hc].
  apply build_all_emits; try assumption.
  - now apply well_formed_gates.
  - now apply well_formed_measurable.
Qed.

End BuildAllClosedForm.

(** ** Registers, measurements and the phase ancilla *)

Section Allocation.
Import GroverAlgorithm GroverGates.

Lemma filter_measure_repeat (g : list Instruction) (k : nat) :
  filter is_measure g = [] -> filter is_measure (concat (repeat g k)) = [].
Proof.
  intros H. induction k as [|k IH]; simpl; [reflexivity|].
  now rewrite filter_app, H, IH.
Qed.

Lemma filter_measure_X (qs : list Bit) : filter is_measure (map XGate qs) = [].
Proof. induction qs; simpl; auto. Qed.

Lemma filter_measure_measurements (self : instance) :
  filter is_measure (measurement_gates self) = measurement_gates self.
Proof.
  unfold measurement_gates.
  induction (combine (qubits self) (clbits self)) as [|qc l IH]; simpl; congruence.
Qed.

Lemma filter_measure_iteration (B R : list Instruction) (target : Register)
  (self : instance) :
  filter is_measure B = [] -> filter is_measure R = [] ->
  filter is_measure (iteration_gates B R target self) = [].
Proof.
  intros HB HR. unfold iteration_gates, diffusion_gates.
  repeat (rewrite filter_app; simpl).
  now rewrite HB, HR, !filter_measure_X.
Qed.

(** X1.  [create_qubit] keeps the register lists in step with [names]: after
    a successful call, the qubit and classical registers are still the ones
    built for the labels in [names], position by position. *)
Lemma create_qubit_allocated {P : Circuit.RegisterPolicy}
  (label : string) (self self' : instance) (r : Register) :
  allocated_by_create_qubit self ->
  create_qubit label self = Ok (r, self') ->
  allocated_by_create_qubit self'.
Proof.
  intros (Hq & Hc & Hpa & Hm). unfold create_qubit, Circuit.add_register.
  destruct (Circuit.accepts (circ self) _); simpl; [|discriminate].
  destruct (Circuit.accepts _ _); simpl; [|discriminate].
  intros E. injection E as <- <-. unfold allocated_by_create_qubit; simpl.
  rewrite !map_app, Hq, Hc. simpl. auto.
Qed.

Lemma emit_allocated (gates : list Instruction) (self : instance) :
  filter is_measure gates = [] ->
  allocated_by_create_qubit self ->
  allocated_by_create_qubit (place gates self).
Proof.
  intros Hg (Hq & Hc & Hpa & Hm). unfold allocated_by_create_qubit, place; simpl.
  rewrite filter_app, Hm, Hg. auto.
Qed.

(** The constructor hands [prepare] an instance with no register but the
    phase ancilla. *)
Lemma init_allocated {P : Circuit.RegisterPolicy} (cls : Subclass) (self : instance) :
  (forall s s', allocated_by_create_qubit s -> prepare cls s = Ok (tt, s') ->
                allocated_by_create_qubit s') ->
  __init__ cls = Ok self ->
  allocated_by_create_qubit self.
Proof.
  intros Hprep. unfold __init__, Circuit.add_register.
  destruct (Circuit.accepts _ _); cbn [bind]; [|discriminate].
  destruct (Circuit.h _ _) as [c|e] eqn:Eh; cbn [bind]; [|discriminate].
  destruct (prepare cls _) as [[[] s']|e] eqn:E; cbn [bind]; [|discriminate].
  intros H. injection H as <-. eapply Hprep; [|exact E].
  vm_compute in Eh. injection Eh as <-. repeat split.
Qed.

(** A fourth label on the sample instance. *)
Lemma create_qubit_allocated_witness :
  allocated_by_create_qubit
    (mkInstance
       (Circuit.mk (Circuit.regs (circ Sample.ready)
                    ++ [QuantumRegister 1 "q_d"; ClassicalRegister 1 "c_d"])
          (Circuit.data (circ Sample.ready)))
       (phase_ancilla Sample.ready)
       (qubits Sample.ready ++ [QuantumRegister 1 "q_d"])
       (clbits Sample.ready ++ [ClassicalRegister 1 "c_d"])
       (names Sample.ready ++ ["d"])).
Proof.
  apply (create_qubit_allocated (P := Circuit.fresh_names_only) "d" Sample.ready _
           (QuantumRegister 1 "q_d")).
  - repeat split.
  - reflexivity.
Defined.

Lemma In_measurement_gates (self : instance) (q c : Bit) :
  In (Measure q c) (measurement_gates self) ->
  exists r, In r (qubits self) /\ q = getbit r 0.
Proof.
  unfold measurement_gates. rewrite in_map_iff.
  intros [[q' c'] [E Hin]]. simpl in E. injection E as <- <-.
  exists q'. split; [|reflexivity]. now apply in_combine_l in Hin.
Qed.

Lemma In_filter_measure (g : Instruction) (l : list Instruction) :
  is_measure g = true -> In g l -> In g (filter is_measure l).
Proof. intros Hg Hin. apply filter_In. auto. Qed.

End Allocation.

(** ** The sample problem's hooks are gate sequences *)

Section SampleFacts.
Import GroverAlgorithm GroverGates.
Context {P : Circuit.RegisterPolicy}.

Lemma sample_build_emits : emits Sample.ready (build_search_space Sample.cls) Sample.B.
Proof.
  intros placed. unfold build_search_space, Sample.cls. cbn [def_build_search_space].
  change Sample.B
    with ([HGate (getbit Sample.a 0)] ++ [HGate (getbit Sample.b 0)]
          ++ [MCXGate (bits [Sample.a; Sample.b]) (getbit Sample.out 0)]).
  apply emit_seq; [apply h_emits; reflexivity|]. rewrite place_place.
  apply emit_seq; [apply h_emits; reflexivity|]. rewrite place_place.
  apply logic_and_emits; [discriminate|reflexivity].
Qed.

Lemma sample_revert_emits : emits Sample.ready (revert_search_space Sample.cls) Sample.R.
Proof.
  intros placed. unfold revert_search_space, Sample.cls. cbn [def_revert_search_space].
  change Sample.R
    with ([MCXGate (bits [Sample.a; Sample.b]) (getbit Sample.out 0)]
          ++ [HGate (getbit Sample.b 0)] ++ [HGate (getbit Sample.a 0)]).
  apply emit_seq; [apply logic_and_emits; [discriminate|reflexivity]|].
  rewrite place_place.
  apply emit_seq; [apply h_emits; reflexivity|]. rewrite place_place.
  apply h_emits; reflexivity.
Qed.

Lemma sample_forward_only_emits :
  emits Sample.ready (build_search_space Sample.forward_only) Sample.B.
Proof. exact sample_build_emits. Qed.

End SampleFacts.

Section SampleRuns.
Import GroverAlgorithm GroverGates.

Lemma sample_init_fresh :
  __init__ (P := Circuit.fresh_names_only) (Sample.cls (P := Circuit.fresh_names_only))
  = Ok Sample.ready.
Proof. reflexivity. Qed.

Lemma sample_init_any :
  __init__ (P := Circuit.accept_all) (Sample.cls (P := Circuit.accept_all))
  = Ok Sample.ready.
Proof. reflexivity. Qed.

Lemma sample_ready_allocated : allocated_by_create_qubit Sample.ready.
Proof. repeat split. Defined.

Lemma sample_ready_well_formed : well_formed Sample.ready.
Proof.
  split; [exact sample_ready_allocated|]. split; [|split].
  - repeat constructor; simpl; intuition discriminate.
  - reflexivity.
  - intros l [<-|[<-|[<-|[]]]]; split; reflexivity.
Defined.

Lemma sample_out_declared : In Sample.out (qubits Sample.ready).
Proof. right. right. left. reflexivity. Defined.

End SampleRuns.

(** ** Claims about build_all *)

Section BuildAllTheorems.
Import GroverAlgorithm GroverGates.

(** C1.  On a well-formed instance (one whose registers the constructor and
    [create_qubit] made), for a target among the declared registers and a
    search problem whose two hooks place the gate sequences [B] and [R],
    [build_all target n] succeeds and places, [n] times over ([Z.to_nat n]
    is [n] for [n >= 0]), the encoding [B], the controlled-Z between the
    target and the phase ancilla, the inverse encoding [R] and the diffusion
    operator, in this order and separated by barriers; after the last
    iteration it places [B] once more and then the measurements.  With
    [n = 0] only the encoding and the measurements are placed. *)
Theorem build_all_sequence
  (cls : Subclass) (B R : list Instruction) (target : Register) (n : Z)
  (self : instance) :
  well_formed self ->
  In target (qubits self) ->
  emits self (build_search_space cls) B ->
  emits self (revert_search_space cls) R ->
  build_all cls target n self
  = Ok (tt, place (concat (repeat
                             ([Barrier] ++ B
                              ++ [Barrier;
                                  CZGate (getbit target 0) (getbit (phase_ancilla self) 0);
                                  Barrier]
                              ++ R ++ [Barrier]
                              ++ diffusion_gates self)
                             (Z.to_nat n))
                   ++ [Barrier] ++ B ++ [Barrier] ++ measurement_gates self) self)
  /\ build_all cls target 0 self
     = Ok (tt, place ([Barrier] ++ B ++ [Barrier] ++ measurement_gates self) self).
Proof.
  intros Hwf Ht HB HR. split.
  - apply (build_all_well_formed cls B R target n self Hwf Ht HB HR).
  - apply (build_all_well_formed cls B R target 0 self Hwf Ht HB HR).
Qed.

(** C2.  On a well-formed instance on which nothing has been measured, with
    [k] registers made by [create_qubit], for a declared target and hooks
    that place no measurement, [build_all] succeeds and the circuit it
    assembles holds exactly [k] measurements: the i-th measures the qubit of
    the i-th declared register into the bit of its paired classical
    register.  No measurement reads the phase ancilla. *)
Theorem build_all_measurements
  (cls : Subclass) (B R : list Instruction) (target : Register) (n : Z)
  (self : instance) :
  well_formed self ->
  In target (qubits self) ->
  emits self (build_search_space cls) B ->
  emits self (revert_search_space cls) R ->
  filter is_measure B = [] ->
  filter is_measure R = [] ->
  exists self',
    build_all cls target n self = Ok (tt, self')
    /\ filter is_measure (Circuit.data (circ self'))
       = map (fun qc => Measure (getbit (fst qc) 0) (getbit (snd qc) 0))
           (combine (qubits self) (clbits self))
    /\ length (filter is_measure (Circuit.data (circ self'))) = length (qubits self)
    /\ (forall i q, nth_error (qubits self) i = Some q ->
          exists c, nth_error (clbits self) i = Some c
                    /\ nth_error (filter is_measure (Circuit.data (circ self'))) i
                       = Some (Measure (getbit q 0) (getbit c 0)))
    /\ (forall q c, In (Measure q c) (Circuit.data (circ self')) ->
          fst q <> phase_ancilla self').
Proof.
  intros Hwf Ht HB HR HmB HmR.
  pose proof (proj1 Hwf) as Halloc.
  destruct (allocated_lengths self Halloc) as [Hq Hc].
  rewrite (build_all_well_formed cls B R target n self Hwf Ht HB HR), emit_place.
  eexists. split; [reflexivity|].
  assert (Hfilter :
    filter is_measure (Circuit.data (circ (place
      (concat (repeat (iteration_gates B R target self) (Z.to_nat n))
       ++ [Barrier] ++ B ++ [Barrier] ++ measurement_gates self) self)))
    = measurement_gates self).
  { destruct Halloc as (_ & _ & _ & Hm). simpl.
    repeat (rewrite filter_app; simpl).
    rewrite Hm, HmB, filter_measure_repeat
      by now apply filter_measure_iteration.
    simpl. apply filter_measure_measurements. }
  rewrite Hfilter. fold (measurement_gates self).
  split; [reflexivity|]. split; [|split].
  - unfold measurement_gates. rewrite length_map, length_combine. lia.
  - intros i q Hi.
    destruct (nth_error (clbits self) i) as [c|] eqn:Ec.
    + exists c. split; [reflexivity|]. unfold measurement_gates.
      rewrite nth_error_map. now rewrite (nth_error_combine _ _ _ _ _ Hi Ec).
    + apply nth_error_None in Ec.
      assert (i < length (qubits self))%nat by (apply nth_error_Some; congruence).
      lia.
  - intros q c Hin.
    apply (In_filter_measure (Measure q c)) in Hin; [|reflexivity].
    rewrite Hfilter in Hin. apply In_measurement_gates in Hin.
    destruct Hin as [r [Hr ->]].
    change (r <> phase_ancilla self). now apply allocated_not_ancilla.
Qed.

(** C3 (as the code has it).  On a well-formed instance with a declared
    target, the list bound to [non_target_qubits] leaves out the target
    register, but no gate of [build_all] is taken from it: the circuit
    depends on the target through the controlled-Z alone, and with at least
    one iteration the circuit holds the X gates of the diffusion step on
    every declared register, the target included.  The target is measured
    like the others. *)
Theorem diffusion_flips_every_register
  (cls : Subclass) (B R : list Instruction) (target : Register) (n : Z)
  (self : instance) :
  well_formed self ->
  In target (qubits self) ->
  emits self (build_search_space cls) B ->
  emits self (revert_search_space cls) R ->
  ~ In (getbit target 0) (non_target_qubits_of self target)
  /\ exists self',
       build_all cls target n self = Ok (tt, self')
       /\ Circuit.data (circ self')
          = Circuit.data (circ self)
            ++ concat (repeat
                         ([Barrier] ++ B
                          ++ [Barrier;
                              CZGate (getbit target 0) (getbit (phase_ancilla self) 0);
                              Barrier]
                          ++ R ++ [Barrier]
                          ++ map XGate (bits (qubits self))
                          ++ [ZGate (getbit (phase_ancilla self) 0);
                              MCXGate (bits (qubits self)) (getbit (phase_ancilla self) 0);
                              ZGate (getbit (phase_ancilla self) 0)]
                          ++ map XGate (bits (qubits self)))
                         (Z.to_nat n))
            ++ [Barrier] ++ B ++ [Barrier] ++ measurement_gates self
       /\ (0 < n -> forall q, In q (qubits self) ->
             In (XGate (getbit q 0)) (Circuit.data (circ self')))
       /\ (0 < n -> In (XGate (getbit target 0)) (Circuit.data (circ self')))
       /\ exists c, In (Measure (getbit target 0) c) (Circuit.data (circ self')).
Proof.
  intros Hwf Ht HB HR.
  destruct (allocated_lengths self (proj1 Hwf)) as [Hq Hc].
  split.
  { unfold non_target_qubits_of. fold (bits (filter
      (fun qbit => negb (Register_eqb qbit target)) (qubits self))).
    rewrite In_bits, filter_In. intros [_ H].
    now rewrite Register_eqb_refl in H. }
  rewrite (build_all_well_formed cls B R target n self Hwf Ht HB HR), emit_place.
  eexists. split; [reflexivity|]. split; [reflexivity|].
  assert (Hall : 0 < n -> forall q, In q (qubits self) ->
            In (XGate (getbit q 0))
              (Circuit.data (circ (place
                 (concat (repeat (iteration_gates B R target self) (Z.to_nat n))
                  ++ [Barrier] ++ B ++ [Barrier] ++ measurement_gates self) self)))).
  { intros Hn q Hin.
    assert (HX : In (XGate (getbit q 0)) (map XGate (bits (qubits self)))).
    { apply in_map. now apply In_bits. }
    destruct (Z.to_nat n) as [|k] eqn:E; [lia|].
    cbn [circ place Circuit.data Circuit.append repeat concat].
    unfold iteration_gates, diffusion_gates.
    repeat (rewrite !in_app_iff || cbn [In]). tauto. }
  split; [exact Hall|]. split; [intros Hn; now apply Hall|].
  apply In_nth_error in Ht. destruct Ht as [i Hi].
  destruct (nth_error (clbits self) i) as [c|] eqn:Ec.
  - exists (getbit c 0). cbn [circ place Circuit.data Circuit.append].
    rewrite !in_app_iff. do 5 right.
    unfold measurement_gates. apply in_map_iff. exists (target, c).
    split; [reflexivity|]. apply (nth_error_In _ i). now apply nth_error_combine.
  - apply nth_error_None in Ec.
    assert (i < length (qubits self))%nat by (apply nth_error_Some; congruence).
    lia.
Qed.

End BuildAllTheorems.

Section BuildAllWitnesses.
Import GroverAlgorithm GroverGates.

(** The sample problem, two iterations and none. *)
Lemma build_all_sequence_witness :
  exists gates0 gates2,
    build_all (Sample.cls (P := Circuit.fresh_names_only)) Sample.out 2 Sample.ready
    = Ok (tt, place gates2 Sample.ready)
    /\ build_all (Sample.cls (P := Circuit.fresh_names_only)) Sample.out 0 Sample.ready
       = Ok (tt, place gates0 Sample.ready)
    /\ length gates0 = 8%nat
    /\ length gates2 = 48%nat.
Proof.
  destruct (build_all_sequence (Sample.cls (P := Circuit.fresh_names_only))
              Sample.B Sample.R Sample.out 2 Sample.ready
              sample_ready_well_formed sample_out_declared
              sample_build_emits sample_revert_emits) as [H2 H0].
  eexists. eexists. split; [exact H2|]. split; [exact H0|]. split; reflexivity.
Defined.

(** The sample problem: three registers, three measurements. *)
Lemma build_all_measurements_witness :
  exists self',
    build_all (Sample.cls (P := Circuit.fresh_names_only)) Sample.out 2 Sample.ready
    = Ok (tt, self')
    /\ filter is_measure (Circuit.data (circ self'))
       = [Measure (getbit Sample.a 0) (getbit (ClassicalRegister 1 "c_a") 0);
          Measure (getbit Sample.b 0) (getbit (ClassicalRegister 1 "c_b") 0);
          Measure (getbit Sample.out 0) (getbit (ClassicalRegister 1 "c_out") 0)].
Proof.
  destruct (build_all_measurements (Sample.cls (P := Circuit.fresh_names_only))
              Sample.B Sample.R Sample.out 2 Sample.ready
              sample_ready_well_formed sample_out_declared
              sample_build_emits sample_revert_emits eq_refl eq_refl)
    as [self' [Hrun [Hm _]]].
  exists self'. split; [exact Hrun|exact Hm].
Defined.

(** The sample problem with target [out] and one iteration. *)
Lemma diffusion_flips_every_register_witness :
  ~ In (getbit Sample.out 0) (non_target_qubits_of Sample.ready Sample.out)
  /\ exists self',
       build_all (Sample.cls (P := Circuit.fresh_names_only)) Sample.out 1 Sample.ready
       = Ok (tt, self')
       /\ In (XGate (getbit Sample.out 0)) (Circuit.data (circ self'))
       /\ exists c, In (Measure (getbit Sample.out 0) c) (Circuit.data (circ self')).
Proof.
  destruct (diffusion_flips_every_register (Sample.cls (P := Circuit.fresh_names_only))
              Sample.B Sample.R Sample.out 1 Sample.ready
              sample_ready_well_formed sample_out_declared
              sample_build_emits sample_revert_emits)
    as [Hnon [self' [Hrun [_ [_ [Hx Hm]]]]]].
  split; [exact Hnon|].
  exists self'. split; [exact Hrun|]. split; [apply Hx; lia|exact Hm].
Defined.

(** C3 fails as stated: in the circuit the sample problem assembles with
    one iteration and target [out], the hooks place no X gate, [out] is not
    in the non-target list, and the X gates of the diffusion step act on
    [out] all the same. *)
Lemma diffusion_spares_target_counterexample :
  exists self',
    build_all (Sample.cls (P := Circuit.fresh_names_only)) Sample.out 1 Sample.ready
    = Ok (tt, self')
    /\ non_target_qubits_of Sample.ready Sample.out
       = [getbit Sample.a 0; getbit Sample.b 0]
    /\ filter (fun g => match g with XGate _ => true | _ => false end)
         (Circuit.data (circ self'))
       = [XGate (getbit Sample.a 0); XGate (getbit Sample.b 0);
          XGate (getbit Sample.out 0);
          XGate (getbit Sample.a 0); XGate (getbit Sample.b 0);
          XGate (getbit Sample.out 0)]
    /\ ~ (forall q, In (XGate q) (Circuit.data (circ self')) ->
            In q (non_target_qubits_of Sample.ready Sample.out)).
Proof.
  rewrite (build_all_well_formed _ Sample.B Sample.R Sample.out 1 Sample.ready
             sample_ready_well_formed sample_out_declared
             sample_build_emits sample_revert_emits), emit_place.
  eexists. split; [reflexivity|].
  split; [vm_compute; reflexivity|].
  split; [vm_compute; reflexivity|].
  intros H. specialize (H (getbit Sample.out 0)).
  assert (Hin : In (getbit Sample.out 0) (non_target_qubits_of Sample.ready Sample.out)).
  { apply H. vm_compute. do 14 right. left. reflexivity. }
  vm_compute in Hin. destruct Hin as [E|[E|[]]]; discriminate E.
Qed.

Lemma sample_operands_on_circuit (q : Register) :
  In q [Sample.out; Sample.a; Sample.b] ->
  Circuit.has_qubit (circ Sample.ready) (getbit q 0) = true.
Proof. intros [<-|[<-|[<-|[]]]]; reflexivity. Defined.





End BuildAllWitnesses.

(** ** Allocation and the abstract hooks *)

Section Hooks.
Import GroverAlgorithm GroverGates.

Lemma create_qubit_Ok_inv {P : Circuit.RegisterPolicy}
  (label : string) (self self' : instance) (r : Register) :
  create_qubit label self = Ok (r, self') ->
  r = qreg_of label
  /\ self' = mkInstance
               (Circuit.mk (Circuit.regs (circ self) ++ [qreg_of label; creg_of label])
                  (Circuit.data (circ self)))
               (phase_ancilla self)
               (qubits self ++ [qreg_of label])
               (clbits self ++ [creg_of label])
               (names self ++ [label]).
Proof.
  unfold create_qubit, Circuit.add_register, qreg_of, creg_of.
  destruct (Circuit.accepts (circ self) _); simpl; [|discriminate].
  destruct (Circuit.accepts _ _); simpl; [|discriminate].
  intros E. injection E as <- <-. rewrite <- app_assoc. auto.
Qed.

(** The library refuses a register whose name one of the circuit's
    registers bears. *)
Lemma held_name_refused (c : Circuit.t) (held reg : Register) :
  In held (Circuit.regs c) -> reg_name held = reg_name reg ->
  Circuit.add_register (P := Circuit.fresh_names_only) c reg = Raise CircuitError.
Proof.
  intros Hin E. unfold Circuit.add_register, Circuit.accepts, Circuit.fresh_names_only.
  assert (H : existsb (fun r => String.eqb (reg_name r) (reg_name reg)) (Circuit.regs c)
              = true).
  { apply existsb_exists. exists held. split; [assumption|]. now apply String.eqb_eq. }
  now rewrite H.
Qed.

(** [create_qubit] on a circuit that holds the quantum register of the label. *)
Lemma held_label_refused (label : string) (self : instance) :
  In (qreg_of label) (Circuit.regs (circ self)) ->
  create_qubit (P := Circuit.fresh_names_only) label self = Raise CircuitError.
Proof.
  intros Hin. unfold qreg_of in Hin. unfold create_qubit. cbv zeta.
  now rewrite (held_name_refused (circ self) _ _ Hin eq_refl).
Qed.

(** C8.  With the circuit library's test of added registers (it refuses a
    name the circuit already holds): once [create_qubit label] has
    succeeded, every later call [create_qubit label] on an instance whose
    circuit still holds the registers made then raises the circuit's error;
    no second register pair is allocated under the label. *)
Theorem create_qubit_rejects_used_label
  (label : string) (self0 self1 self2 : instance) (r : Register) :
  create_qubit (P := Circuit.fresh_names_only) label self0 = Ok (r, self1) ->
  incl (Circuit.regs (circ self1)) (Circuit.regs (circ self2)) ->
  create_qubit (P := Circuit.fresh_names_only) label self2 = Raise CircuitError.
Proof.
  intros Hfirst Hincl. apply create_qubit_Ok_inv in Hfirst. destruct Hfirst as [_ ->].
  apply held_label_refused.
  apply Hincl. simpl. apply in_or_app. right. now left.
Qed.

(** The label [a] a second time, right after the first and on the sample
    instance. *)
Lemma create_qubit_rejects_used_label_witness :
  create_qubit (P := Circuit.fresh_names_only) "a"
    (mkInstance
       (Circuit.mk [QuantumRegister 1 "phase_ancilla"; Sample.a; ClassicalRegister 1 "c_a"]
          [HGate (getbit (QuantumRegister 1 "phase_ancilla") 0)])
       (QuantumRegister 1 "phase_ancilla") [Sample.a] [ClassicalRegister 1 "c_a"] ["a"])
  = Raise CircuitError
  /\ create_qubit (P := Circuit.fresh_names_only) "a" Sample.ready = Raise CircuitError.
Proof.
  split.
  - apply (create_qubit_rejects_used_label "a"
             (mkInstance
                (Circuit.mk [QuantumRegister 1 "phase_ancilla"]
                   [HGate (getbit (QuantumRegister 1 "phase_ancilla") 0)])
                (QuantumRegister 1 "phase_ancilla") [] [] [])
             _ _ Sample.a eq_refl).
    intros x Hx. exact Hx.
  - apply (create_qubit_rejects_used_label "a"
             (mkInstance
                (Circuit.mk [QuantumRegister 1 "phase_ancilla"]
                   [HGate (getbit (QuantumRegister 1 "phase_ancilla") 0)])
                (QuantumRegister 1 "phase_ancilla") [] [] [])
             _ _ Sample.a eq_refl).
    intros x Hx. simpl in *. tauto.
Defined.

(** A [prepare] that asks for the label [a] twice: the constructor fails at
    the second [create_qubit]. *)
Lemma create_qubit_same_label_refused :
  __init__ (P := Circuit.fresh_names_only) (Sample.twice (P := Circuit.fresh_names_only))
  = Raise CircuitError.
Proof. vm_compute. reflexivity. Qed.

(** C9.  A hook the subclass does not define raises NotImplementedError,
    whatever the instance; so does [build_all] when [build_search_space] is
    not defined; and the constructor of a class without [prepare] fails: with
    NotImplementedError once the circuit has taken the phase ancilla. *)
Theorem undefined_hooks_raise
  (P : Circuit.RegisterPolicy) (p b r : option (M unit)) (self : instance)
  (target : Register) (n : Z) :
  prepare (mkSubclass None b r) self = Raise NotImplementedError
  /\ build_search_space (mkSubclass p None r) self = Raise NotImplementedError
  /\ revert_search_space (mkSubclass p b None) self = Raise NotImplementedError
  /\ build_all (mkSubclass p None r) target n self = Raise NotImplementedError
  /\ __init__ (mkSubclass None b r)
     = Raise (if Circuit.accepts Circuit.empty (QuantumRegister 1 "phase_ancilla")
              then NotImplementedError else CircuitError)
  /\ __init__ (P := Circuit.accept_all) base = Raise NotImplementedError
  /\ __init__ (P := Circuit.fresh_names_only) base = Raise NotImplementedError.
Proof.
  repeat split.
  - unfold build_all. unfold bindM at 1. unfold range.
    destruct (Z.to_nat n) as [|k]; simpl; reflexivity.
  - unfold __init__, Circuit.add_register.
    destruct (Circuit.accepts _ _); reflexivity.
Qed.

End Hooks.

(** ** The result formatter *)

Section Loops.

Lemma for_each_app {A S : Type} (l1 l2 : list A) (body : A -> S -> result S) (s : S) :
  for_each (l1 ++ l2) body s = bind (for_each l1 body s) (for_each l2 body).
Proof.
  revert s. induction l1 as [|a l1 IH]; intros s; simpl; [reflexivity|].
  destruct (body a s); simpl; auto.
Qed.

Lemma skipn_nth_error {A : Type} (l : list A) (a : nat) (x : A) :
  nth_error l a = Some x -> skipn a l = x :: skipn (S a) l.
Proof.
  revert a. induction l as [|y l IH]; intros [|a] E; simpl in *; try discriminate.
  - congruence.
  - now apply IH.
Qed.

(** A loop over positions is a loop over the elements at these positions. *)
Lemma for_each_positions {A S : Type} (zs : list A)
  (F : Z -> S -> result S) (G : A -> S -> result S) (k a : nat) (s : S) :
  (a + k <= length zs)%nat ->
  (forall i z s', nth_error zs i = Some z -> F (Z.of_nat i) s' = G z s') ->
  for_each (map Z.of_nat (seq a k)) F s = for_each (firstn k (skipn a zs)) G s.
Proof.
  intros Hlen HFG. revert a s Hlen. induction k as [|k IH]; intros a s Hlen.
  - reflexivity.
  - destruct (nth_error zs a) as [z|] eqn:E; [|apply nth_error_None in E; lia].
    rewrite (skipn_nth_error _ _ _ E). simpl.
    rewrite (HFG a z s E). destruct (G z s); [|reflexivity].
    rewrite IH by lia. reflexivity.
Qed.

Lemma split_space_length (s : string) : (1 <= length (split_space s))%nat.
Proof.
  induction s as [|c s IH]; simpl; [lia|].
  destruct (Ascii.eqb c " "); simpl; [lia|].
  destruct (split_space s); simpl in *; lia.
Qed.

(** Lines 28-30 copy the list. *)
Lemma copy_loop (parts : list string) :
  for_each (range (len parts)) (copy_step parts) [] = Ok parts.
Proof.
  unfold range, len. rewrite Nat2Z.id.
  assert (H : forall k a acc, (a + k <= length parts)%nat ->
            for_each (map Z.of_nat (seq a k)) (copy_step parts) acc
            = Ok (acc ++ firstn k (skipn a parts))).
  { induction k as [|k IH]; intros a acc Hlen; simpl.
    - now rewrite app_nil_r.
    - destruct (nth_error parts a) as [z|] eqn:E; [|apply nth_error_None in E; lia].
      unfold copy_step at 1. rewrite (getitem_nat _ _ _ E). simpl.
      rewrite IH by lia. rewrite (skipn_nth_error _ _ _ E). simpl.
      now rewrite <- app_assoc. }
  rewrite H by lia. simpl. now rewrite firstn_all.
Qed.

Lemma getitem_from_end {A : Type} (l : list A) (i : nat) (x : A) :
  nth_error (rev l) i = Some x -> getitem l (-1 - Z.of_nat i) = Ok x.
Proof.
  intros H.
  assert (Hlt : (i < length l)%nat).
  { rewrite <- length_rev. apply nth_error_Some. congruence. }
  unfold getitem, len. cbv zeta.
  destruct (Z.ltb_spec (-1 - Z.of_nat i) 0) as [_|Hpos]; [|lia].
  destruct (Z.ltb_spec (-1 - Z.of_nat i + Z.of_nat (length l)) 0) as [Hneg|_]; [lia|].
  destruct (Z.leb_spec (Z.of_nat (length l)) (-1 - Z.of_nat i + Z.of_nat (length l)))
    as [Hge|_]; [lia|].
  simpl orb. cbv iota.
  replace (Z.to_nat (-1 - Z.of_nat i + Z.of_nat (length l)))
    with (length l - S i)%nat by lia.
  rewrite (nth_error_nth' _ x) by lia.
  rewrite (nth_error_nth' _ x) in H by (rewrite length_rev; lia).
  rewrite rev_nth in H by lia. congruence.
Qed.

(** The first [k] rounds of lines 33-34 as a loop over pairs of a name and
    a substring. *)
Lemma append_prefix_as_pairs (names data : list string) (d : pydict (list value))
  (k : nat) :
  (k <= length names)%nat ->
  (k <= length data)%nat ->
  for_each (map Z.of_nat (seq 0 k)) (append_step names data) d
  = for_each (firstn k (combine names (rev data))) append_cell d.
Proof.
  intros Hn Hd.
  rewrite (for_each_positions (combine names (rev data)) _ append_cell).
  - reflexivity.
  - rewrite length_combine, length_rev. lia.
  - intros i [name b] d' Hi. unfold append_step, append_cell. cbn [fst snd].
    assert (Hnb : nth_error names i = Some name /\ nth_error (rev data) i = Some b).
    { clear - Hi. revert i Hi. generalize (rev data).
      induction names as [|x l IH]; intros [|y l'] [|i] Hi; simpl in *;
        try discriminate; [split; congruence|]. now apply (IH l' i). }
    destruct Hnb as [Hname Hb].
    rewrite (getitem_nat _ _ _ Hname). cbn [bind].
    destruct (dict_getitem d' name); cbn [bind]; [|reflexivity].
    now rewrite (getitem_from_end _ _ _ Hb).
Qed.

Lemma append_loop_as_pairs (names data : list string) (d : pydict (list value)) :
  (length data <= length names)%nat ->
  for_each (range (len data)) (append_step names data) d
  = for_each (combine names (rev data)) append_cell d.
Proof.
  intros Hlen. unfold range, len. rewrite Nat2Z.id.
  rewrite append_prefix_as_pairs by lia.
  rewrite firstn_all2; [reflexivity|].
  rewrite length_combine, length_rev. lia.
Qed.

End Loops.

Section Dicts.
Context {V : Type}.

Lemma dict_getitem_head (k : string) (v : V) (d : pydict V) :
  dict_getitem ((k, v) :: d) k = Ok v.
Proof. simpl. now rewrite String.eqb_refl. Qed.

Lemma dict_setitem_head (k : string) (v v' : V) (d : pydict V) :
  dict_setitem ((k, v) :: d) k v' = (k, v') :: d.
Proof. simpl. now rewrite String.eqb_refl. Qed.

Lemma dict_getitem_app_notin (pre d : pydict V) (k : string) :
  ~ In k (dict_keys pre) -> dict_getitem (pre ++ d) k = dict_getitem d k.
Proof.
  induction pre as [|[k' v'] pre IH]; intros Hn; simpl; [reflexivity|].
  destruct (String.eqb_spec k' k) as [->|Hne].
  - exfalso. apply Hn. now left.
  - apply IH. intros H. apply Hn. now right.
Qed.

Lemma dict_setitem_app_notin (pre d : pydict V) (k : string) (v : V) :
  ~ In k (dict_keys pre) -> dict_setitem (pre ++ d) k v = pre ++ dict_setitem d k v.
Proof.
  induction pre as [|[k' v'] pre IH]; intros Hn; simpl; [reflexivity|].
  destruct (String.eqb_spec k' k) as [->|Hne].
  - exfalso. apply Hn. now left.
  - f_equal. apply IH. intros H. apply Hn. now right.
Qed.

Lemma dict_getitem_in_keys (d : pydict V) (k : string) :
  In k (dict_keys d) -> exists v, dict_getitem d k = Ok v.
Proof.
  induction d as [|[k' v'] d IH]; simpl; [tauto|].
  intros [->|Hin].
  - rewrite String.eqb_refl. eauto.
  - destruct (String.eqb k' k); eauto.
Qed.

Lemma dict_getitem_In (d : pydict V) (k : string) (v : V) :
  NoDup (dict_keys d) -> In (k, v) d -> dict_getitem d k = Ok v.
Proof.
  induction d as [|[k' v'] d IH]; simpl; [tauto|].
  intros Hnd [E|Hin].
  - injection E as -> ->. now rewrite String.eqb_refl.
  - inversion Hnd as [|? ? Hk Hnd']; subst.
    destruct (String.eqb_spec k' k) as [->|Hne]; [|now apply IH].
    exfalso. apply Hk. change k with (fst (k, v)). now apply in_map.
Qed.

Lemma dict_keys_setitem (d : pydict V) (k : string) (v : V) :
  In k (dict_keys d) -> dict_keys (dict_setitem d k v) = dict_keys d.
Proof.
  induction d as [|[k' v'] d IH]; simpl; [tauto|].
  intros Hin. destruct (String.eqb_spec k' k) as [->|Hne]; simpl; [reflexivity|].
  f_equal. apply IH. destruct Hin; [contradiction|assumption].
Qed.

Lemma dict_keys_setitem_new (d : pydict V) (k : string) (v : V) :
  ~ In k (dict_keys d) -> dict_setitem d k v = d ++ [(k, v)].
Proof.
  induction d as [|[k' v'] d IH]; simpl; [reflexivity|].
  intros Hn. destruct (String.eqb_spec k' k) as [->|Hne]; [tauto|].
  f_equal. apply IH. tauto.
Qed.

End Dicts.

Section Columns.

Lemma snoc_cells_nil (d : pydict (list value)) : snoc_cells d [] = d.
Proof. destruct d as [|[c l] d]; reflexivity. Qed.

Lemma dict_keys_snoc_cells (d : pydict (list value)) (cells : list value) :
  dict_keys (snoc_cells d cells) = dict_keys d.
Proof.
  revert cells. induction d as [|[c l] d IH]; intros [|v cells]; simpl; try reflexivity.
  f_equal. apply IH.
Qed.

Lemma snoc_cells_app_short (d d' : pydict (list value)) (cells : list value) :
  (length cells <= length d)%nat ->
  snoc_cells (d ++ d') cells = snoc_cells d cells ++ d'.
Proof.
  revert cells. induction d as [|[c l] d IH]; intros [|v cells] Hlen; simpl in *;
    try reflexivity; try lia.
  - now rewrite snoc_cells_nil.
  - f_equal. apply IH. lia.
Qed.

Lemma snoc_cells_app_exact (d d' : pydict (list value)) (cells cells' : list value) :
  length cells = length d ->
  snoc_cells (d ++ d') (cells ++ cells') = snoc_cells d cells ++ snoc_cells d' cells'.
Proof.
  revert cells. induction d as [|[c l] d IH]; intros [|v cells] Hlen; simpl in *;
    try reflexivity; try discriminate.
  f_equal. apply IH. lia.
Qed.

(** The loop of lines 33-34 on a dict whose next keys are the names. *)
Lemma append_pairs_cells (xs rest ys : list string) (pre cur : pydict (list value)) :
  NoDup xs ->
  (forall x, In x xs -> ~ In x (dict_keys pre)) ->
  dict_keys cur = xs ++ rest ->
  (length ys <= length xs)%nat ->
  for_each (combine xs ys) append_cell (pre ++ cur)
  = Ok (pre ++ snoc_cells cur (map VStr ys)).
Proof.
  revert ys pre cur. induction xs as [|x xs IH]; intros ys pre cur Hnd Hpre Hkeys Hlen.
  - destruct ys; simpl in Hlen; [|lia]. simpl. now rewrite snoc_cells_nil.
  - destruct cur as [|[c l] cur]; [discriminate|].
    simpl in Hkeys. injection Hkeys as -> Hkeys.
    destruct ys as [|y ys]; [reflexivity|].
    inversion Hnd as [|? ? Hx Hnd']; subst.
    simpl combine. simpl for_each. unfold append_cell at 1. cbn [fst snd].
    rewrite dict_getitem_app_notin, dict_getitem_head by (apply Hpre; now left).
    cbn [bind].
    rewrite dict_setitem_app_notin, dict_setitem_head by (apply Hpre; now left).
    change (pre ++ (x, l ++ [VStr y]) :: cur)
      with (pre ++ [(x, l ++ [VStr y])] ++ cur).
    rewrite app_assoc, (IH ys _ cur Hnd'); [| |assumption|simpl in Hlen; lia].
    + now rewrite <- app_assoc.
    + intros x' Hx'. unfold dict_keys. rewrite map_app, in_app_iff. simpl.
      intros [H|[H|[]]].
      * apply (Hpre x'); [now right|exact H].
      * subst. contradiction.
Qed.

(** The same loop keeps the keys, whatever the dict, when every name is a key. *)
Lemma append_pairs_keys (ps : list (string * string)) (d : pydict (list value)) :
  (forall p, In p ps -> In (fst p) (dict_keys d)) ->
  exists d', for_each ps append_cell d = Ok d' /\ dict_keys d' = dict_keys d.
Proof.
  revert d. induction ps as [|p ps IH]; intros d Hin; simpl; [eauto|].
  destruct (dict_getitem_in_keys d (fst p) (Hin p (or_introl eq_refl))) as [l Hl].
  unfold append_cell at 1. rewrite Hl. cbn [bind].
  pose proof (dict_keys_setitem d (fst p) (l ++ [VStr (snd p)])
                (Hin p (or_introl eq_refl))) as Hk.
  destruct (IH (dict_setitem d (fst p) (l ++ [VStr (snd p)]))) as [d' [Hd' Hk']].
  { intros q Hq. rewrite Hk. apply Hin. now right. }
  exists d'. split; [exact Hd'|congruence].
Qed.

End Columns.

Section OrganizeKey.

Variable result_counts : pydict Z.
Variable registers_names : list string.

(** A key with more substrings than there are names: line 34 indexes
    [registers_names] past its end. *)
Lemma organize_key_long (k : string) (d : pydict (list value)) :
  In k (dict_keys result_counts) ->
  (forall x, In x registers_names -> In x (dict_keys d)) ->
  (length registers_names < length (split_space k))%nat ->
  organize_key result_counts registers_names k d = Raise IndexError.
Proof.
  intros Hk Hkeys Hlong. unfold organize_key.
  destruct (dict_getitem_in_keys result_counts k Hk) as [f Hf].
  rewrite Hf. cbn [bind]. cbv zeta. rewrite copy_loop. cbn [bind].
  unfold range, len. rewrite Nat2Z.id.
  set (n := length registers_names) in *.
  set (parts := split_space k) in *.
  replace (length parts) with (n + S (length parts - S n))%nat by lia.
  rewrite seq_app, map_app, for_each_app.
  rewrite append_prefix_as_pairs by (unfold n; lia).
  rewrite firstn_all2 by (rewrite length_combine; unfold n; lia).
  destruct (append_pairs_keys (combine registers_names (rev parts)) d)
    as [d' [Hd' _]].
  { intros [x y] Hp. apply Hkeys. now apply in_combine_l in Hp. }
  rewrite Hd'. cbn [bind]. simpl seq. simpl map. simpl for_each.
  unfold append_step at 1. rewrite getitem_out_of_range by (unfold n; lia).
  reflexivity.
Qed.

(** A key with at most as many substrings as there are names, on a dict
    whose keys are the names followed by [$freq]. *)
Lemma organize_key_cells (k : string) (f : Z) (dn : pydict (list value))
  (lf : list value) :
  dict_getitem result_counts k = Ok f ->
  NoDup registers_names ->
  ~ In "$freq" registers_names ->
  dict_keys dn = registers_names ->
  (length (split_space k) <= length registers_names)%nat ->
  organize_key result_counts registers_names k (dn ++ [("$freq", lf)])
  = Ok (snoc_cells dn (map VStr (rev (split_space k)))
        ++ [("$freq", lf ++ [VInt f])]).
Proof.
  intros Hf Hnd Hfreq Hkeys Hshort. unfold organize_key.
  rewrite Hf. cbn [bind]. cbv zeta. rewrite copy_loop. cbn [bind].
  rewrite append_loop_as_pairs by assumption.
  pose proof (append_pairs_cells registers_names ["$freq"]
                (rev (split_space k)) [] (dn ++ [("$freq", lf)]) Hnd) as H.
  cbn [app] in H. rewrite H; clear H.
  - cbn [bind].
    rewrite snoc_cells_app_short.
    2:{ rewrite length_map, length_rev.
        rewrite <- (length_map fst dn). fold (dict_keys dn). rewrite Hkeys. lia. }
    rewrite dict_getitem_app_notin, dict_getitem_head
      by now rewrite dict_keys_snoc_cells, Hkeys.
    cbn [bind].
    rewrite dict_setitem_app_notin, dict_setitem_head
      by now rewrite dict_keys_snoc_cells, Hkeys.
    reflexivity.
  - intros x _ [].
  - unfold dict_keys in *. now rewrite map_app, Hkeys.
  - now rewrite length_rev.
Qed.

End OrganizeKey.

Section OutputDict.

Lemma dict_keys_setitem_iff {V : Type} (d : pydict V) (k x : string) (v : V) :
  In x (dict_keys (dict_setitem d k v)) <-> In x (dict_keys d) \/ x = k.
Proof.
  induction d as [|[k' v'] d IH]; simpl.
  - intuition.
  - destruct (String.eqb_spec k' k) as [->|Hne]; simpl.
    + intuition.
    + rewrite IH. intuition.
Qed.

Lemma dict_keys_setitem_NoDup {V : Type} (d : pydict V) (k : string) (v : V) :
  NoDup (dict_keys d) -> NoDup (dict_keys (dict_setitem d k v)).
Proof.
  induction d as [|[k' v'] d IH]; simpl; intros Hnd.
  - repeat constructor. intros [].
  - destruct (String.eqb_spec k' k) as [->|Hne]; simpl; [exact Hnd|].
    inversion Hnd as [|? ? Hk Hnd']; subst. constructor.
    + rewrite dict_keys_setitem_iff. intros [H|H]; [contradiction|congruence].
    + now apply IH.
Qed.

Lemma empty_lists_from {V : Type} (keys : list string) (acc : pydict (list V)) :
  NoDup (dict_keys acc ++ keys) ->
  fold_left (fun d k => dict_setitem d k []) keys acc
  = acc ++ map (fun c => (c, [])) keys.
Proof.
  revert acc. induction keys as [|k keys IH]; intros acc Hnd; simpl.
  - now rewrite app_nil_r.
  - rewrite dict_keys_setitem_new.
    + rewrite IH.
      * now rewrite <- app_assoc.
      * unfold dict_keys. rewrite map_app. simpl. now rewrite <- app_assoc.
    + apply NoDup_remove_2 in Hnd. intros H. apply Hnd. apply in_or_app. now left.
Qed.

(** The comprehension of line 21 when the names are pairwise distinct. *)
Lemma dict_of_empty_lists_NoDup {V : Type} (keys : list string) :
  NoDup keys ->
  dict_of_empty_lists (V := V) keys = map (fun c => (c, [])) keys.
Proof. intros H. unfold dict_of_empty_lists. now rewrite empty_lists_from. Qed.

Lemma empty_lists_keys {V : Type} (keys : list string) (acc : pydict (list V)) (x : string) :
  In x (dict_keys (fold_left (fun d k => dict_setitem d k []) keys acc))
  <-> In x (dict_keys acc) \/ In x keys.
Proof.
  revert acc. induction keys as [|k keys IH]; intros acc; simpl; [tauto|].
  rewrite IH, dict_keys_setitem_iff. intuition.
Qed.

Lemma dict_of_empty_lists_keys {V : Type} (keys : list string) (x : string) :
  In x (dict_keys (dict_of_empty_lists (V := V) keys)) <-> In x keys.
Proof. unfold dict_of_empty_lists. rewrite empty_lists_keys. simpl. tauto. Qed.

Lemma dict_of_empty_lists_keys_NoDup {V : Type} (keys : list string) :
  NoDup (dict_keys (dict_of_empty_lists (V := V) keys)).
Proof.
  unfold dict_of_empty_lists.
  assert (H : forall acc : pydict (list V), NoDup (dict_keys acc) ->
            NoDup (dict_keys (fold_left (fun d k => dict_setitem d k []) keys acc))).
  { induction keys as [|k keys IH]; intros acc Hacc; simpl; [exact Hacc|].
    apply IH. now apply dict_keys_setitem_NoDup. }
  apply H. constructor.
Qed.

Variable result_counts : pydict Z.
Variable registers_names : list string.

(** A key with at most as many substrings as names keeps the keys of the
    output dict. *)
Lemma organize_key_keys (k : string) (d : pydict (list value)) :
  In k (dict_keys result_counts) ->
  (forall x, In x registers_names -> In x (dict_keys d)) ->
  In "$freq" (dict_keys d) ->
  (length (split_space k) <= length registers_names)%nat ->
  exists d', organize_key result_counts registers_names k d = Ok d'
             /\ dict_keys d' = dict_keys d.
Proof.
  intros Hk Hkeys Hfreq Hshort. unfold organize_key.
  destruct (dict_getitem_in_keys result_counts k Hk) as [f Hf].
  rewrite Hf. cbn [bind]. cbv zeta. rewrite copy_loop. cbn [bind].
  rewrite append_loop_as_pairs by assumption.
  destruct (append_pairs_keys (combine registers_names (rev (split_space k))) d)
    as [d1 [Hd1 Hk1]].
  { intros [x y] Hp. apply Hkeys. now apply in_combine_l in Hp. }
  rewrite Hd1. cbn [bind].
  rewrite <- Hk1 in Hfreq.
  destruct (dict_getitem_in_keys d1 "$freq" Hfreq) as [lf Hlf].
  rewrite Hlf. cbn [bind]. eexists. split; [reflexivity|].
  rewrite dict_keys_setitem by assumption. exact Hk1.
Qed.

(** The loop over the keys stops with IndexError at the first key that has
    more substrings than there are names. *)
Lemma organize_loop_long (ks : list string) (d : pydict (list value)) :
  (forall k, In k ks -> In k (dict_keys result_counts)) ->
  (forall x, In x registers_names -> In x (dict_keys d)) ->
  In "$freq" (dict_keys d) ->
  Exists (fun k => (length registers_names < length (split_space k))%nat) ks ->
  for_each ks (organize_key result_counts registers_names) d = Raise IndexError.
Proof.
  revert d. induction ks as [|k ks IH]; intros d Hks Hkeys Hfreq Hex.
  - inversion Hex.
  - simpl.
    destruct (le_lt_dec (length (split_space k)) (length registers_names))
      as [Hshort|Hlong].
    + destruct (organize_key_keys k d (Hks k (or_introl eq_refl)) Hkeys Hfreq Hshort)
        as [d' [Hd' Hk']].
      rewrite Hd'. apply IH.
      * intros k' Hk0. apply Hks. now right.
      * now rewrite Hk'.
      * now rewrite Hk'.
      * inversion Hex as [? ? H|? ? H]; subst; [lia|exact H].
    + rewrite organize_key_long; [reflexivity| |assumption|assumption].
      apply Hks. now left.
Qed.

End OutputDict.

Section Table.

Lemma expected_row_length (kf : string * Z) :
  length (expected_row kf) = S (length (split_space (fst kf))).
Proof.
  unfold expected_row. rewrite length_app, length_map, length_rev. simpl. lia.
Qed.

(** The loop over the keys when every key has exactly one substring per
    name: one row per key, cell by cell. *)
Lemma organize_loop_exact (result_counts : pydict Z) (registers_names : list string)
  (cs : list (string * Z)) (dn : pydict (list value)) (lf : list value) :
  (forall k f, In (k, f) cs -> dict_getitem result_counts k = Ok f) ->
  NoDup registers_names ->
  ~ In "$freq" registers_names ->
  dict_keys dn = registers_names ->
  Forall (fun k => length (split_space k) = length registers_names) (dict_keys cs) ->
  for_each (dict_keys cs) (organize_key result_counts registers_names)
    (dn ++ [("$freq", lf)])
  = Ok (fold_left snoc_cells (map expected_row cs) (dn ++ [("$freq", lf)])).
Proof.
  intros Hget Hnd Hfreq. revert dn lf.
  induction cs as [|[k f] cs IH]; intros dn lf Hkeys Hall; [reflexivity|].
  simpl in Hall. apply Forall_cons_iff in Hall. destruct Hall as [Hk Hall'].
  simpl dict_keys. simpl for_each.
  rewrite (organize_key_cells result_counts registers_names k f dn lf)
    by (auto; try lia; apply Hget; now left).
  rewrite IH.
  - simpl. f_equal. f_equal. unfold expected_row. simpl.
    change [("$freq", lf ++ [VInt f])] with (snoc_cells [("$freq", lf)] [VInt f]).
    rewrite <- snoc_cells_app_exact; [reflexivity|].
    rewrite length_map, length_rev, Hk, <- Hkeys. unfold dict_keys.
    now rewrite length_map.
  - intros k' f' H. apply Hget. now right.
  - now rewrite dict_keys_snoc_cells.
  - exact Hall'.
Qed.

Lemma snoc_cells_lengths (d : pydict (list value)) (cells : list value) (n : nat) :
  column_lengths d n -> length cells = length d ->
  column_lengths (snoc_cells d cells) (S n).
Proof.
  unfold column_lengths. revert cells.
  induction d as [|[c l] d IH]; intros [|v cells] Hd Hlen; simpl in *;
    try discriminate; [constructor|].
  inversion Hd as [|? ? Hl Hd']; subst. constructor.
  - simpl in *. rewrite length_app. simpl. lia.
  - apply IH; [assumption|lia].
Qed.

Lemma rows_of_snoc (d : pydict (list value)) (cells : list value) (n : nat) :
  column_lengths d n -> length cells = length d ->
  rows_of (snoc_cells d cells) (S n) = rows_of d n ++ [cells].
Proof.
  intros Hd Hlen. unfold rows_of. rewrite seq_S, map_app. simpl. f_equal.
  - apply map_ext_in. intros r Hr. apply in_seq in Hr.
    clear Hlen. revert cells. unfold column_lengths in Hd.
    induction Hd as [|[c l] d Hl Hd IH]; intros [|v cells]; simpl; try reflexivity.
    simpl in Hl. rewrite app_nth1 by lia. f_equal. apply IH.
  - f_equal. revert cells Hlen. unfold column_lengths in Hd.
    induction Hd as [|[c l] d Hl Hd IH]; intros [|v cells] Hlen; simpl in *;
      try discriminate; [reflexivity|].
    f_equal; [rewrite <- Hl; apply nth_middle|apply IH; lia].
Qed.

Lemma rows_of_fold (rows : list (list value)) (d : pydict (list value)) (n : nat) :
  column_lengths d n ->
  Forall (fun r => length r = length d) rows ->
  rows_of (fold_left snoc_cells rows d) (n + length rows) = rows_of d n ++ rows
  /\ column_lengths (fold_left snoc_cells rows d) (n + length rows)
  /\ dict_keys (fold_left snoc_cells rows d) = dict_keys d.
Proof.
  revert d n. induction rows as [|r rows IH]; intros d n Hd Hrows; simpl.
  - rewrite Nat.add_0_r, app_nil_r. auto.
  - inversion Hrows as [|? ? Hr Hrows']; subst.
    destruct (IH (snoc_cells d r) (S n)) as (H1 & H2 & H3).
    + now apply snoc_cells_lengths.
    + eapply Forall_impl; [|exact Hrows']. intros r' Hr'. simpl in Hr'.
      rewrite Hr'. rewrite <- (length_map fst (snoc_cells d r)).
      fold (dict_keys (snoc_cells d r)). rewrite dict_keys_snoc_cells.
      unfold dict_keys. now rewrite length_map.
    + replace (n + S (length rows))%nat with (S n + length rows)%nat by lia.
      rewrite H1, H3, dict_keys_snoc_cells, rows_of_snoc by assumption.
      rewrite <- app_assoc. auto.
Qed.

(** [pd.DataFrame] on columns of one common length. *)
Lemma DataFrame_of_columns (d : pydict (list value)) (n : nat) :
  d <> [] -> column_lengths d n ->
  DataFrame_of_dict d = Ok (mkDataFrame (dict_keys d) (range (Z.of_nat n)) (rows_of d n)).
Proof.
  intros Hne Hd. unfold DataFrame_of_dict.
  destruct d as [|[c l] d]; [congruence|]. simpl map.
  apply Forall_cons_iff in Hd. destruct Hd as [Hl Hd']. simpl in Hl. subst n.
  replace (forallb (Nat.eqb (length l)) (map (fun kv => length (snd kv)) d)) with true.
  - reflexivity.
  - symmetry. apply forallb_forall. intros x Hx. apply in_map_iff in Hx.
    destruct Hx as [kv [<- Hin]]. apply Nat.eqb_eq.
    rewrite Forall_forall in Hd'. symmetry. now apply Hd'.
Qed.

End Table.

Section Sorting.

Lemma insert_desc_perm {R : Type} (x : Z * R) (l : list (Z * R)) :
  Permutation (insert_desc x l) (x :: l).
Proof.
  induction l as [|y l IH]; simpl; [reflexivity|].
  destruct (fst y <? fst x); [reflexivity|].
  rewrite IH. apply perm_swap.
Qed.

Lemma sort_desc_perm {R : Type} (l : list (Z * R)) : Permutation (sort_desc l) l.
Proof.
  unfold sort_desc.
  assert (H : forall acc, Permutation
                (fold_left (fun acc x => insert_desc x acc) l acc) (acc ++ l)).
  { induction l as [|x l IH]; intros acc; simpl.
    - now rewrite app_nil_r.
    - rewrite IH, insert_desc_perm. simpl. apply Permutation_middle. }
  apply (H []).
Qed.

Lemma insert_desc_sorted {R : Type} (x : Z * R) (l : list (Z * R)) :
  StronglySorted key_desc l -> StronglySorted key_desc (insert_desc x l).
Proof.
  induction 1 as [|y l Hl IH Hy]; simpl.
  - repeat constructor.
  - destruct (Z.ltb_spec (fst y) (fst x)) as [Hlt|Hge].
    + constructor; [now constructor|]. constructor; [unfold key_desc; lia|].
      eapply Forall_impl; [|exact Hy]. unfold key_desc. intros z Hz. lia.
    + constructor; [exact IH|].
      apply (Permutation_Forall (Permutation_sym (insert_desc_perm x l))).
      constructor; [unfold key_desc; lia|exact Hy].
Qed.

Lemma sort_desc_sorted {R : Type} (l : list (Z * R)) :
  StronglySorted key_desc (sort_desc l).
Proof.
  unfold sort_desc.
  assert (H : forall acc, StronglySorted key_desc acc ->
            StronglySorted key_desc (fold_left (fun acc x => insert_desc x acc) l acc)).
  { induction l as [|x l IH]; intros acc Hacc; simpl; [exact Hacc|].
    apply IH. now apply insert_desc_sorted. }
  apply H. constructor.
Qed.

Lemma sorted_rows (l : list (Z * (Z * list value))) :
  StronglySorted key_desc l ->
  Forall (fun x => fst x = row_freq (snd (snd x))) l ->
  StronglySorted (fun r1 r2 => row_freq r2 <= row_freq r1) (map snd (map snd l)).
Proof.
  induction 1 as [|x l Hl IH Hx]; intros Hall; simpl; [constructor|].
  apply Forall_cons_iff in Hall. destruct Hall as [Hfx Hall].
  constructor; [now apply IH|].
  rewrite Forall_forall in *. intros r Hr.
  apply in_map_iff in Hr. destruct Hr as [lr [<- Hr]].
  apply in_map_iff in Hr. destruct Hr as [y [<- Hy]].
  specialize (Hx y Hy). specialize (Hall y Hy). unfold key_desc in Hx.
  rewrite <- Hfx, <- Hall. exact Hx.
Qed.

Lemma index_of_last (c : string) (cols : list string) :
  ~ In c cols -> index_of c (cols ++ [c]) = Some (length cols).
Proof.
  induction cols as [|c' cols IH]; intros Hn; simpl.
  - now rewrite String.eqb_refl.
  - destruct (String.eqb_spec c' c) as [->|Hne]; [exfalso; apply Hn; now left|].
    rewrite IH by (intros H; apply Hn; now right). reflexivity.
Qed.

Lemma row_freq_expected (kf : string * Z) : row_freq (expected_row kf) = snd kf.
Proof. unfold row_freq, expected_row. now rewrite last_last. Qed.

Lemma int_at_expected (kf : string * Z) (n : nat) :
  length (split_space (fst kf)) = n -> int_at n (expected_row kf) = Ok (snd kf).
Proof.
  intros H. unfold int_at, expected_row.
  rewrite nth_error_app2 by (rewrite length_map, length_rev; lia).
  rewrite length_map, length_rev, H, Nat.sub_diag. reflexivity.
Qed.

(** The pass of [sort_values] that reads the sort keys. *)
Lemma keyed_rows (j : nat) (lrs : list (Z * list value))
  (acc : list (Z * (Z * list value))) :
  Forall (fun lr => int_at j (snd lr) = Ok (row_freq (snd lr))) lrs ->
  for_each lrs (fun lr acc => (k <- int_at j (snd lr) ;; Ok (acc ++ [(k, lr)]))%res) acc
  = Ok (acc ++ map (fun lr => (row_freq (snd lr), lr)) lrs).
Proof.
  intros H. revert acc. induction H as [|lr lrs Hlr Hall IH]; intros acc; simpl.
  - now rewrite app_nil_r.
  - rewrite Hlr. cbn [bind]. rewrite IH, <- app_assoc. reflexivity.
Qed.

End Sorting.

Section OrganizeTheorems.

Lemma map_snd_combine_range {A : Type} (rows : list A) :
  map snd (combine (range (Z.of_nat (length rows))) rows) = rows.
Proof.
  unfold range. rewrite Nat2Z.id.
  generalize 0%nat. induction rows as [|r rows IH]; intros a; simpl; [reflexivity|].
  f_equal. apply IH.
Qed.

(** The whole of [organize_qiskit_result] on well-shaped input, before the
    rows are described: the table is the sorted list of expected rows. *)
Lemma organize_sorted_rows (result_counts : pydict Z) (registers_names : list string) :
  NoDup (dict_keys result_counts) ->
  NoDup registers_names ->
  ~ In "$freq" registers_names ->
  Forall (fun k => length (split_space k) = length registers_names)
    (dict_keys result_counts) ->
  let rows := map expected_row result_counts in
  let keyed := map (fun lr => (row_freq (snd lr), lr))
                 (combine (range (Z.of_nat (length rows))) rows) in
  let sorted := map snd (map snd (sort_desc keyed)) in
  organize_qiskit_result result_counts registers_names
  = Ok (mkDataFrame (registers_names ++ ["$freq"]) (range (len sorted)) sorted).
Proof.
  intros Hcounts Hnd Hfreq Hall rows keyed sorted.
  unfold organize_qiskit_result. cbv zeta.
  assert (Hnd' : NoDup (registers_names ++ ["$freq"])).
  { apply NoDup_app; [assumption|repeat constructor; intros []|].
    intros x Hx [<-|[]]. contradiction. }
  rewrite dict_of_empty_lists_NoDup by assumption. rewrite map_app. simpl map at 2.
  set (dn := map (fun c : string => (c, @nil value)) registers_names).
  assert (Hdn : dict_keys dn = registers_names).
  { unfold dn, dict_keys. rewrite map_map. simpl. apply map_id. }
  rewrite (organize_loop_exact result_counts registers_names result_counts dn [])
    by (auto using dict_getitem_In).
  cbn [bind]. fold rows.
  destruct (rows_of_fold rows (dn ++ [("$freq", [])]) 0) as (Hrows & Hlens & Hkeys).
  { unfold column_lengths, dn. apply Forall_app. split.
    - apply Forall_forall. intros kv Hkv. apply in_map_iff in Hkv.
      destruct Hkv as [c [<- _]]. reflexivity.
    - repeat constructor. }
  { unfold rows. apply Forall_forall. intros r Hr. apply in_map_iff in Hr.
    destruct Hr as [[k f] [<- Hin]]. rewrite expected_row_length. simpl.
    rewrite Forall_forall in Hall. rewrite (Hall k).
    - rewrite length_app. unfold dn. rewrite length_map. simpl. lia.
    - unfold dict_keys. change k with (fst (k, f)). now apply in_map. }
  simpl plus in Hrows, Hlens. unfold rows_of at 2 in Hrows. simpl in Hrows.
  rewrite (DataFrame_of_columns _ (length rows)); [|intros E; rewrite E in Hkeys;
    unfold dict_keys in Hkeys; rewrite map_app in Hkeys; simpl in Hkeys;
    now apply app_cons_not_nil in Hkeys|assumption].
  cbn [bind]. rewrite Hrows, Hkeys.
  unfold dict_keys at 1. rewrite map_app. fold (dict_keys dn). rewrite Hdn. simpl map.
  unfold sort_values_desc. simpl df_columns. rewrite index_of_last by assumption.
  simpl df_index. simpl df_rows.
  rewrite (keyed_rows (length registers_names)).
  - cbn [bind app]. fold keyed. fold sorted. unfold reset_index. reflexivity.
  - apply Forall_forall. intros [i r] Hir. apply in_combine_r in Hir. simpl.
    unfold rows in Hir. apply in_map_iff in Hir. destruct Hir as [[k f] [<- Hin]].
    rewrite row_freq_expected. apply int_at_expected. simpl.
    rewrite Forall_forall in Hall. apply Hall.
    unfold dict_keys. change k with (fst (k, f)). now apply in_map.
Qed.

(** C6 (with its preconditions).  When the keys of the counts are pairwise
    distinct, the register names are pairwise distinct and none is [$freq],
    and every key splits into exactly one substring per name, the function
    returns a table whose columns are the names followed by [$freq], with
    one row per key, rows by decreasing [$freq], row labels 0, 1, 2, ...;
    in the row of a key, the column of [registers_names[i]] holds substring
    [i] counted from the end of the split key, and [$freq] holds its count. *)
Theorem organize_table (result_counts : pydict Z) (registers_names : list string) :
  NoDup (dict_keys result_counts) ->
  NoDup registers_names ->
  ~ In "$freq" registers_names ->
  Forall (fun k => length (split_space k) = length registers_names)
    (dict_keys result_counts) ->
  exists df,
    organize_qiskit_result result_counts registers_names = Ok df
    /\ df_columns df = registers_names ++ ["$freq"]
    /\ Permutation (df_rows df) (map expected_row result_counts)
    /\ length (df_rows df) = length result_counts
    /\ StronglySorted (fun r1 r2 => row_freq r2 <= row_freq r1) (df_rows df)
    /\ df_index df = range (len result_counts)
    /\ (forall row, In row (df_rows df) ->
          exists k f,
            In (k, f) result_counts
            /\ nth_error row (length registers_names) = Some (VInt f)
            /\ forall i name,
                 nth_error registers_names i = Some name ->
                 nth_error row i
                 = Some (VStr (nth (length (split_space k) - S i) (split_space k) ""))).
Proof.
  intros Hcounts Hnd Hfreq Hall.
  pose proof (organize_sorted_rows result_counts registers_names
                Hcounts Hnd Hfreq Hall) as Hrun.
  cbv zeta in Hrun.
  set (rows := map expected_row result_counts) in *.
  set (keyed := map (fun lr : Z * list value => (row_freq (snd lr), lr))
                  (combine (range (Z.of_nat (length rows))) rows)) in *.
  set (sorted := map snd (map snd (sort_desc keyed))) in *.
  assert (Hperm : Permutation sorted rows).
  { unfold sorted. rewrite (sort_desc_perm keyed). unfold keyed.
    rewrite !map_map. simpl.
    erewrite map_ext; [rewrite (map_snd_combine_range rows); reflexivity|].
    reflexivity. }
  assert (Hlen : length sorted = length result_counts).
  { rewrite (Permutation_length Hperm). unfold rows. now rewrite length_map. }
  eexists. split; [exact Hrun|]. simpl.
  split; [reflexivity|]. split; [exact Hperm|]. split; [exact Hlen|].
  split; [|split].
  - unfold sorted. apply sorted_rows; [apply sort_desc_sorted|].
    apply (Permutation_Forall (Permutation_sym (sort_desc_perm keyed))).
    unfold keyed. apply Forall_forall. intros x Hx. apply in_map_iff in Hx.
    destruct Hx as [lr [<- _]]. reflexivity.
  - unfold len. now rewrite Hlen.
  - intros row Hrow. apply (Permutation_in _ Hperm) in Hrow.
    unfold rows in Hrow. apply in_map_iff in Hrow.
    destruct Hrow as [[k f] [<- Hin]]. exists k, f. split; [exact Hin|].
    assert (Hk : length (split_space k) = length registers_names).
    { rewrite Forall_forall in Hall. apply Hall.
      unfold dict_keys. change k with (fst (k, f)). now apply in_map. }
    unfold expected_row. simpl. split.
    + rewrite nth_error_app2 by (rewrite length_map, length_rev; lia).
      now rewrite length_map, length_rev, Hk, Nat.sub_diag.
    + intros i name Hi.
      assert (Hlt : (i < length registers_names)%nat)
        by (apply nth_error_Some; congruence).
      rewrite nth_error_app1 by (rewrite length_map, length_rev; lia).
      rewrite nth_error_map.
      rewrite (nth_error_nth' _ "") by (rewrite length_rev; lia).
      simpl. now rewrite rev_nth by lia.
Qed.

(** C6 fails without its preconditions: a key with two spaces and a single
    register name make line 34 index [registers_names] past its end. *)
Lemma organize_any_input_counterexample :
  organize_qiskit_result [("1 0 1", 5)] ["a"] = Raise IndexError.
Proof. vm_compute. reflexivity. Qed.

(** Nor does the function return a table when a name is repeated, or when
    a name is [$freq]. *)
Lemma organize_repeated_names :
  organize_qiskit_result [("0 1", 5)] ["a"; "a"] = Raise ValueError
  /\ organize_qiskit_result [("1", 5)] ["$freq"] = Raise TypeError.
Proof. split; vm_compute; reflexivity. Qed.

(** Three outcomes of two registers, two of them with the same count. *)
Lemma organize_table_witness :
  exists df,
    organize_qiskit_result [("00 1", 3); ("11 0", 9); ("01 1", 3)] ["x"; "y"] = Ok df
    /\ df_columns df = ["x"; "y"; "$freq"]
    /\ Permutation (df_rows df)
         (map expected_row [("00 1", 3); ("11 0", 9); ("01 1", 3)])
    /\ length (df_rows df) = 3%nat
    /\ StronglySorted (fun r1 r2 => row_freq r2 <= row_freq r1) (df_rows df)
    /\ df_index df = [0; 1; 2].
Proof.
  destruct (organize_table [("00 1", 3); ("11 0", 9); ("01 1", 3)] ["x"; "y"])
    as (df & H1 & H2 & H3 & H4 & H5 & H6 & _).
  - repeat constructor; simpl; intuition discriminate.
  - repeat constructor; simpl; intuition discriminate.
  - simpl. intuition discriminate.
  - repeat constructor.
  - exists df. repeat split; assumption.
Defined.

(** C7 (as the code has it).  The key [1 0] gives the row
    [b = 0, a = 1, $freq = 700], the key [0 1] the row
    [b = 1, a = 0, $freq = 324], in this order, labelled 0 and 1. *)
Theorem organize_example :
  organize_qiskit_result [("1 0", 700); ("0 1", 324)] ["b"; "a"]
  = Ok (mkDataFrame ["b"; "a"; "$freq"] [0; 1]
          [[VStr "0"; VStr "1"; VInt 700]; [VStr "1"; VStr "0"; VInt 324]]).
Proof. vm_compute. reflexivity. Qed.

(** C7 fails as stated: the rows are not [b = 1, a = 0, 700] then
    [b = 0, a = 1, 324]. *)
Lemma organize_example_counterexample :
  ~ exists df,
      organize_qiskit_result [("1 0", 700); ("0 1", 324)] ["b"; "a"] = Ok df
      /\ df_rows df
         = [[VStr "1"; VStr "0"; VInt 700]; [VStr "0"; VStr "1"; VInt 324]].
Proof.
  intros [df [Hrun Hrows]]. vm_compute in Hrun.
  injection Hrun as <-. simpl in Hrows. discriminate Hrows.
Qed.

End OrganizeTheorems.

Section ShortKeys.

Lemma snoc_cells_length (d : pydict (list value)) (cells : list value) :
  length (snoc_cells d cells) = length d.
Proof.
  rewrite <- (length_map fst (snoc_cells d cells)). fold (dict_keys (snoc_cells d cells)).
  rewrite dict_keys_snoc_cells. unfold dict_keys. now rewrite length_map.
Qed.

Lemma last_len_cons (e : string * list value) (d : pydict (list value)) :
  d <> [] -> last_len (e :: d) = last_len d.
Proof. unfold last_len. destruct d; [congruence|reflexivity]. Qed.

(** A row of cells reaches the last column exactly when it has a cell for
    every column. *)
Lemma last_len_snoc (d : pydict (list value)) (cells : list value) :
  d <> [] ->
  (length cells <= length d)%nat ->
  last_len (snoc_cells d cells)
  = (last_len d + (if (length d <=? length cells)%nat then 1 else 0))%nat.
Proof.
  revert cells. induction d as [|[c l] d IH]; intros cells Hne Hlen; [congruence|].
  destruct d as [|e d].
  - destruct cells as [|v [|v' cells]]; simpl in *; try lia.
    unfold last_len. simpl. rewrite length_app. simpl. lia.
  - destruct cells as [|v cells].
    + simpl. lia.
    + assert (Hne2 : snoc_cells (e :: d) cells <> []).
      { intros E. apply (f_equal (@length _)) in E.
        rewrite snoc_cells_length in E. discriminate E. }
      change (snoc_cells ((c, l) :: e :: d) (v :: cells))
        with ((c, l ++ [v]) :: snoc_cells (e :: d) cells).
      rewrite last_len_cons by exact Hne2.
      rewrite last_len_cons by discriminate.
      rewrite IH by (simpl in *; try discriminate; lia).
      reflexivity.
Qed.

Variable result_counts : pydict Z.
Variable registers_names : list string.
Hypothesis names_distinct : NoDup registers_names.
Hypothesis names_not_freq : ~ In "$freq" registers_names.
Hypothesis names_nonempty : registers_names <> [].

(** The loop over keys none of which has more substrings than there are
    names: the [$freq] column grows by one per key, the column of the last
    name only for the keys that have a substring for every name. *)
Lemma organize_loop_short (ks : list string) (dn : pydict (list value))
  (lf : list value) :
  (forall k, In k ks -> In k (dict_keys result_counts)) ->
  Forall (fun k => (length (split_space k) <= length registers_names)%nat) ks ->
  dict_keys dn = registers_names ->
  exists dn' lf',
    for_each ks (organize_key result_counts registers_names) (dn ++ [("$freq", lf)])
    = Ok (dn' ++ [("$freq", lf')])
    /\ dict_keys dn' = registers_names
    /\ length lf' = (length lf + length ks)%nat
    /\ (last_len dn' <= last_len dn + length ks)%nat
    /\ (last_len dn' = (last_len dn + length ks)%nat ->
        Forall (fun k => length (split_space k) = length registers_names) ks).
Proof.
  revert dn lf. induction ks as [|k ks IH]; intros dn lf Hks Hshort Hkeys.
  - exists dn, lf. simpl. split; [reflexivity|]. split; [exact Hkeys|].
    split; [lia|]. split; [lia|]. intros _. constructor.
  - apply Forall_cons_iff in Hshort. destruct Hshort as [Hk Hshort].
    destruct (dict_getitem_in_keys result_counts k (Hks k (or_introl eq_refl)))
      as [f Hf].
    simpl for_each.
    rewrite (organize_key_cells result_counts registers_names k f dn lf)
      by assumption.
    set (cells := map VStr (rev (split_space k))).
    assert (Hdn : length dn = length registers_names).
    { rewrite <- Hkeys. unfold dict_keys. now rewrite length_map. }
    assert (Hcells : length cells = length (split_space k)).
    { unfold cells. now rewrite length_map, length_rev. }
    destruct (IH (snoc_cells dn cells) (lf ++ [VInt f])) as (dn' & lf' & Hrun & Hk' & Hlf & Hle & Heq).
    + intros k' Hk'. apply Hks. now right.
    + exact Hshort.
    + now rewrite dict_keys_snoc_cells.
    + exists dn', lf'. split; [exact Hrun|]. split; [exact Hk'|].
      rewrite length_app in Hlf. simpl in Hlf. simpl length.
      assert (Hne : dn <> []).
      { intros E. rewrite E in Hdn. simpl in Hdn. apply names_nonempty.
        apply length_zero_iff_nil. lia. }
      rewrite last_len_snoc in Hle, Heq by (assumption || lia).
      rewrite Hdn, Hcells in Hle, Heq.
      destruct (Nat.leb_spec (length registers_names) (length (split_space k)))
        as [Hge|Hlt].
      * split; [lia|]. split; [lia|]. intros E. constructor; [lia|].
        apply Heq. lia.
      * split; [lia|]. split; [lia|]. intros E. lia.
Qed.

End ShortKeys.

Section Partiality.

Variable result_counts : pydict Z.
Variable registers_names : list string.

Lemma organize_loop_keys (ks : list string) (d : pydict (list value)) :
  (forall k, In k ks -> In k (dict_keys result_counts)) ->
  (forall x, In x registers_names -> In x (dict_keys d)) ->
  In "$freq" (dict_keys d) ->
  Forall (fun k => (length (split_space k) <= length registers_names)%nat) ks ->
  exists d', for_each ks (organize_key result_counts registers_names) d = Ok d'
             /\ dict_keys d' = dict_keys d.
Proof.
  revert d. induction ks as [|k ks IH]; intros d Hks Hkeys Hfreq Hshort; simpl.
  - eauto.
  - apply Forall_cons_iff in Hshort. destruct Hshort as [Hk Hshort].
    destruct (organize_key_keys result_counts registers_names k d
                (Hks k (or_introl eq_refl)) Hkeys Hfreq Hk) as [d1 [Hd1 Hk1]].
    rewrite Hd1. destruct (IH d1) as [d' [Hd' Hk']].
    + intros k' H. apply Hks. now right.
    + now rewrite Hk1.
    + now rewrite Hk1.
    + exact Hshort.
    + exists d'. split; [exact Hd'|congruence].
Qed.

Lemma DataFrame_Ok_inv (d : pydict (list value)) (df : DataFrame) :
  DataFrame_of_dict d = Ok df ->
  df_columns df = dict_keys d
  /\ forall kv kv', In kv d -> In kv' d -> length (snd kv) = length (snd kv').
Proof.
  unfold DataFrame_of_dict. destruct d as [|[c l] d]; simpl.
  - intros E. injection E as <-. split; [reflexivity|]. intros kv kv' [].
  - destruct (forallb _ _) eqn:Hall; [|discriminate].
    intros E. injection E as <-. split; [reflexivity|].
    rewrite forallb_forall in Hall.
    assert (H : forall kv, In kv ((c, l) :: d) -> length (snd kv) = length l).
    { intros kv [<-|Hin]; [reflexivity|]. symmetry. apply Nat.eqb_eq, Hall.
      apply in_map_iff. now exists kv. }
    intros kv kv' Hkv Hkv'. now rewrite (H kv), (H kv').
Qed.

Lemma sort_values_columns (c : string) (df df' : DataFrame) :
  sort_values_desc c df = Ok df' -> df_columns df' = df_columns df.
Proof.
  unfold sort_values_desc. destruct (index_of c (df_columns df)); [|discriminate].
  destruct (for_each _ _ _); simpl; [|discriminate].
  intros E. injection E as <-. reflexivity.
Qed.

Lemma organize_Ok_inv (df : DataFrame) :
  organize_qiskit_result result_counts registers_names = Ok df ->
  exists out_dict table,
    for_each (dict_keys result_counts) (organize_key result_counts registers_names)
      (dict_of_empty_lists (registers_names ++ ["$freq"])) = Ok out_dict
    /\ DataFrame_of_dict out_dict = Ok table
    /\ df_columns df = dict_keys out_dict.
Proof.
  unfold organize_qiskit_result. cbv zeta.
  destruct (for_each _ _ _) as [out_dict|] eqn:Hloop; simpl; [|discriminate].
  destruct (DataFrame_of_dict out_dict) as [table|] eqn:Htable; simpl; [|discriminate].
  destruct (sort_values_desc "$freq" table) as [sorted|] eqn:Hsort; simpl; [|discriminate].
  intros E. injection E as <-. exists out_dict, table.
  split; [reflexivity|]. split; [exact Htable|].
  simpl. rewrite (sort_values_columns _ _ _ Hsort).
  now apply DataFrame_Ok_inv.
Qed.

Lemma last_len_empty_columns (cols : list string) :
  last_len (map (fun c : string => (c, @nil value)) cols) = 0%nat.
Proof.
  unfold last_len. induction cols as [|c [|c' cols] IH]; simpl in *; auto.
Qed.

End Partiality.

Section PartialityTheorem.

(** C10.  When some key of the counts splits into more substrings than there
    are register names, the function raises IndexError and returns no
    table.  When it returns a table whose columns are the register names
    followed by [$freq], every key splits into exactly as many substrings as
    there are names. *)
Theorem organize_needs_exact_split
  (result_counts : pydict Z) (registers_names : list string) :
  (Exists (fun k => (length registers_names < length (split_space k))%nat)
     (dict_keys result_counts) ->
   organize_qiskit_result result_counts registers_names = Raise IndexError)
  /\ (forall df,
        organize_qiskit_result result_counts registers_names = Ok df ->
        df_columns df = registers_names ++ ["$freq"] ->
        Forall (fun k => length (split_space k) = length registers_names)
          (dict_keys result_counts)).
Proof.
  assert (Hlong :
    Exists (fun k => (length registers_names < length (split_space k))%nat)
      (dict_keys result_counts) ->
    organize_qiskit_result result_counts registers_names = Raise IndexError).
  { intros Hex. unfold organize_qiskit_result. cbv zeta.
    rewrite organize_loop_long; [reflexivity|auto| | |exact Hex].
    - intros x Hx. apply dict_of_empty_lists_keys, in_or_app. now left.
    - apply dict_of_empty_lists_keys, in_or_app. right. now left. }
  split; [exact Hlong|].
  intros df Hrun Hcols.
  assert (Hshort : Forall (fun k => (length (split_space k) <= length registers_names)%nat)
                     (dict_keys result_counts)).
  { destruct (Exists_dec
                (fun k => (length registers_names < length (split_space k))%nat)
                (dict_keys result_counts)) as [Hex|Hno].
    - intros k. apply lt_dec.
    - rewrite (Hlong Hex) in Hrun. discriminate.
    - apply Forall_Exists_neg in Hno. eapply Forall_impl; [|exact Hno].
      simpl. intros k Hk. lia. }
  destruct (organize_Ok_inv _ _ _ Hrun) as (out_dict & table & Hloop & Htable & Hcol).
  destruct (organize_loop_keys result_counts registers_names (dict_keys result_counts)
              (dict_of_empty_lists (registers_names ++ ["$freq"])))
    as (d' & Hd' & Hkeys); auto.
  { intros x Hx. apply dict_of_empty_lists_keys, in_or_app. now left. }
  { apply dict_of_empty_lists_keys, in_or_app. right. now left. }
  rewrite Hloop in Hd'. injection Hd' as <-.
  assert (Hnd : NoDup (registers_names ++ ["$freq"])).
  { rewrite <- Hcols, Hcol, Hkeys. apply dict_of_empty_lists_keys_NoDup. }
  assert (Hnames : NoDup registers_names) by now apply NoDup_app_remove_r in Hnd.
  assert (Hfreq : ~ In "$freq" registers_names).
  { apply NoDup_remove_2 in Hnd. now rewrite app_nil_r in Hnd. }
  destruct registers_names as [|name0 names] eqn:Enames.
  - eapply Forall_impl; [|exact Hshort]. simpl. intros k Hk.
    pose proof (split_space_length k). lia.
  - rewrite <- Enames in *.
    assert (Hne : registers_names <> []) by (rewrite Enames; discriminate).
    rewrite dict_of_empty_lists_NoDup in Hloop by assumption.
    rewrite map_app in Hloop. simpl map at 2 in Hloop.
    set (dn := map (fun c : string => (c, @nil value)) registers_names) in *.
    assert (Hdn : dict_keys dn = registers_names).
    { unfold dn, dict_keys. rewrite map_map. simpl. apply map_id. }
    destruct (organize_loop_short result_counts registers_names Hnames Hfreq Hne
                (dict_keys result_counts) dn [])
      as (dn' & lf' & Hrun' & Hk' & Hlf & _ & Heq); auto.
    rewrite Hloop in Hrun'. injection Hrun' as ->.
    apply Heq. unfold dn at 1. rewrite last_len_empty_columns. simpl in Hlf.
    rewrite <- Hlf.
    destruct (DataFrame_Ok_inv _ _ Htable) as [_ Hlens].
    assert (Hne' : dn' <> []).
    { intros E. rewrite E in Hk'. simpl in Hk'. congruence. }
    unfold last_len.
    apply (Hlens (last dn' (EmptyString, [])) ("$freq", lf')).
    + apply in_or_app. left.
      rewrite (app_removelast_last (EmptyString, []) Hne') at 2.
      apply in_or_app. right. now left.
    + apply in_or_app. right. now left.
Qed.

(** The second key has three substrings for two names. *)
Lemma organize_needs_exact_split_witness :
  organize_qiskit_result [("1 0", 7); ("1 0 1", 5)] ["a"; "b"] = Raise IndexError.
Proof.
  apply (proj1 (organize_needs_exact_split [("1 0", 7); ("1 0 1", 5)] ["a"; "b"])).
  apply Exists_cons_tl. apply Exists_cons_hd. simpl. lia.
Defined.

End PartialityTheorem.

(** ** More on the truth tables of the helpers *)

Section Toggles.
Import GroverAlgorithm GroverGates Subclasses.

Lemma same_values_refl (s : BasisState) : same_values s s.
Proof. intros b. reflexivity. Qed.

Lemma same_values_trans (s1 s2 s3 : BasisState) :
  same_values s1 s2 -> same_values s2 s3 -> same_values s1 s3.
Proof. intros H12 H23 b. now rewrite H12. Qed.

Lemma forallb_same (s1 s2 : BasisState) (qs : list Bit) :
  (forall b, In b qs -> s1 b = s2 b) -> forallb s1 qs = forallb s2 qs.
Proof.
  induction qs as [|q qs IH]; intros H; simpl; [reflexivity|].
  rewrite (H q) by now left. rewrite IH; [reflexivity|].
  intros b Hb. apply H. now right.
Qed.

Lemma existsb_same (s1 s2 : BasisState) (qs : list Bit) :
  (forall b, In b qs -> s1 b = s2 b) -> existsb s1 qs = existsb s2 qs.
Proof.
  induction qs as [|q qs IH]; intros H; simpl; [reflexivity|].
  rewrite (H q) by now left. rewrite IH; [reflexivity|].
  intros b Hb. apply H. now right.
Qed.

Lemma flip_same (s1 s2 : BasisState) (q : Bit) :
  same_values s1 s2 -> same_values (flip s1 q) (flip s2 q).
Proof. intros H b. unfold flip. now rewrite H. Qed.

Lemma flip_flip (s : BasisState) (q : Bit) : same_values (flip (flip s q) q) s.
Proof.
  intros b. unfold flip. destruct (Bit_eqb b q); [apply negb_involutive|reflexivity].
Qed.

(** A gate reads the assignment through the values of the qubits only. *)
Lemma run_gates_same (gates : list Instruction) (s1 s2 s1' : BasisState) :
  same_values s1 s2 ->
  run_gates gates s1 = Some s1' ->
  exists s2', run_gates gates s2 = Some s2' /\ same_values s1' s2'.
Proof.
  revert s1 s2. induction gates as [|g gates IH]; intros s1 s2 Hs Hrun; simpl in *.
  - injection Hrun as <-. eauto.
  - destruct g as [q|q|q|c t|cs t| |qr cr]; simpl in *; try discriminate;
      try (now apply (IH s1 s2)).
    + apply (IH (flip s1 q)); [now apply flip_same|exact Hrun].
    + rewrite <- (forallb_same s1 s2 cs) by (intros; apply Hs).
      destruct (forallb s1 cs); [|now apply (IH s1 s2)].
      apply (IH (flip s1 t)); [now apply flip_same|exact Hrun].
Qed.

(** X on every control, the multi-controlled X, X on every control again:
    the target is negated exactly when no control is true, and nothing else
    changes. *)
Lemma x_mcx_x (qs : list Bit) (t : Bit) (s : BasisState) :
  NoDup qs -> ~ In t qs ->
  let s1 := fold_left flip qs s in
  let s2 := if forallb s1 qs then flip s1 t else s1 in
  let s3 := fold_left flip qs s2 in
  s3 t = xorb (s t) (negb (existsb s qs))
  /\ forall b, b <> t -> s3 b = s b.
Proof.
  intros Hnd Ht s1 s2 s3.
  assert (Hfire : forallb s1 qs = negb (existsb s qs)).
  { apply forallb_flipped. intros b Hb. now apply flip_all_inside. }
  assert (Hs2t : s2 t = xorb (s t) (negb (existsb s qs))).
  { unfold s2. rewrite Hfire. destruct (existsb s qs); simpl.
    - unfold s1. rewrite flip_all_outside by assumption. now rewrite xorb_false_r.
    - unfold flip. rewrite (proj2 (Bit_eqb_eq t t) eq_refl).
      unfold s1. rewrite flip_all_outside by assumption.
      now rewrite xorb_true_r. }
  assert (Hs2o : forall b, b <> t -> s2 b = s1 b).
  { intros b Hb. unfold s2. destruct (forallb s1 qs); [|reflexivity].
    unfold flip. now rewrite (proj2 (Bit_eqb_neq b t) Hb). }
  split.
  - unfold s3. now rewrite flip_all_outside.
  - intros b Hb. unfold s3.
    destruct (in_dec (fun x y => Bool.reflect_dec _ _
                        (iff_reflect _ _ (iff_sym (Bit_eqb_eq x y)))) b qs)
      as [Hin|Hout].
    + rewrite flip_all_inside by assumption. rewrite Hs2o by assumption.
      unfold s1. rewrite flip_all_inside by assumption. apply negb_involutive.
    + rewrite flip_all_outside by assumption. rewrite Hs2o by assumption.
      unfold s1. now rewrite flip_all_outside.
Qed.

(** The gates of [logic_or], whatever the value of the target. *)
Lemma logic_or_gates_xor (operands : list Register) (target : Register)
  (s : BasisState) :
  NoDup operands -> ~ In target operands ->
  exists s',
    run_gates (gates_of_call (call_logic_or operands target)) s = Some s'
    /\ s' (getbit target 0)
       = xorb (s (getbit target 0)) (existsb (fun q => s (getbit q 0)) operands)
    /\ forall b, b <> getbit target 0 -> s' b = s b.
Proof.
  intros Hnd Hnot.
  pose proof (NoDup_bits operands Hnd) as Hndb.
  assert (Ht : ~ In (getbit target 0) (bits operands)) by now rewrite In_bits.
  destruct (x_mcx_x (bits operands) (getbit target 0) s Hndb Ht) as [Htarget Hrest].
  cbv zeta in Htarget, Hrest.
  eexists. split.
  { simpl gates_of_call. rewrite run_gates_app, run_gates_X. simpl.
    rewrite run_gates_app, run_gates_X. reflexivity. }
  split.
  - unfold flip at 1. rewrite (proj2 (Bit_eqb_eq _ _) eq_refl).
    rewrite Htarget, <- existsb_bits.
    destruct (s (getbit target 0)), (existsb s (bits operands)); reflexivity.
  - intros b Hb. unfold flip at 1. rewrite (proj2 (Bit_eqb_neq _ _) Hb).
    now apply Hrest.
Qed.

(** The gate of [mcx] and [logic_and], whatever the value of the target. *)
Lemma mcx_gate_xor (ctrls : list Register) (target : Register) (s : BasisState) :
  exists s',
    run_gates [MCXGate (bits ctrls) (getbit target 0)] s = Some s'
    /\ s' (getbit target 0)
       = xorb (s (getbit target 0)) (forallb (fun q => s (getbit q 0)) ctrls)
    /\ forall b, b <> getbit target 0 -> s' b = s b.
Proof.
  eexists. split; [reflexivity|]. rewrite <- forallb_bits. split.
  - destruct (forallb s (bits ctrls)).
    + unfold flip. rewrite (proj2 (Bit_eqb_eq _ _) eq_refl). now rewrite xorb_true_r.
    + now rewrite xorb_false_r.
  - intros b Hb. destruct (forallb s (bits ctrls)); [|reflexivity].
    unfold flip. now rewrite (proj2 (Bit_eqb_neq _ _) Hb).
Qed.

(** A gate sequence that writes [target := target xor f], where [f] does not
    read the target, undoes itself. *)
Lemma xor_twice (gates : list Instruction) (t : Bit) (f : BasisState -> bool) :
  (forall s, exists s', run_gates gates s = Some s'
                        /\ s' t = xorb (s t) (f s)
                        /\ forall b, b <> t -> s' b = s b) ->
  (forall s s', (forall b, b <> t -> s' b = s b) -> f s' = f s) ->
  forall s, exists s1 s2,
    run_gates gates s = Some s1 /\ run_gates gates s1 = Some s2 /\ same_values s2 s.
Proof.
  intros Hxor Hf s.
  destruct (Hxor s) as (s1 & Hrun1 & Ht1 & Ho1).
  destruct (Hxor s1) as (s2 & Hrun2 & Ht2 & Ho2).
  exists s1, s2. split; [exact Hrun1|]. split; [exact Hrun2|].
  intros b. destruct (Bit_eqb b t) eqn:E.
  - apply Bit_eqb_eq in E. subst b. rewrite Ht2, Ht1, (Hf s s1 Ho1).
    destruct (s t), (f s); reflexivity.
  - apply Bit_eqb_neq in E. now rewrite Ho2, Ho1.
Qed.

Lemma forallb_ext_in_list {A : Type} (f g : A -> bool) (l : list A) :
  (forall a, In a l -> f a = g a) -> forallb f l = forallb g l.
Proof.
  induction l as [|a l IH]; intros H; simpl; [reflexivity|].
  rewrite (H a) by now left. rewrite IH; [reflexivity|].
  intros b Hb. apply H. now right.
Qed.

Lemma existsb_ext_in_list {A : Type} (f g : A -> bool) (l : list A) :
  (forall a, In a l -> f a = g a) -> existsb f l = existsb g l.
Proof.
  induction l as [|a l IH]; intros H; simpl; [reflexivity|].
  rewrite (H a) by now left. rewrite IH; [reflexivity|].
  intros b Hb. apply H. now right.
Qed.

(** Every call with a truth table undoes itself. *)
Lemma classical_call_twice (c : HelperCall) (s : BasisState) :
  classical_call c ->
  exists s1 s2,
    run_gates (gates_of_call c) s = Some s1
    /\ run_gates (gates_of_call c) s1 = Some s2
    /\ same_values s2 s.
Proof.
  destruct c as [q|q|c t|cs t|q|q|ops t|ops t]; simpl classical_call; intros Hc.
  - destruct Hc.
  - exists s, s. split; [reflexivity|]. split; [reflexivity|]. apply same_values_refl.
  - exists s, s. split; [reflexivity|]. split; [reflexivity|]. apply same_values_refl.
  - apply (xor_twice _ (getbit t 0) (fun s => forallb (fun q => s (getbit q 0)) cs)).
    + intros s0. apply mcx_gate_xor.
    + intros s0 s0' H. apply forallb_ext_in_list.
      intros q Hq. apply H. intros E. apply getbit_inj in E. now subst.
  - exists (flip s (getbit q 0)), (flip (flip s (getbit q 0)) (getbit q 0)).
    split; [reflexivity|]. split; [reflexivity|]. apply flip_flip.
  - exists (flip s (getbit q 0)), (flip (flip s (getbit q 0)) (getbit q 0)).
    split; [reflexivity|]. split; [reflexivity|]. apply flip_flip.
  - apply (xor_twice _ (getbit t 0) (fun s => forallb (fun q => s (getbit q 0)) ops)).
    + intros s0. apply mcx_gate_xor.
    + intros s0 s0' H. apply forallb_ext_in_list.
      intros q Hq. apply H. intros E. apply getbit_inj in E. now subst.
  - destruct Hc as [Hnd Hnot].
    apply (xor_twice _ (getbit t 0) (fun s => existsb (fun q => s (getbit q 0)) ops)).
    + intros s0. now apply logic_or_gates_xor.
    + intros s0 s0' H. apply existsb_ext_in_list.
      intros q Hq. apply H. intros E. apply getbit_inj in E. now subst.
Qed.

End Toggles.

Section HelperHooks.
Import GroverAlgorithm GroverGates Subclasses.

Lemma same_values_sym (s1 s2 : BasisState) : same_values s1 s2 -> same_values s2 s1.
Proof. intros H b. now rewrite H. Qed.

(** A call the circuit takes places its gates. *)
Lemma run_call_emits (c : HelperCall) (self : instance) :
  accepted_call (circ self) c = true ->
  run_call c self = emit (gates_of_call c) self.
Proof.
  destruct c as [q|q|c t|cs t|q|q|ops t|ops t]; simpl accepted_call; intros H.
  - now apply h_emits.
  - now apply z_emits.
  - now apply cz_emits.
  - destruct cs as [|r cs]; [discriminate|]. apply mcx_emits; [discriminate|exact H].
  - now apply x_emits.
  - now apply x_emits.
  - destruct ops as [|r ops]; [discriminate|].
    apply logic_and_emits; [discriminate|exact H].
  - destruct ops as [|r ops]; [discriminate|].
    apply logic_or_emits; [discriminate|exact H].
Qed.

(** A hook made of helper calls the circuit takes places the gates of its
    calls, in order. *)
Lemma body_emits (calls : list HelperCall) (self : instance) :
  forallb (accepted_call (circ self)) calls = true ->
  emits self (body calls) (gates_of calls).
Proof.
  induction calls as [|c calls IH]; intros H placed; unfold body; simpl.
  - now rewrite emit_place, place_nil.
  - simpl in H. apply andb_true_iff in H. destruct H as [Hc Hcalls].
    apply emit_seq.
    + apply run_call_emits. exact Hc.
    + rewrite place_place. apply (IH Hcalls).
Qed.

Lemma single_gate_rejected (q : Register) (g : Bit -> Instruction) (self : instance) :
  Circuit.check_qargs (circ self) [getbit q 0] = false ->
  exists e,
    (b <- item0 q ;; on_circ (fun c => Circuit.gate c (g b) [b]))%method self = Raise e.
Proof.
  intros H. unfold bindM. destruct (item0_cases q self) as [-> | ->].
  - unfold on_circ. rewrite gate_refused by exact H. eexists. reflexivity.
  - eexists. reflexivity.
Qed.

Lemma controlled_gate_rejected (cs : list Register) (t : Register) (self : instance) :
  match cs with
  | [] => false
  | _ :: _ => Circuit.check_qargs (circ self) (bits cs ++ [getbit t 0])
  end = false ->
  exists e, mcx cs t self = Raise e.
Proof.
  intros H. unfold mcx, bindM. destruct (items0_cases cs self) as [-> | ->];
    [|eexists; reflexivity].
  destruct (item0_cases t self) as [-> | ->]; [|eexists; reflexivity].
  unfold on_circ, Circuit.mcx. destruct cs as [|r cs]; [eexists; reflexivity|].
  change (bits (r :: cs)) with (getbit r 0 :: bits cs) in *.
  rewrite gate_refused by exact H. eexists. reflexivity.
Qed.

(** A call the circuit does not take raises. *)
Lemma run_call_rejected (c : HelperCall) (self : instance) :
  accepted_call (circ self) c = false ->
  exists e, run_call c self = Raise e.
Proof.
  destruct c as [q|q|c t|cs t|q|q|ops t|ops t]; simpl accepted_call; intros H.
  - exact (single_gate_rejected q HGate self H).
  - exact (single_gate_rejected q ZGate self H).
  - simpl run_call. unfold cz, bindM.
    destruct (item0_cases c self) as [-> | ->]; [|eexists; reflexivity].
    destruct (item0_cases t self) as [-> | ->]; [|eexists; reflexivity].
    unfold on_circ, Circuit.cz. rewrite gate_refused by exact H. eexists. reflexivity.
  - now apply controlled_gate_rejected.
  - exact (single_gate_rejected q XGate self H).
  - exact (single_gate_rejected q XGate self H).
  - now apply (controlled_gate_rejected ops t self).
  - simpl run_call. unfold logic_or. unfold bindM at 1.
    destruct (items0_cases ops self) as [-> | ->]; [|eexists; reflexivity].
    unfold bindM at 1. unfold on_circ at 1, Circuit.x_each.
    destruct ops as [|r ops]; [eexists; reflexivity|].
    change (bits (r :: ops)) with (getbit r 0 :: bits ops) in *.
    destruct (forallb _ _); [|eexists; reflexivity].
    cbn [bind]. unfold bindM at 1 2.
    destruct (item0_cases t
                (mkInstance
                   (Circuit.append (circ self) (map XGate (getbit r 0 :: bits ops)))
                   (phase_ancilla self) (qubits self) (clbits self) (names self)))
      as [-> | ->]; [|eexists; reflexivity].
    unfold on_circ at 1, Circuit.mcx.
    rewrite gate_refused by exact H. eexists. reflexivity.
Qed.

Lemma body_rejected (calls : list HelperCall) (self : instance) :
  forallb (accepted_call (circ self)) calls = false ->
  exists e, body calls self = Raise e.
Proof.
  revert self. induction calls as [|c calls IH]; intros self H; [discriminate|].
  simpl in H. unfold body. simpl for_in. unfold bindM.
  destruct (accepted_call (circ self) c) eqn:Ec.
  - rewrite (run_call_emits c self Ec), emit_place. apply IH. exact H.
  - destruct (run_call_rejected c self Ec) as [e ->]. now exists e.
Qed.

Lemma gates_of_call_no_measure (c : HelperCall) :
  filter is_measure (gates_of_call c) = [].
Proof.
  destruct c; simpl; try reflexivity.
  repeat (rewrite filter_app; simpl). now rewrite !filter_measure_X.
Qed.

Lemma gates_of_no_measure (calls : list HelperCall) :
  filter is_measure (gates_of calls) = [].
Proof.
  induction calls as [|c calls IH]; simpl; [reflexivity|].
  now rewrite filter_app, gates_of_call_no_measure, IH.
Qed.

(** The qubits of a call the circuit takes are pairwise distinct. *)
Lemma accepted_classical (c : Circuit.t) (call : HelperCall) :
  accepted_call c call = true -> no_hadamard call = true -> classical_call call.
Proof.
  assert (Hsplit : forall cs t,
            match cs with
            | [] => false
            | _ :: _ => Circuit.check_qargs c (bits cs ++ [getbit t 0])
            end = true -> NoDup cs /\ ~ In t cs).
  { intros cs t H. destruct cs as [|r cs]; [discriminate|].
    apply check_qargs_iff in H. destruct H as [_ Hnd].
    apply NoDup_snoc in Hnd. destruct Hnd as [Hnd Ht]. rewrite In_bits in Ht.
    split; [|exact Ht]. unfold bits in Hnd. now apply NoDup_map_inv in Hnd. }
  destruct call as [q|q|ctrl t|cs t|q|q|ops t|ops t]; simpl; intros H Hh;
    try discriminate; try exact I.
  - apply (Hsplit cs t H).
  - apply (Hsplit ops t H).
  - apply (Hsplit ops t H).
Qed.

(** The calls of a hook followed by the same calls in reverse order. *)
Lemma calls_then_reverse (calls : list HelperCall) :
  Forall classical_call calls ->
  forall s, exists s',
    run_gates (gates_of calls ++ gates_of (rev calls)) s = Some s'
    /\ same_values s' s.
Proof.
  induction 1 as [|c calls Hc Hcalls IH]; intros s.
  - exists s. split; [reflexivity|apply same_values_refl].
  - destruct (classical_call_twice c s Hc) as (s1 & s2 & H1 & H2 & Hsame).
    destruct (IH s1) as (s1' & Hmid & Hsame1).
    destruct (run_gates_same _ s1 s1' s2 (same_values_sym _ _ Hsame1) H2)
      as (s2' & H2' & Hsame2).
    exists s2'. split.
    + simpl rev. unfold gates_of. rewrite flat_map_app. simpl flat_map.
      rewrite app_nil_r. fold (gates_of calls). fold (gates_of (rev calls)).
      rewrite <- app_assoc, run_gates_app, H1.
      rewrite app_assoc, run_gates_app, Hmid. exact H2'.
    + apply (same_values_trans _ s2); [now apply same_values_sym|exact Hsame].
Qed.

End HelperHooks.

Section HelperTheorems.
Import GroverAlgorithm GroverGates Subclasses.

(** X2.  For a non-empty list of pairwise distinct operand registers and a
    target that is none of them, all with their first bit on the circuit,
    [logic_or] succeeds, and whatever the target holds its gates write
    [target xor (OR of the operands)] into the target and leave every other
    qubit, the operands included, as it was. *)
Theorem logic_or_xor
  (operands : list Register) (target : Register) (self : instance)
  (s : BasisState) :
  operands <> [] ->
  NoDup operands ->
  ~ In target operands ->
  (forall q, In q (target :: operands) ->
     Circuit.has_qubit (circ self) (getbit q 0) = true) ->
  exists gates s',
    logic_or operands target self = Ok (tt, place gates self)
    /\ run_gates gates s = Some s'
    /\ s' (getbit target 0)
       = xorb (s (getbit target 0)) (existsb (fun q => s (getbit q 0)) operands)
    /\ (forall b, b <> getbit target 0 -> s' b = s b).
Proof.
  intros Hne Hnd Hnot Hon.
  destruct (logic_or_gates_xor operands target s Hnd Hnot) as (s' & Hrun & Ht & Ho).
  exists (gates_of_call (call_logic_or operands target)), s'.
  split; [|auto].
  apply (logic_or_emits operands target self Hne).
  now apply operands_checked.
Qed.

(** OR of [a] and [b] into [out] when all three are true: [out] becomes false. *)
Lemma logic_or_xor_witness :
  exists gates s',
    logic_or [Sample.a; Sample.b] Sample.out Sample.ready
    = Ok (tt, place gates Sample.ready)
    /\ run_gates gates (fun _ => true) = Some s'
    /\ s' (getbit Sample.out 0) = xorb true (existsb (fun _ => true) [Sample.a; Sample.b])
    /\ (forall b, b <> getbit Sample.out 0 -> s' b = true).
Proof.
  apply (logic_or_xor [Sample.a; Sample.b] Sample.out Sample.ready (fun _ => true)).
  - discriminate.
  - repeat constructor; simpl; intuition discriminate.
  - simpl. intuition discriminate.
  - exact sample_operands_on_circuit.
Defined.

(** X3.  A hook written with the helpers: when the circuit takes every one
    of its calls (the first bits of the registers are qubits of the circuit,
    pairwise distinct within a call, with at least one control where
    controls are asked for), the hook succeeds, places the gates of its
    calls in order whatever was placed before, and changes nothing else;
    otherwise it raises.  None of the gates is a measurement. *)
Theorem helper_hook_places_gates (calls : list HelperCall) (self : instance) :
  filter is_measure (gates_of calls) = []
  /\ if forallb (accepted_call (circ self)) calls
     then emits self (body calls) (gates_of calls)
          /\ exists self',
               body calls self = Ok (tt, self')
               /\ qubits self' = qubits self
               /\ clbits self' = clbits self
               /\ names self' = names self
               /\ phase_ancilla self' = phase_ancilla self
               /\ Circuit.regs (circ self') = Circuit.regs (circ self)
               /\ Circuit.data (circ self') = Circuit.data (circ self) ++ gates_of calls
     else exists e, body calls self = Raise e.
Proof.
  split; [apply gates_of_no_measure|].
  destruct (forallb (accepted_call (circ self)) calls) eqn:E.
  - split; [now apply body_emits|].
    rewrite (emits_here _ _ _ (body_emits calls self E)), emit_place.
    eexists. split; [reflexivity|]. repeat split.
  - now apply body_rejected.
Qed.

(** X4.  A hook whose calls the circuit takes and that makes no Hadamard
    call, followed by the hook that makes the same calls in reverse order:
    both succeed, and their gates together give every qubit its value back. *)
Theorem reverse_calls_undo (calls : list HelperCall) (self : instance)
  (s : BasisState) :
  forallb (accepted_call (circ self)) calls = true ->
  forallb no_hadamard calls = true ->
  exists s',
    body calls self = Ok (tt, place (gates_of calls) self)
    /\ body (rev calls) (place (gates_of calls) self)
       = Ok (tt, place (gates_of calls ++ gates_of (rev calls)) self)
    /\ run_gates (gates_of calls ++ gates_of (rev calls)) s = Some s'
    /\ same_values s' s.
Proof.
  intros Hacc Hh.
  assert (Hc : Forall classical_call calls).
  { apply Forall_forall. intros c Hin.
    apply (accepted_classical (circ self)).
    - now apply (proj1 (forallb_forall _ _) Hacc).
    - now apply (proj1 (forallb_forall _ _) Hh). }
  assert (Hrev : forallb (accepted_call (circ self)) (rev calls) = true).
  { apply forallb_forall. intros c Hin. apply in_rev in Hin.
    now apply (proj1 (forallb_forall _ _) Hacc). }
  destruct (calls_then_reverse calls Hc s) as (s' & Hrun & Hsame).
  exists s'. split; [exact (emits_here _ _ _ (body_emits calls self Hacc))|].
  split; [|auto].
  rewrite (body_emits (rev calls) self Hrev (gates_of calls)), emit_place.
  now rewrite place_place.
Qed.

(** NOT a, then out := a OR b, then a AND b into out; and back. *)
Lemma reverse_calls_undo_witness :
  exists s',
    body [call_logic_not Sample.a;
          call_logic_or [Sample.a; Sample.b] Sample.out;
          call_logic_and [Sample.a; Sample.b] Sample.out] Sample.ready
    = Ok (tt, place
                (gates_of [call_logic_not Sample.a;
                           call_logic_or [Sample.a; Sample.b] Sample.out;
                           call_logic_and [Sample.a; Sample.b] Sample.out])
                Sample.ready)
    /\ run_gates
         (gates_of [call_logic_not Sample.a;
                    call_logic_or [Sample.a; Sample.b] Sample.out;
                    call_logic_and [Sample.a; Sample.b] Sample.out]
          ++ gates_of (rev [call_logic_not Sample.a;
                            call_logic_or [Sample.a; Sample.b] Sample.out;
                            call_logic_and [Sample.a; Sample.b] Sample.out]))
         (fun q => Bit_eqb q (getbit Sample.b 0)) = Some s'
    /\ same_values s' (fun q => Bit_eqb q (getbit Sample.b 0)).
Proof.
  destruct (reverse_calls_undo
              [call_logic_not Sample.a;
               call_logic_or [Sample.a; Sample.b] Sample.out;
               call_logic_and [Sample.a; Sample.b] Sample.out]
              Sample.ready
              (fun q => Bit_eqb q (getbit Sample.b 0)) eq_refl eq_refl)
    as (s' & Hrun1 & _ & Hrun & Hsame).
  exists s'. split; [exact Hrun1|]. split; [exact Hrun|exact Hsame].
Defined.

(** X5.  On an instance whose declared registers are pairwise distinct and
    differ from the phase ancilla, the diffusion step of lines 127-133
    negates the phase ancilla exactly on the assignments in which every
    declared qubit is false, and gives every other qubit its value back. *)
Theorem diffusion_truth_table (self : instance) (s : BasisState) :
  NoDup (qubits self) ->
  ~ In (phase_ancilla self) (qubits self) ->
  exists s',
    run_gates (diffusion_gates self) s = Some s'
    /\ s' (getbit (phase_ancilla self) 0)
       = xorb (s (getbit (phase_ancilla self) 0))
           (negb (existsb (fun q => s (getbit q 0)) (qubits self)))
    /\ (forall b, b <> getbit (phase_ancilla self) 0 -> s' b = s b).
Proof.
  intros Hnd Hpa.
  pose proof (NoDup_bits _ Hnd) as Hndb.
  assert (Ht : ~ In (getbit (phase_ancilla self) 0) (bits (qubits self)))
    by now rewrite In_bits.
  destruct (x_mcx_x _ _ s Hndb Ht) as [Htarget Hrest]. cbv zeta in Htarget, Hrest.
  eexists. split.
  { unfold diffusion_gates. rewrite run_gates_app, run_gates_X. simpl.
    rewrite run_gates_X. reflexivity. }
  split; [now rewrite Htarget, existsb_bits|exact Hrest].
Qed.

(** The sample instance with every qubit false: the ancilla becomes true. *)
Lemma diffusion_truth_table_witness :
  exists s',
    run_gates (diffusion_gates Sample.ready) (fun _ => false) = Some s'
    /\ s' (getbit (phase_ancilla Sample.ready) 0) = true
    /\ (forall b, b <> getbit (phase_ancilla Sample.ready) 0 -> s' b = false).
Proof.
  destruct (diffusion_truth_table Sample.ready (fun _ => false))
    as (s' & Hrun & Hpa & Hrest).
  - repeat constructor; simpl; intuition discriminate.
  - simpl. intuition discriminate.
  - exists s'. split; [exact Hrun|]. split; [exact Hpa|exact Hrest].
Defined.

End HelperTheorems.

(** ** More on build_all and the constructor *)

Section BuildAllEdges.
Import GroverAlgorithm GroverGates Subclasses.

Lemma bindM_emit {B : Type} (m : M unit) (k : unit -> M B) (g : list Instruction)
  (self : instance) :
  m self = emit g self -> bindM m k self = k tt (place g self).
Proof. intros H. unfold bindM. now rewrite H, emit_place. Qed.

Lemma bindM_raise {A B : Type} (m : M A) (k : A -> M B) (e : exn) (self : instance) :
  m self = Raise e -> bindM m k self = Raise e.
Proof. intros H. unfold bindM. now rewrite H. Qed.

Lemma for_in_app {A : Type} (l1 l2 : list A) (body : A -> M unit) (self : instance) :
  for_in (l1 ++ l2) body self
  = match for_in l1 body self with
    | Ok (_, self') => for_in l2 body self'
    | Raise e => Raise e
    end.
Proof.
  revert self. induction l1 as [|a l1 IH]; intros self; simpl; [reflexivity|].
  unfold bindM. destruct (body a self) as [[[] self']|e]; [apply IH|reflexivity].
Qed.

Lemma length_concat_repeat {A : Type} (g : list A) (k : nat) :
  length (concat (repeat g k)) = (k * length g)%nat.
Proof.
  induction k as [|k IH]; simpl; [reflexivity|]. rewrite length_app, IH. lia.
Qed.

Lemma length_measurement_gates (self : instance) :
  length (clbits self) = length (qubits self) ->
  length (measurement_gates self) = length (qubits self).
Proof.
  intros H. unfold measurement_gates. rewrite length_map, length_combine. lia.
Qed.

(** The measurement loop of lines 139-140 when a register list is shorter
    than [names]. *)
Lemma measure_loop_raises (N : nat) (self : instance) :
  (length (qubits self) < N \/ length (clbits self) < N)%nat ->
  (forall q c, In (q, c) (combine (qubits self) (clbits self)) ->
     measurable (circ self) q c) ->
  for_in (map Z.of_nat (seq 0 N))
    (fun i self =>
       (q <- getitem (qubits self) i ;;
        c <- getitem (clbits self) i ;;
        on_circ (fun circ => Circuit.measure circ q c) self)%res) self
  = Raise IndexError.
Proof.
  intros Hshort Hm.
  set (m := Nat.min (length (qubits self)) (length (clbits self))).
  replace N with (m + S (N - S m))%nat by lia.
  rewrite seq_app, map_app, for_in_app.
  rewrite measure_loop by (lia || assumption). rewrite emit_place.
  simpl seq. simpl map. simpl for_in. unfold bindM. simpl qubits. simpl clbits.
  destruct (Nat.le_gt_cases (length (qubits self)) (length (clbits self))) as [Hle|Hgt].
  - rewrite (getitem_out_of_range (qubits self) m) by lia. reflexivity.
  - destruct (nth_error (qubits self) m) as [q|] eqn:Eq;
      [|apply nth_error_None in Eq; lia].
    rewrite (getitem_nat _ _ _ Eq). simpl bind.
    rewrite (getitem_out_of_range (clbits self) m) by lia. reflexivity.
Qed.

Lemma prepare_labels_Ok_inv {P : Circuit.RegisterPolicy}
  (labels : list string) (self self' : instance) :
  prepare_labels labels self = Ok (tt, self') ->
  self' = mkInstance
            (Circuit.mk
               (Circuit.regs (circ self)
                ++ flat_map (fun l => [qreg_of l; creg_of l]) labels)
               (Circuit.data (circ self)))
            (phase_ancilla self)
            (qubits self ++ map qreg_of labels)
            (clbits self ++ map creg_of labels)
            (names self ++ labels).
Proof.
  revert self. induction labels as [|l labels IH]; intros self; unfold prepare_labels;
    simpl.
  - unfold ret. intros E. injection E as <-.
    destruct self as [[rs d] pa qs cs ns]. simpl. now rewrite !app_nil_r.
  - unfold bindM at 1 2. destruct (create_qubit l self) as [[r s1]|e] eqn:E1;
      [|discriminate].
    apply create_qubit_Ok_inv in E1. destruct E1 as [_ ->].
    unfold ret at 1. fold (prepare_labels labels). intros E. apply IH in E.
    rewrite E. simpl. now rewrite <- !app_assoc.
Qed.

Lemma combine_qreg_creg (labels : list string) :
  map (fun qc => Measure (getbit (fst qc) 0) (getbit (snd qc) 0))
    (combine (map qreg_of labels) (map creg_of labels))
  = map (fun l => Measure (getbit (qreg_of l) 0) (getbit (creg_of l) 0)) labels.
Proof. induction labels as [|l labels IH]; simpl; congruence. Qed.

(** The instance the constructor leaves for pairwise distinct labels. *)
Lemma labels_well_formed (labels : list string) :
  NoDup labels ->
  well_formed
    (mkInstance
       (Circuit.mk
          (QuantumRegister 1 "phase_ancilla"
           :: flat_map (fun l => [qreg_of l; creg_of l]) labels)
          [HGate (getbit (QuantumRegister 1 "phase_ancilla") 0)])
       (QuantumRegister 1 "phase_ancilla")
       (map qreg_of labels) (map creg_of labels) labels).
Proof.
  intros Hnd. split; [repeat split|]. split; [exact Hnd|]. split; [reflexivity|].
  intros l Hl. unfold Circuit.has_register. cbn [circ Circuit.regs].
  split; apply existsb_exists.
  - exists (qreg_of l). split; [|apply Register_eqb_refl].
    right. apply in_flat_map. exists l. split; [assumption|now left].
  - exists (creg_of l). split; [|apply Register_eqb_refl].
    right. apply in_flat_map. exists l. split; [assumption|right; now left].
Qed.

End BuildAllEdges.

Section BuildAllExtras.
Import GroverAlgorithm GroverGates Subclasses.

(** X6.  On a well-formed instance, for a declared target and hooks that
    place the gate sequences [B] and [R], [build_all] succeeds; it changes
    neither the register lists, the names, the phase ancilla nor the
    circuit's registers, keeps the instructions already placed, and adds
    [n * (|B| + |R| + 2k + 8) + |B| + k + 2] instructions, [k] being the
    number of declared registers. *)
Theorem build_all_frame_and_size
  (cls : Subclass) (B R : list Instruction) (target : Register) (n : Z)
  (self : instance) :
  well_formed self ->
  In target (qubits self) ->
  emits self (build_search_space cls) B ->
  emits self (revert_search_space cls) R ->
  exists self' added,
    build_all cls target n self = Ok (tt, self')
    /\ qubits self' = qubits self
    /\ clbits self' = clbits self
    /\ names self' = names self
    /\ phase_ancilla self' = phase_ancilla self
    /\ Circuit.regs (circ self') = Circuit.regs (circ self)
    /\ Circuit.data (circ self') = Circuit.data (circ self) ++ added
    /\ length added
       = (Z.to_nat n * (length B + length R + 2 * length (qubits self) + 8)
          + length B + length (qubits self) + 2)%nat.
Proof.
  intros Hwf Ht HB HR.
  destruct (allocated_lengths self (proj1 Hwf)) as [Hq Hc].
  rewrite (build_all_well_formed cls B R target n self Hwf Ht HB HR), emit_place.
  eexists. eexists. split; [reflexivity|]. simpl.
  repeat (split; [reflexivity|]).
  rewrite length_app, length_concat_repeat. simpl length.
  unfold iteration_gates, diffusion_gates.
  repeat (rewrite length_app; simpl length).
  rewrite !length_map, length_measurement_gates by lia.
  unfold bits. rewrite !length_map. lia.
Qed.

(** The sample problem: 20 instructions per iteration and 8 more. *)
Lemma build_all_frame_and_size_witness :
  exists self' added,
    build_all (Sample.cls (P := Circuit.fresh_names_only)) Sample.out 3 Sample.ready
    = Ok (tt, self')
    /\ names self' = ["a"; "b"; "out"]
    /\ Circuit.data (circ self') = Circuit.data (circ Sample.ready) ++ added
    /\ length added = 68%nat.
Proof.
  destruct (build_all_frame_and_size (Sample.cls (P := Circuit.fresh_names_only))
              Sample.B Sample.R Sample.out 3 Sample.ready
              sample_ready_well_formed sample_out_declared
              sample_build_emits sample_revert_emits)
    as (self' & added & Hrun & _ & _ & Hn & _ & _ & Hd & Hl).
  exists self', added. split; [exact Hrun|]. split; [exact Hn|].
  split; [exact Hd|exact Hl].
Defined.

(** X7.  A negative iteration count is taken as zero, for every subclass
    and every instance. *)
Theorem build_all_nonpositive
  (cls : Subclass) (target : Register) (n : Z) (self : instance) :
  n <= 0 ->
  build_all cls target n self = build_all cls target 0 self.
Proof.
  intros Hn. unfold build_all, range at 1 3.
  replace (Z.to_nat n) with 0%nat by lia. reflexivity.
Qed.

Lemma build_all_nonpositive_witness :
  build_all (Sample.cls (P := Circuit.fresh_names_only)) Sample.out (-3) Sample.ready
  = build_all (Sample.cls (P := Circuit.fresh_names_only)) Sample.out 0 Sample.ready.
Proof.
  apply (build_all_nonpositive (Sample.cls (P := Circuit.fresh_names_only))
           Sample.out (-3) Sample.ready).
  lia.
Defined.

(** X8.  On a well-formed instance and for a declared target, with a
    subclass that defines [build_search_space] but not
    [revert_search_space], [build_all] with a positive count raises
    NotImplementedError, while with a count of zero or less it succeeds:
    the inverse hook is called inside the loop only. *)
Theorem build_all_without_revert
  (cls : Subclass) (B : list Instruction) (target : Register) (n : Z)
  (self : instance) :
  well_formed self ->
  In target (qubits self) ->
  emits self (build_search_space cls) B ->
  def_revert_search_space cls = None ->
  (0 < n -> build_all cls target n self = Raise NotImplementedError)
  /\ (n <= 0 ->
      build_all cls target n self
      = Ok (tt, place ([Barrier] ++ B ++ [Barrier] ++ measurement_gates self) self)).
Proof.
  intros Hwf Ht HB Hrev.
  destruct (allocated_lengths self (proj1 Hwf)) as [Hq Hc].
  pose proof (well_formed_gates self Hwf) as Hg.
  split.
  - intros Hn. unfold build_all, range at 1.
    destruct (Z.to_nat n) as [|k] eqn:E; [lia|].
    simpl seq. simpl map. simpl for_in.
    apply bindM_raise. apply bindM_raise.
    rewrite (bindM_emit _ _ [Barrier]) by reflexivity.
    rewrite (bindM_emit _ _ B) by apply HB. rewrite place_place.
    rewrite (bindM_emit _ _ [Barrier]) by reflexivity. rewrite place_place.
    rewrite (bindM_emit _ _ [CZGate (getbit target 0) (getbit (phase_ancilla self) 0)]).
    2:{ unfold bindM, attr. cbv beta iota. apply cz_emits.
        exact (marking_checked target self Hg Ht). }
    rewrite place_place.
    rewrite (bindM_emit _ _ [Barrier]) by reflexivity.
    apply bindM_raise. unfold revert_search_space. now rewrite Hrev.
  - intros Hn. apply build_all_without_loop; try assumption.
    now apply well_formed_measurable.
Qed.

Lemma build_all_without_revert_witness :
  build_all (Sample.forward_only (P := Circuit.fresh_names_only)) Sample.out 1
    Sample.ready = Raise NotImplementedError
  /\ build_all (Sample.forward_only (P := Circuit.fresh_names_only)) Sample.out 0
       Sample.ready
     = Ok (tt, place ([Barrier] ++ Sample.B ++ [Barrier] ++ measurement_gates Sample.ready)
                 Sample.ready).
Proof.
  destruct (build_all_without_revert (Sample.forward_only (P := Circuit.fresh_names_only))
              Sample.B Sample.out 1 Sample.ready
              sample_ready_well_formed sample_out_declared
              sample_forward_only_emits eq_refl) as [H1 _].
  destruct (build_all_without_revert (Sample.forward_only (P := Circuit.fresh_names_only))
              Sample.B Sample.out 0 Sample.ready
              sample_ready_well_formed sample_out_declared
              sample_forward_only_emits eq_refl) as [_ H0].
  split; [apply H1; lia|apply H0; lia].
Defined.

(** X9.  When [names] has more entries than [qubits] or than [clbits], on
    an instance whose gates and measurements the circuit takes, the
    measurement loop of lines 139-140 indexes a list past its end:
    [build_all] raises IndexError, whatever the count. *)
Theorem build_all_lists_out_of_step
  (cls : Subclass) (B R : list Instruction) (target : Register) (n : Z)
  (self : instance) :
  emits self (build_search_space cls) B ->
  emits self (revert_search_space cls) R ->
  Circuit.check_qargs (circ self)
    (bits (qubits self) ++ [getbit (phase_ancilla self) 0]) = true ->
  In target (qubits self) ->
  (forall q c, In (q, c) (combine (qubits self) (clbits self)) ->
     measurable (circ self) q c) ->
  (length (qubits self) < length (names self)
   \/ length (clbits self) < length (names self))%nat ->
  build_all cls target n self = Raise IndexError.
Proof.
  intros HB HR Hg Ht Hm Hshort. unfold build_all.
  rewrite (bindM_emit _ _ (concat (repeat (iteration_gates B R target self)
                                     (length (range n))))).
  2:{ pose proof (for_in_const (A := Z) _ _ self
                    (iteration_emits cls B R target self HB HR Hg Ht) (range n) []) as H.
      rewrite place_nil in H. exact H. }
  rewrite (bindM_emit _ _ [Barrier]) by reflexivity. rewrite place_place.
  rewrite (bindM_emit _ _ B) by apply HB. rewrite place_place.
  rewrite (bindM_emit _ _ [Barrier]) by reflexivity. rewrite place_place.
  unfold bindM, attr. cbv beta iota. unfold range, len. rewrite Nat2Z.id.
  apply measure_loop_raises; assumption.
Qed.

(** The sample registers with a fourth name and no register for it. *)
Lemma build_all_lists_out_of_step_witness :
  build_all
    (mkSubclass None
       (Some (body [call_h Sample.a; call_logic_and [Sample.a; Sample.b] Sample.out]))
       (Some (body [call_logic_and [Sample.a; Sample.b] Sample.out; call_h Sample.a])))
    Sample.out 1
    (mkInstance (circ Sample.ready) (phase_ancilla Sample.ready)
       (qubits Sample.ready) (clbits Sample.ready) (names Sample.ready ++ ["d"]))
  = Raise IndexError.
Proof.
  apply (build_all_lists_out_of_step _
           (gates_of [call_h Sample.a; call_logic_and [Sample.a; Sample.b] Sample.out])
           (gates_of [call_logic_and [Sample.a; Sample.b] Sample.out; call_h Sample.a])).
  - unfold build_search_space. cbn [def_build_search_space].
    apply body_emits. reflexivity.
  - unfold revert_search_space. cbn [def_revert_search_space].
    apply body_emits. reflexivity.
  - reflexivity.
  - right. right. left. reflexivity.
  - exact (well_formed_measurable Sample.ready sample_ready_well_formed).
  - left. simpl. lia.
Defined.

End BuildAllExtras.

Section Constructor.
Import GroverAlgorithm GroverGates Subclasses.
Context {P : Circuit.RegisterPolicy}.

(** The instance the constructor builds for a [prepare] that creates
    [labels]. *)
Lemma init_labels_inv (labels : list string) (b r : option (M unit))
  (self : instance) :
  __init__ (mkSubclass (Some (prepare_labels labels)) b r) = Ok self ->
  self = mkInstance
           (Circuit.mk
              (QuantumRegister 1 "phase_ancilla"
               :: flat_map (fun l => [qreg_of l; creg_of l]) labels)
              [HGate (getbit (QuantumRegister 1 "phase_ancilla") 0)])
           (QuantumRegister 1 "phase_ancilla")
           (map qreg_of labels) (map creg_of labels) labels.
Proof.
  unfold __init__, Circuit.add_register.
  destruct (Circuit.accepts _ _); cbn [bind]; [|discriminate].
  destruct (Circuit.h _ _) as [c|e] eqn:Eh; cbn [bind]; [|discriminate].
  vm_compute in Eh. injection Eh as <-.
  unfold prepare; cbn [def_prepare].
  destruct (prepare_labels labels _) as [[[] s']|e] eqn:E; cbn [bind snd]; [|discriminate].
  intros H. injection H as <-. apply prepare_labels_Ok_inv in E. exact E.
Qed.

(** X10.  When the constructor of a subclass whose [prepare] creates
    [labels] returns, the instance is determined by the labels: the circuit
    holds the phase ancilla followed by the registers [q_l], [c_l] of each
    label in order, its only instruction is the Hadamard on the phase
    ancilla, and the three lists hold the quantum registers, the classical
    registers and the labels, position by position. *)
Theorem constructor_declares_labels (labels : list string) (b r : option (M unit))
  (self : instance) :
  __init__ (mkSubclass (Some (prepare_labels labels)) b r) = Ok self ->
  Circuit.regs (circ self)
  = QuantumRegister 1 "phase_ancilla"
    :: flat_map (fun l => [QuantumRegister 1 ("q_" ++ l)%string;
                           ClassicalRegister 1 ("c_" ++ l)%string]) labels
  /\ Circuit.data (circ self) = [HGate (getbit (QuantumRegister 1 "phase_ancilla") 0)]
  /\ phase_ancilla self = QuantumRegister 1 "phase_ancilla"
  /\ names self = labels
  /\ qubits self = map (fun l => QuantumRegister 1 ("q_" ++ l)%string) labels
  /\ clbits self = map (fun l => ClassicalRegister 1 ("c_" ++ l)%string) labels.
Proof.
  intros H. apply init_labels_inv in H. subst self. simpl. repeat split.
Qed.

(** X11.  For a subclass whose [prepare] creates pairwise distinct [labels]
    and whose hooks are helper calls the circuit takes: once the
    constructor has returned, [build_all] succeeds for every declared
    target and every count, and the measurements of the circuit are, in
    order, one per label, of the qubit of [q_l] into the bit of [c_l]. *)
Theorem declared_subclass_builds
  (labels : list string) (build revert : list HelperCall)
  (target : Register) (n : Z) (self : instance) :
  __init__ (declared labels build revert) = Ok self ->
  NoDup labels ->
  In target (qubits self) ->
  forallb (accepted_call (circ self)) build = true ->
  forallb (accepted_call (circ self)) revert = true ->
  exists self',
    build_all (declared labels build revert) target n self = Ok (tt, self')
    /\ names self' = labels
    /\ filter is_measure (Circuit.data (circ self'))
       = map (fun l => Measure (getbit (QuantumRegister 1 ("q_" ++ l)%string) 0)
                         (getbit (ClassicalRegister 1 ("c_" ++ l)%string) 0)) labels.
Proof.
  intros H Hnd Ht Hb Hr. unfold declared in H. apply init_labels_inv in H. subst self.
  rewrite (build_all_well_formed (declared labels build revert)
             (gates_of build) (gates_of revert) target n _
             (labels_well_formed labels Hnd) Ht
             (body_emits build _ Hb) (body_emits revert _ Hr)).
  rewrite emit_place. eexists. split; [reflexivity|]. split; [reflexivity|].
  simpl. repeat (rewrite filter_app; simpl).
  rewrite filter_measure_repeat, gates_of_no_measure, filter_measure_measurements.
  - simpl. unfold measurement_gates. simpl. apply combine_qreg_creg.
  - apply filter_measure_iteration; apply gates_of_no_measure.
Qed.

End Constructor.

Section ConstructorWitnesses.
Import GroverAlgorithm GroverGates Subclasses.

Lemma constructor_declares_labels_witness :
  names Sample.ready = ["a"; "b"; "out"]
  /\ Circuit.data (circ Sample.ready)
     = [HGate (getbit (QuantumRegister 1 "phase_ancilla") 0)].
Proof.
  destruct (constructor_declares_labels (P := Circuit.fresh_names_only)
              ["a"; "b"; "out"] None None Sample.ready)
    as (_ & Hd & _ & Hn & _ & _).
  - vm_compute. reflexivity.
  - split; [exact Hn|exact Hd].
Defined.

(** Two labels; the hooks compute [y := NOT x] and undo it. *)
Lemma declared_subclass_builds_witness :
  exists self self',
    __init__ (P := Circuit.fresh_names_only)
      (declared (P := Circuit.fresh_names_only) ["x"; "y"]
         [call_h (QuantumRegister 1 "q_x");
          call_logic_or [QuantumRegister 1 "q_x"] (QuantumRegister 1 "q_y");
          call_logic_not (QuantumRegister 1 "q_y")]
         [call_logic_not (QuantumRegister 1 "q_y");
          call_logic_or [QuantumRegister 1 "q_x"] (QuantumRegister 1 "q_y");
          call_h (QuantumRegister 1 "q_x")]) = Ok self
    /\ build_all
         (declared (P := Circuit.fresh_names_only) ["x"; "y"]
            [call_h (QuantumRegister 1 "q_x");
             call_logic_or [QuantumRegister 1 "q_x"] (QuantumRegister 1 "q_y");
             call_logic_not (QuantumRegister 1 "q_y")]
            [call_logic_not (QuantumRegister 1 "q_y");
             call_logic_or [QuantumRegister 1 "q_x"] (QuantumRegister 1 "q_y");
             call_h (QuantumRegister 1 "q_x")])
         (QuantumRegister 1 "q_y") 2 self = Ok (tt, self')
    /\ names self' = ["x"; "y"].
Proof.
  eexists.
  assert (Hinit :
    __init__ (P := Circuit.fresh_names_only)
      (declared (P := Circuit.fresh_names_only) ["x"; "y"]
         [call_h (QuantumRegister 1 "q_x");
          call_logic_or [QuantumRegister 1 "q_x"] (QuantumRegister 1 "q_y");
          call_logic_not (QuantumRegister 1 "q_y")]
         [call_logic_not (QuantumRegister 1 "q_y");
          call_logic_or [QuantumRegister 1 "q_x"] (QuantumRegister 1 "q_y");
          call_h (QuantumRegister 1 "q_x")])
    = Ok (mkInstance
            (Circuit.mk
               [QuantumRegister 1 "phase_ancilla";
                QuantumRegister 1 "q_x"; ClassicalRegister 1 "c_x";
                QuantumRegister 1 "q_y"; ClassicalRegister 1 "c_y"]
               [HGate (getbit (QuantumRegister 1 "phase_ancilla") 0)])
            (QuantumRegister 1 "phase_ancilla")
            [QuantumRegister 1 "q_x"; QuantumRegister 1 "q_y"]
            [ClassicalRegister 1 "c_x"; ClassicalRegister 1 "c_y"]
            ["x"; "y"])).
  { vm_compute. reflexivity. }
  destruct (declared_subclass_builds (P := Circuit.fresh_names_only) ["x"; "y"]
              [call_h (QuantumRegister 1 "q_x");
               call_logic_or [QuantumRegister 1 "q_x"] (QuantumRegister 1 "q_y");
               call_logic_not (QuantumRegister 1 "q_y")]
              [call_logic_not (QuantumRegister 1 "q_y");
               call_logic_or [QuantumRegister 1 "q_x"] (QuantumRegister 1 "q_y");
               call_h (QuantumRegister 1 "q_x")]
              (QuantumRegister 1 "q_y") 2 _ Hinit) as (self' & Hrun & Hn & _).
  - repeat constructor; simpl; intuition discriminate.
  - right. left. reflexivity.
  - reflexivity.
  - reflexivity.
  - exists self'. split; [exact Hinit|]. split; [exact Hrun|exact Hn].
Defined.

End ConstructorWitnesses.

Section ConstructorLabels.
Import GroverAlgorithm GroverGates Subclasses.

Lemma create_qubit_raises {P : Circuit.RegisterPolicy}
  (label : string) (self : instance) (e : exn) :
  create_qubit label self = Raise e -> e = CircuitError.
Proof.
  unfold create_qubit, Circuit.add_register.
  destruct (Circuit.accepts (circ self) _); simpl; [|congruence].
  destruct (Circuit.accepts _ _); simpl; [discriminate|congruence].
Qed.

(** With the library's test of added registers, a [prepare] that comes to a
    label whose register the circuit holds fails. *)
Lemma prepare_labels_repeated (labels : list string) (l : string) (self : instance) :
  In l labels ->
  In (qreg_of l) (Circuit.regs (circ self)) ->
  prepare_labels (P := Circuit.fresh_names_only) labels self = Raise CircuitError.
Proof.
  revert self. induction labels as [|x labels IH]; intros self Hin Hheld; [destruct Hin|].
  unfold prepare_labels. simpl for_in. unfold bindM at 1 2.
  destruct (create_qubit (P := Circuit.fresh_names_only) x self) as [[r s1]|e] eqn:E.
  - destruct Hin as [->|Hin].
    + rewrite (held_label_refused l self Hheld) in E. discriminate.
    + apply create_qubit_Ok_inv in E. destruct E as [_ ->].
      unfold ret at 1. apply (IH _ Hin). simpl. apply in_or_app. now left.
  - now rewrite (create_qubit_raises _ _ _ E).
Qed.

Lemma prepare_labels_distinct (labels : list string) (self self' : instance) :
  prepare_labels (P := Circuit.fresh_names_only) labels self = Ok (tt, self') ->
  NoDup labels.
Proof.
  revert self. induction labels as [|x labels IH]; intros self H; [constructor|].
  unfold prepare_labels in H. simpl for_in in H. unfold bindM at 1 2 in H.
  destruct (create_qubit (P := Circuit.fresh_names_only) x self) as [[r s1]|e] eqn:E;
    [|discriminate].
  unfold ret at 1 in H. fold (prepare_labels (P := Circuit.fresh_names_only) labels) in H.
  constructor; [|exact (IH _ H)].
  intros Hin. apply create_qubit_Ok_inv in E. destruct E as [_ ->].
  rewrite (prepare_labels_repeated labels x) in H; [discriminate|assumption|].
  simpl. apply in_or_app. right. now left.
Qed.

(** With the library's test of added registers, the constructor of a
    subclass whose [prepare] creates [labels] returns only for pairwise
    distinct labels, and the instance it returns is well-formed. *)
Lemma constructor_well_formed (labels : list string) (b r : option (M unit))
  (self : instance) :
  __init__ (P := Circuit.fresh_names_only)
    (mkSubclass (Some (prepare_labels (P := Circuit.fresh_names_only) labels)) b r)
  = Ok self ->
  NoDup labels /\ well_formed self.
Proof.
  intros H.
  assert (Hnd : NoDup labels).
  { revert H. unfold __init__. cbn [bind Circuit.add_register].
    destruct (Circuit.add_register _ _) as [c0|e0]; cbn [bind]; [|discriminate].
    destruct (Circuit.h _ _) as [c|e]; cbn [bind]; [|discriminate].
    unfold prepare; cbn [def_prepare].
    destruct (prepare_labels labels _) as [[[] s']|e] eqn:E; cbn [bind]; [|discriminate].
    intros _. exact (prepare_labels_distinct _ _ _ E). }
  split; [exact Hnd|].
  apply init_labels_inv in H. subst self. now apply labels_well_formed.
Qed.

End ConstructorLabels.

(** ** More on the result formatter *)

Section FormatterEdges.

Lemma total_Permutation (l l' : list Z) : Permutation l l' -> total l = total l'.
Proof.
  unfold total. induction 1; simpl; lia.
Qed.

Lemma index_of_In (c : string) (cols : list string) :
  In c cols -> exists j, index_of c cols = Some j.
Proof.
  induction cols as [|c' cols IH]; simpl; [tauto|].
  intros Hin. destruct (String.eqb_spec c' c) as [->|Hne]; [eauto|].
  destruct IH as [j Hj]; [destruct Hin; [contradiction|assumption]|].
  rewrite Hj. simpl. eauto.
Qed.

Lemma setitem_empty_lengths (d : pydict (list value)) (k : string) :
  column_lengths d 0 -> column_lengths (dict_setitem d k []) 0.
Proof.
  unfold column_lengths. induction d as [|[k' v'] d IH]; intros H; simpl.
  - repeat constructor.
  - apply Forall_cons_iff in H. destruct H as [Hv Hd].
    destruct (String.eqb k' k); constructor; auto.
Qed.

Lemma dict_of_empty_lists_lengths (keys : list string) :
  column_lengths (dict_of_empty_lists (V := value) keys) 0.
Proof.
  unfold dict_of_empty_lists.
  assert (H : forall acc, column_lengths acc 0 ->
            column_lengths (fold_left (fun d k => dict_setitem d k []) keys acc) 0).
  { induction keys as [|k keys IH]; intros acc Hacc; simpl; [exact Hacc|].
    apply IH. now apply setitem_empty_lengths. }
  apply H. constructor.
Qed.

(** [pd.DataFrame] on columns of different lengths. *)
Lemma DataFrame_ragged (d : pydict (list value)) (kv kv' : string * list value) :
  In kv d -> In kv' d -> length (snd kv) <> length (snd kv') ->
  DataFrame_of_dict d = Raise ValueError.
Proof.
  intros Hkv Hkv' Hne. destruct (DataFrame_of_dict d) as [df|e] eqn:E.
  - exfalso. apply Hne. now apply (proj2 (DataFrame_Ok_inv d df E)).
  - unfold DataFrame_of_dict in E. destruct d as [|[c l] d]; simpl in E;
      [discriminate|].
    destruct (forallb _ _); [discriminate|]. symmetry. exact E.
Qed.

(** The table on well-shaped input: the expected rows, reordered by
    decreasing frequency. *)
Lemma organize_rows (result_counts : pydict Z) (registers_names : list string) :
  NoDup (dict_keys result_counts) ->
  NoDup registers_names ->
  ~ In "$freq" registers_names ->
  Forall (fun k => length (split_space k) = length registers_names)
    (dict_keys result_counts) ->
  exists df,
    organize_qiskit_result result_counts registers_names = Ok df
    /\ df_columns df = registers_names ++ ["$freq"]
    /\ Permutation (df_rows df) (map expected_row result_counts)
    /\ StronglySorted (fun r1 r2 => row_freq r2 <= row_freq r1) (df_rows df).
Proof.
  intros Hcounts Hnd Hfreq Hall.
  pose proof (organize_sorted_rows result_counts registers_names
                Hcounts Hnd Hfreq Hall) as Hrun.
  cbv zeta in Hrun.
  set (rows := map expected_row result_counts) in *.
  set (keyed := map (fun lr : Z * list value => (row_freq (snd lr), lr))
                  (combine (range (Z.of_nat (length rows))) rows)) in *.
  eexists. split; [exact Hrun|]. simpl. split; [reflexivity|]. split.
  - rewrite (sort_desc_perm keyed). unfold keyed. rewrite !map_map. simpl.
    erewrite map_ext; [rewrite (map_snd_combine_range rows); reflexivity|].
    reflexivity.
  - apply sorted_rows; [apply sort_desc_sorted|].
    apply (Permutation_Forall (Permutation_sym (sort_desc_perm keyed))).
    unfold keyed. apply Forall_forall. intros x Hx. apply in_map_iff in Hx.
    destruct Hx as [lr [<- _]]. reflexivity.
Qed.

Lemma row_freq_expected_rows (cs : list (string * Z)) :
  map row_freq (map expected_row cs) = map snd cs.
Proof.
  rewrite map_map. apply map_ext. intros kf. apply row_freq_expected.
Qed.

End FormatterEdges.

Section FormatterExtras.

(** X12.  With no counts at all the function raises nothing: it returns the
    table with no row whose columns are the register names and [$freq],
    each once. *)
Theorem organize_empty_counts (registers_names : list string) :
  exists cols,
    organize_qiskit_result [] registers_names = Ok (mkDataFrame cols [] [])
    /\ NoDup cols
    /\ forall c, In c cols <-> In c registers_names \/ c = "$freq".
Proof.
  exists (dict_keys (dict_of_empty_lists (V := value) (registers_names ++ ["$freq"]))).
  assert (Hkeys : forall c,
            In c (dict_keys (dict_of_empty_lists (V := value)
                               (registers_names ++ ["$freq"])))
            <-> In c registers_names \/ c = "$freq").
  { intros c. rewrite dict_of_empty_lists_keys, in_app_iff. simpl. intuition. }
  split; [|split; [apply dict_of_empty_lists_keys_NoDup|exact Hkeys]].
  unfold organize_qiskit_result. cbv zeta. simpl for_each. cbn [bind].
  rewrite (DataFrame_of_columns _ 0).
  - cbn [bind]. unfold sort_values_desc. simpl df_columns.
    destruct (index_of_In "$freq"
                (dict_keys (dict_of_empty_lists (V := value)
                              (registers_names ++ ["$freq"])))) as [j Hj].
    { apply Hkeys. now right. }
    rewrite Hj. reflexivity.
  - intros E. pose proof (proj2 (Hkeys "$freq") (or_intror eq_refl)) as Hin.
    rewrite E in Hin. exact Hin.
  - apply dict_of_empty_lists_lengths.
Qed.

(** X13.  With pairwise distinct register names none of which is [$freq]:
    when no key has more substrings than there are names but some key has
    fewer, the columns of the output dict end with different lengths and
    the function raises ValueError. *)
Theorem organize_short_key
  (result_counts : pydict Z) (registers_names : list string) :
  NoDup registers_names ->
  ~ In "$freq" registers_names ->
  Forall (fun k => (length (split_space k) <= length registers_names)%nat)
    (dict_keys result_counts) ->
  Exists (fun k => (length (split_space k) < length registers_names)%nat)
    (dict_keys result_counts) ->
  organize_qiskit_result result_counts registers_names = Raise ValueError.
Proof.
  intros Hnd Hfreq Hshort Hex.
  assert (Hne : registers_names <> []).
  { apply Exists_exists in Hex. destruct Hex as [k [_ Hk]].
    intros E. rewrite E in Hk. simpl in Hk. lia. }
  assert (Hnd' : NoDup (registers_names ++ ["$freq"])).
  { apply NoDup_app; [assumption|repeat constructor; intros []|].
    intros x Hx [<-|[]]. contradiction. }
  unfold organize_qiskit_result. cbv zeta.
  rewrite dict_of_empty_lists_NoDup by assumption. rewrite map_app. simpl map at 2.
  set (dn := map (fun c : string => (c, @nil value)) registers_names).
  assert (Hdn : dict_keys dn = registers_names).
  { unfold dn, dict_keys. rewrite map_map. simpl. apply map_id. }
  destruct (organize_loop_short result_counts registers_names Hnd Hfreq Hne
              (dict_keys result_counts) dn [])
    as (dn' & lf' & Hrun & Hk' & Hlf & _ & Heq); auto.
  rewrite Hrun. cbn [bind].
  assert (Hne' : dn' <> []).
  { intros E. rewrite E in Hk'. simpl in Hk'. congruence. }
  rewrite (DataFrame_ragged _ (last dn' (EmptyString, [])) ("$freq", lf')).
  - reflexivity.
  - apply in_or_app. left.
    rewrite (app_removelast_last (EmptyString, []) Hne') at 2.
    apply in_or_app. right. now left.
  - apply in_or_app. right. now left.
  - simpl. intros E. fold (last_len dn') in E.
    assert (Hexact : Forall (fun k => length (split_space k) = length registers_names)
                       (dict_keys result_counts)).
    { apply Heq. unfold dn at 1. rewrite last_len_empty_columns. simpl in Hlf. lia. }
    apply Exists_exists in Hex. destruct Hex as [k [Hin Hk]].
    rewrite Forall_forall in Hexact. specialize (Hexact k Hin). lia.
Qed.

(** The key [1] has one substring for the two names [a] and [b]. *)
Lemma organize_short_key_witness :
  organize_qiskit_result [("1 0", 7); ("1", 5)] ["a"; "b"] = Raise ValueError.
Proof.
  apply (organize_short_key [("1 0", 7); ("1", 5)] ["a"; "b"]).
  - repeat constructor; simpl; intuition discriminate.
  - simpl. intuition discriminate.
  - repeat constructor.
  - apply Exists_cons_tl. apply Exists_cons_hd. simpl. lia.
Defined.

(** X14.  On well-shaped input with at least one key, the first row of the
    table is a most frequent outcome: its [$freq] is the count of some key
    and no key has a larger count. *)
Theorem organize_first_row_is_most_frequent
  (result_counts : pydict Z) (registers_names : list string) :
  NoDup (dict_keys result_counts) ->
  NoDup registers_names ->
  ~ In "$freq" registers_names ->
  Forall (fun k => length (split_space k) = length registers_names)
    (dict_keys result_counts) ->
  result_counts <> [] ->
  exists df row rest,
    organize_qiskit_result result_counts registers_names = Ok df
    /\ df_rows df = row :: rest
    /\ (exists k, In (k, row_freq row) result_counts /\ row = expected_row (k, row_freq row))
    /\ forall k f, In (k, f) result_counts -> f <= row_freq row.
Proof.
  intros Hcounts Hnd Hfreq Hall Hne.
  destruct (organize_rows result_counts registers_names Hcounts Hnd Hfreq Hall)
    as (df & Hrun & _ & Hperm & Hsorted).
  destruct (df_rows df) as [|row rest] eqn:Erows.
  { apply Permutation_length in Hperm. rewrite length_map in Hperm.
    destruct result_counts; [congruence|discriminate]. }
  exists df, row, rest. split; [exact Hrun|]. split; [exact Erows|].
  apply StronglySorted_inv in Hsorted. destruct Hsorted as [_ Hrest].
  split.
  - assert (Hin : In row (map expected_row result_counts))
      by (apply (Permutation_in _ Hperm); now left).
    apply in_map_iff in Hin. destruct Hin as [[k f] [<- Hin]].
    exists k. rewrite row_freq_expected. simpl. auto.
  - intros k f Hin.
    assert (Hrow : In (expected_row (k, f)) (row :: rest)).
    { apply (Permutation_in _ (Permutation_sym Hperm)). now apply in_map. }
    destruct Hrow as [Hrow|Hrow].
    + rewrite Hrow, row_freq_expected. simpl. lia.
    + rewrite Forall_forall in Hrest. specialize (Hrest _ Hrow).
      now rewrite row_freq_expected in Hrest.
Qed.

Lemma organize_first_row_is_most_frequent_witness :
  exists df row rest,
    organize_qiskit_result [("00 1", 3); ("11 0", 9); ("01 1", 3)] ["x"; "y"] = Ok df
    /\ df_rows df = row :: rest
    /\ forall k f, In (k, f) [("00 1", 3); ("11 0", 9); ("01 1", 3)] ->
                   f <= row_freq row.
Proof.
  destruct (organize_first_row_is_most_frequent
              [("00 1", 3); ("11 0", 9); ("01 1", 3)] ["x"; "y"])
    as (df & row & rest & H1 & H2 & _ & H4).
  - repeat constructor; simpl; intuition discriminate.
  - repeat constructor; simpl; intuition discriminate.
  - simpl. intuition discriminate.
  - repeat constructor.
  - discriminate.
  - exists df, row, rest. split; [exact H1|]. split; [exact H2|exact H4].
Defined.

(** X15.  On well-shaped input no count is lost or repeated: the [$freq]
    cells of the table add up to the sum of the counts. *)
Theorem organize_keeps_total
  (result_counts : pydict Z) (registers_names : list string) :
  NoDup (dict_keys result_counts) ->
  NoDup registers_names ->
  ~ In "$freq" registers_names ->
  Forall (fun k => length (split_space k) = length registers_names)
    (dict_keys result_counts) ->
  exists df,
    organize_qiskit_result result_counts registers_names = Ok df
    /\ Permutation (map row_freq (df_rows df)) (map snd result_counts)
    /\ total (map row_freq (df_rows df)) = total (map snd result_counts).
Proof.
  intros Hcounts Hnd Hfreq Hall.
  destruct (organize_rows result_counts registers_names Hcounts Hnd Hfreq Hall)
    as (df & Hrun & _ & Hperm & _).
  exists df. split; [exact Hrun|].
  assert (Hp : Permutation (map row_freq (df_rows df)) (map snd result_counts)).
  { rewrite <- row_freq_expected_rows. now apply Permutation_map. }
  split; [exact Hp|now apply total_Permutation].
Qed.

(** 1024 shots over two outcomes. *)
Lemma organize_keeps_total_witness :
  exists df,
    organize_qiskit_result [("1 0", 700); ("0 1", 324)] ["b"; "a"] = Ok df
    /\ total (map row_freq (df_rows df)) = 1024.
Proof.
  destruct (organize_keeps_total [("1 0", 700); ("0 1", 324)] ["b"; "a"])
    as (df & H1 & _ & H3).
  - repeat constructor; simpl; intuition discriminate.
  - repeat constructor; simpl; intuition discriminate.
  - simpl. intuition discriminate.
  - repeat constructor.
  - exists df. split; [exact H1|exact H3].
Defined.

End FormatterExtras.

Section Simulate.
Import GroverAlgorithm GroverGates.

(** X16.  [simulate] hands the backend's counts and the instance's [names]
    to the formatter and leaves the instance as it is.  An error of the
    backend is raised unchanged.  When the labels are pairwise distinct,
    none is [$freq], and every key of the counts has one substring per
    label, the table has one column per label followed by [$freq], and its
    rows are the expected rows of the counts in some order. *)
Theorem simulate_table
  (backend : Circuit.t -> result (pydict Z)) (self : instance) :
  (forall e, backend (circ self) = Raise e -> simulate backend self = Raise e)
  /\ (forall counts,
        backend (circ self) = Ok counts ->
        NoDup (dict_keys counts) ->
        NoDup (names self) ->
        ~ In "$freq" (names self) ->
        Forall (fun k => length (split_space k) = length (names self))
          (dict_keys counts) ->
        exists df,
          simulate backend self = Ok (df, self)
          /\ df_columns df = names self ++ ["$freq"]
          /\ Permutation (df_rows df) (map expected_row counts)).
Proof.
  split.
  - intros e He. unfold simulate. now rewrite He.
  - intros counts Hb Hcounts Hnd Hfreq Hall.
    destruct (organize_rows counts (names self) Hcounts Hnd Hfreq Hall)
      as (df & Hrun & Hcols & Hperm & _).
    exists df. unfold simulate. rewrite Hb. cbn [bind]. rewrite Hrun. cbn [bind].
    auto.
Qed.

(** The sample instance and a backend that saw two outcomes. *)
Lemma simulate_table_witness :
  exists df,
    simulate (fun _ => Ok [("1 0 1", 600); ("0 0 0", 424)]) Sample.ready
    = Ok (df, Sample.ready)
    /\ df_columns df = ["a"; "b"; "out"; "$freq"].
Proof.
  destruct (proj2 (simulate_table (fun _ => Ok [("1 0 1", 600); ("0 0 0", 424)])
                     Sample.ready)
              [("1 0 1", 600); ("0 0 0", 424)]) as (df & Hrun & Hcols & _).
  - reflexivity.
  - repeat constructor; simpl; intuition discriminate.
  - repeat constructor; simpl; intuition discriminate.
  - simpl. intuition discriminate.
  - repeat constructor.
  - exists df. split; [exact Hrun|exact Hcols].
Defined.

End Simulate.
